(** * Demo-Stitcher: the audio mixing engine ([services/audioService.ts])

    A shallow embedding of [calculateRMS], [bufferToWav] and [createDemoMix]
    and the properties of the engine that the specification states; then
    (Part III) further properties of the engine, and of the handlers of
    [App.tsx] and [FileDropzone.tsx] that feed it.

    Conventions of the embedding.
    - A JavaScript [number] that holds a time, a gain or a sample is a
      rational ([Q]); statements about them use [==] ([Qeq]).  The rounding
      of binary64 arithmetic ([binary64]) is written out where it decides a
      count or an order: the duration of a buffer, the sums that step 4 and
      step 6 accumulate over the tracks, and the number of frames of the
      offline context.  The other operations are exact, and the values NaN
      and Infinity are not modelled.
    - A JavaScript [number] that holds a count, an index or a byte offset is
      an integer ([Z]); the places where the platform wraps it to 16 or 32
      bits ([DataView], [| 0]) are written out.
    - What the browser supplies is a parameter: [Math.sqrt], the decoder
      ([decodeAudioData]) and the offline renderer ([startRendering]) are
      the fields of a [Platform].
    - Code that throws returns a [Result]; [createDemoMix] also threads the
      log of the platform calls it makes, so that "before any decode" is a
      statement about that log.
    - A handler of the application is a function on a [World]: the React
      state it reads and writes, with each [set...] call applied in the
      order of the source, and the log of its calls on the browser.  The
      callback that [handleCreateDemo] hands to [setTimeout] is run to its
      end with no other event in between. *)

From Stdlib Require Import ZArith QArith Qround Qabs Qpower Lia Lqa String Ascii
  List Sorted.
From stdpp Require Import base list.
Import ListNotations.

Local Open Scope Z_scope.
Local Open Scope Q_scope.

(* ===================================================================== *)
(** * Part I: the embedding                                              *)
(* ===================================================================== *)

(** ** JavaScript numbers *)

(** [a < b] on numbers, as a boolean. *)
Definition Qltb (a b : Q) : bool := negb (Qle_bool b a).

Definition Math_min (a b : Q) : Q := if Qle_bool a b then a else b.
Definition Math_max (a b : Q) : Q := if Qle_bool a b then b else a.
Definition Math_ceil (x : Q) : Z := Qceiling x.
Definition Math_floor (x : Q) : Z := Qfloor x.

(** Truncation toward zero, the integer part that [ToInt32] starts from. *)
Definition truncate (x : Q) : Z := Z.quot (Qnum x) (Zpos (Qden x)).

(** The signed [w]-bit integer congruent to [z] modulo [2^w]. *)
Definition wrap_signed (w : Z) (z : Z) : Z :=
  ((z + 2 ^ (w - 1)) mod 2 ^ w - 2 ^ (w - 1))%Z.

(** [x | 0]: truncate, then wrap to a signed 32-bit integer. *)
Definition ToInt32 (x : Q) : Z := wrap_signed 32 (truncate x).
Definition ToUint32 (z : Z) : Z := (z mod 2 ^ 32)%Z.
Definition ToUint16 (z : Z) : Z := (z mod 2 ^ 16)%Z.

(** The number that JavaScript holds for the real [x]: [x] rounded to 53
    significant bits, to the nearest and ties to even.  [exponent x] is
    [floor (log2 |x|)].  The range of the exponent is not modelled (no
    overflow to Infinity, no subnormal numbers): the times and the frame
    counts of the engine are far inside it. *)
Definition exponent (x : Q) : Z :=
  let e := (Z.log2 (Z.abs (Qnum x)) - Z.log2 (Zpos (Qden x)))%Z in
  if Qle_bool (2 ^ e) (Qabs x) then e else (e - 1)%Z.

Definition roundHalfEven (x : Q) : Z :=
  let f := Qfloor x in
  match Qcompare (x - inject_Z f) (1 # 2) with
  | Lt => f
  | Gt => (f + 1)%Z
  | Eq => if Z.even f then f else (f + 1)%Z
  end.

Definition binary64 (x : Q) : Q :=
  if Qeq_bool x 0 then 0
  else
    let e := exponent x in
    inject_Z (roundHalfEven (x * 2 ^ (52 - e))) * 2 ^ (e - 52).

(** The unit roundoff of binary64, [2^-53]. *)
Definition unitRoundoff : Q := 1 # 9007199254740992.

(** ** Results, exceptions and a state monad *)

(** What is thrown: [new Error (message)], the [RangeError] and [TypeError]
    of the language, and a rejection that comes from the platform. *)
Inductive Exn : Type :=
| Error (message : string)
| RangeError
| TypeError
| PlatformError.

Inductive Result (A : Type) : Type :=
| Ok (a : A)
| Throw (e : Exn).
Arguments Ok {A} a.
Arguments Throw {A} e.

(** A computation over a state [S] that returns an [A] or throws; the state
    reached is kept in both cases. *)
Definition M (S A : Type) : Type := S -> Result A * S.

Definition ret {S A} (a : A) : M S A := fun s => (Ok a, s).
Definition throw {S A} (e : Exn) : M S A := fun s => (Throw e, s).
Definition bind {S A B} (m : M S A) (k : A -> M S B) : M S B :=
  fun s => match m s with
           | (Ok a, s') => k a s'
           | (Throw e, s') => (Throw e, s')
           end.
Definition get {S} : M S S := fun s => (Ok s, s).
Definition put {S} (s : S) : M S unit := fun _ => (Ok tt, s).
Definition modify {S} (f : S -> S) : M S unit := fun s => (Ok tt, f s).

(** [try { m } catch (e) { handler }]. *)
Definition try_catch {S A} (m : M S A) (handler : Exn -> M S A) : M S A :=
  fun s => match m s with
           | (Ok a, s') => (Ok a, s')
           | (Throw e, s') => handler e s'
           end.

Notation "'do' x <- m ; k" := (bind m (fun x => k))
  (at level 10, x name, m at level 100, k at level 200).
Notation "'run' m ; k" := (bind m (fun _ => k))
  (at level 10, m at level 100, k at level 200).

(** ** Loops *)

(** [while (cond) body] over a state, with the number of iterations bounded
    by [fuel]; each use passes a bound that the loop does not reach (see
    [while_terminates] and [while_unfold]). *)
Fixpoint while {S : Type} (fuel : nat) (cond : S -> bool) (body : S -> S)
    (s : S) : S :=
  match fuel with
  | O => s
  | Datatypes.S fuel' =>
      if cond s then while fuel' cond body (body s) else s
  end.

(** The same loop when the body has effects and may throw. *)
Fixpoint whileM {S : Type} (fuel : nat) (cond : S -> bool)
    (body : M S unit) : M S unit :=
  fun s =>
    match fuel with
    | O => (Ok tt, s)
    | Datatypes.S fuel' =>
        if cond s
        then match body s with
             | (Ok _, s') => whileM fuel' cond body s'
             | (Throw e, s') => (Throw e, s')
             end
        else (Ok tt, s)
    end.

(** ** Audio buffers *)

(** An [AudioBuffer]: [getChannelData c] is the [Float32Array] of channel
    [c], read by index; every channel has [buffer_length] frames. *)
Record AudioBuffer : Type := mkAudioBuffer {
  numberOfChannels : Z;
  buffer_length : Z;
  sampleRate : Z;
  getChannelData : Z -> Z -> Q
}.

(** [buffer.duration], in seconds: [length / sampleRate] as a binary64
    number. *)
Definition duration (buffer : AudioBuffer) : Q :=
  binary64 (inject_Z (buffer_length buffer) / inject_Z (sampleRate buffer)).

(** A buffer given by the lists of its channels' samples. *)
Definition bufferOfChannels (rate : Z) (channels : list (list Q)) : AudioBuffer :=
  {| numberOfChannels := Z.of_nat (List.length channels);
     buffer_length := Z.of_nat (List.length (nth 0 channels []));
     sampleRate := rate;
     getChannelData := fun c i =>
       if ((c <? 0) || (i <? 0))%Z then 0
       else nth (Z.to_nat i) (nth (Z.to_nat c) channels []) 0 |}.

(** ** The audio graph of an offline context *)

(** The automation calls made on a gain parameter. *)
Inductive AutomationEvent : Type :=
| SetValueAtTime (value time : Q)
| LinearRampToValueAtTime (value time : Q).

(** A [GainNode]: [gain.value] and the automation events of [gain], in
    the order of the calls. *)
Record GainNode : Type := mkGainNode {
  gain_value : Q;
  gain_events : list AutomationEvent
}.

(** An [AudioBufferSourceNode] with its [start] (and [stop]) time, connected
    through a gain node to the master compressor. *)
Record BufferSource : Type := mkBufferSource {
  source_buffer : AudioBuffer;
  source_start : Q;
  source_stop : option Q;
  source_gain : GainNode
}.

Record DynamicsCompressor : Type := mkCompressor {
  threshold : Q;
  knee : Q;
  ratio : Q;
  attack : Q;
  release : Q
}.

(** An [OfflineAudioContext] with everything connected to its destination. *)
Record OfflineAudioContext : Type := mkOfflineAudioContext {
  ctx_numberOfChannels : Z;
  ctx_length : Z;
  ctx_sampleRate : Z;
  ctx_compressor : DynamicsCompressor;
  ctx_sources : list BufferSource
}.

(** The value of a gain parameter at time [t] under the Web Audio automation
    rules: the value is [gain.value] until the first event; from a
    [setValueAtTime (v, T)] on it is [v]; a [linearRampToValueAtTime (v1, T1)]
    that follows an event at [(T0, v0)] gives
    [v0 + (v1 - v0) * (t - T0) / (T1 - T0)] on [T0 <= t < T1] and [v1] from
    [T1] on.  [prevT] and [prevV] are the time and value of the last event
    passed.  The events are read in the order of the calls, which is the
    order of their times whenever [fadeDuration] and the play durations are
    not negative; the platform orders them by time, so for events called
    out of time order this function is not the platform's value. *)
Fixpoint automationValue (prevT prevV : Q) (events : list AutomationEvent)
    (t : Q) : Q :=
  match events with
  | [] => prevV
  | SetValueAtTime v T :: rest =>
      if Qltb t T then prevV else automationValue T v rest t
  | LinearRampToValueAtTime v T :: rest =>
      if Qltb t T
      then prevV + (v - prevV) * ((t - prevT) / (T - prevT))
      else automationValue T v rest t
  end.

Definition gainAt (g : GainNode) (t : Q) : Q :=
  automationValue 0 (gain_value g) (gain_events g) t.

(** ** Files, tracks and the platform *)

Record File : Type := mkFile {
  file_name : string;
  file_bytes : list Z
}.

(** [AudioTrack] of [types.ts]. *)
Record AudioTrack : Type := mkAudioTrack {
  id : string;
  file : File;
  name : string;
  track_duration : Q;
  url : string
}.

(** What the browser supplies.  [decodeAudioData] is [None] when the promise
    rejects; [startRendering] gives the samples of the rendered buffer by
    channel and frame, or [None] when the context cannot be rendered. *)
Record Platform : Type := mkPlatform {
  Math_sqrt : Q -> Q;
  decodeAudioData : File -> option AudioBuffer;
  startRendering : OfflineAudioContext -> option (Z -> Z -> Q)
}.

(** ** [calculateRMS] *)

Definition calculateRMS (P : Platform) (buffer : AudioBuffer) : Q :=
  let data := getChannelData buffer 0 in
  let data_length := buffer_length buffer in
  let step := 4%Z in
  let '(_, sum) :=
    while (Z.to_nat data_length)
      (fun '(i, _) => (i <? data_length)%Z)
      (fun '(i, sum) => ((i + step)%Z, sum + data i * data i))
      (0%Z, 0) in
  Math_sqrt P (sum / (inject_Z data_length / inject_Z step)).

(** ** [DataView] *)

(** The [n] low bytes of [v], least significant first. *)
Definition littleEndian (n : nat) (v : Z) : list Z :=
  map (fun k => ((v / 256 ^ Z.of_nat k) mod 256)%Z) (seq 0 n).

Fixpoint writeBytes (view : list Z) (byteOffset : nat) (bytes : list Z)
    : list Z :=
  match bytes with
  | [] => view
  | b :: rest => writeBytes (<[byteOffset := b]> view) (S byteOffset) rest
  end.

(** A little-endian store of [n] bytes; [RangeError] when it does not fit. *)
Definition DataView_set (n : nat) (view : list Z) (byteOffset value : Z)
    : Result (list Z) :=
  if ((0 <=? byteOffset) &&
      (byteOffset + Z.of_nat n <=? Z.of_nat (List.length view)))%Z
  then Ok (writeBytes view (Z.to_nat byteOffset) (littleEndian n value))
  else Throw RangeError.

Definition DataView_setUint16 (view : list Z) (byteOffset value : Z) :=
  DataView_set 2 view byteOffset (ToUint16 value).
Definition DataView_setUint32 (view : list Z) (byteOffset value : Z) :=
  DataView_set 4 view byteOffset (ToUint32 value).
Definition DataView_setInt16 (view : list Z) (byteOffset value : Z) :=
  DataView_set 2 view byteOffset (wrap_signed 16 value).

(** Reading back, for the statements about the header. *)
Definition getUint (n : nat) (view : list Z) (byteOffset : nat) : Z :=
  fold_right (fun b acc => (b + 256 * acc)%Z) 0%Z
    (take n (drop byteOffset view)).
Definition DataView_getUint16 := getUint 2.
Definition DataView_getUint32 := getUint 4.

(** ** [bufferToWav] *)

Record Blob : Type := mkBlob {
  blob_bytes : list Z;
  blob_type : string
}.

(** The mutable locals of [bufferToWav] that its helpers and loops share. *)
Record WavWriter : Type := mkWavWriter {
  view : list Z;
  offset : Z;
  pos : Z
}.

Definition setUint16 (data : Z) : M WavWriter unit :=
  fun w =>
    match DataView_setUint16 (view w) (pos w) data with
    | Ok view' =>
        (Ok tt, {| view := view'; offset := offset w; pos := (pos w + 2)%Z |})
    | Throw e => (Throw e, w)
    end.

Definition setUint32 (data : Z) : M WavWriter unit :=
  fun w =>
    match DataView_setUint32 (view w) (pos w) data with
    | Ok view' =>
        (Ok tt, {| view := view'; offset := offset w; pos := (pos w + 4)%Z |})
    | Throw e => (Throw e, w)
    end.

(** [for (x of l) body x]. *)
Fixpoint forM {S A : Type} (l : list A) (body : A -> M S unit) : M S unit :=
  match l with
  | [] => ret tt
  | x :: rest => run body x; forM rest body
  end.

(** The clamp and the 16-bit scaling of one sample (lines 65 and 66). *)
Definition clampSample (x : Q) : Q := Math_max (-1) (Math_min 1 x).
Definition scaleSample (sample : Q) : Z :=
  ToInt32 (if Qltb (0.5 + sample) 0 then sample * 32768 else sample * 32767).
Definition quantize (x : Q) : Z := scaleSample (clampSample x).

(** One pass of the inner [for]: the sample of channel [i] at frame [pos]. *)
Definition writeSample (channels : list (Z -> Q)) (i : Z) : M WavWriter unit :=
  fun w =>
    match channels !! Z.to_nat i with
    | None => (Throw TypeError, w)
    | Some data =>
        let sample := clampSample (data (pos w)) in
        let sample := scaleSample sample in
        match DataView_setInt16 (view w) (44 + offset w) sample with
        | Ok view' =>
            (Ok tt,
             {| view := view'; offset := (offset w + 2)%Z; pos := pos w |})
        | Throw e => (Throw e, w)
        end
    end.

Definition writeFrame (channels : list (Z -> Q)) (numOfChan : Z)
    : M WavWriter unit :=
  run forM (seqZ 0 numOfChan) (writeSample channels);
  modify (fun w =>
    {| view := view w; offset := offset w; pos := (pos w + 1)%Z |}).

Definition writeHeader (buffer : AudioBuffer) (numOfChan length : Z)
    : M WavWriter unit :=
  run setUint32 0x46464952;
  run setUint32 (length - 8);
  run setUint32 0x45564157;
  run setUint32 0x20746d66;
  run setUint32 16;
  run setUint16 1;
  run setUint16 numOfChan;
  run setUint32 (sampleRate buffer);
  run setUint32 (sampleRate buffer * 2 * numOfChan);
  run setUint16 (numOfChan * 2);
  run setUint16 16;
  run setUint32 0x61746164;
  do w <- get;
  setUint32 (length - pos w - 4).

Definition bufferToWav (buffer : AudioBuffer) : Result Blob :=
  let numOfChan := numberOfChannels buffer in
  let length := (buffer_length buffer * numOfChan * 2 + 44)%Z in
  if (length <? 0)%Z then Throw RangeError
  else
    let bufferArray := replicate (Z.to_nat length) 0%Z in
    let encode : M WavWriter Blob :=
      run writeHeader buffer numOfChan length;
      let channels :=
        map (getChannelData buffer) (seqZ 0 (numberOfChannels buffer)) in
      do w <- get;
      run whileM (Z.to_nat (buffer_length buffer - pos w))
            (fun w => (pos w <? buffer_length buffer)%Z)
            (writeFrame channels numOfChan);
      do w <- get;
      ret {| blob_bytes := view w; blob_type := "audio/wav" |} in
    fst (encode {| view := bufferArray; offset := 0; pos := 0 |}).

(** ** [createDemoMix] *)

Record CreateDemoOptions : Type := mkOptions {
  tracks : list AudioTrack;
  normalize : bool;
  onProgress : bool;      (* whether a callback is supplied *)
  segmentDuration : Q;
  fadeDuration : Q;
  silenceGap : Q;
  tagFile : option File;
  tagInterval : Q
}.

(** The defaults of the destructured parameter. *)
Definition defaultOptions (tracks : list AudioTrack) : CreateDemoOptions :=
  {| tracks := tracks;
     normalize := false;
     onProgress := false;
     segmentDuration := 25;
     fadeDuration := 0.5;
     silenceGap := 0.3;
     tagFile := None;
     tagInterval := 30 |}.

Record DemoMix : Type := mkDemoMix {
  wav : Blob;
  mp3 : Blob
}.

(** The calls [createDemoMix] makes on its environment, in order. *)
Inductive Effect : Type :=
| OnProgress (percent : Z)
| NewAudioContext (rate : Z)
| DecodeAudioData (f : File)
| ConsoleError (message : string)
| ConsoleWarn (message : string)
| AudioContextClose
| NewOfflineAudioContext (channels length rate : Z)
| StartRendering.

Definition Log : Type := list Effect.

Definition emit (e : Effect) : M Log unit := modify (fun log => log ++ [e]).

(** [onProgress?.(percent)]. *)
Definition progress (opts : CreateDemoOptions) (percent : Z) : M Log unit :=
  if onProgress opts then emit (OnProgress percent) else ret tt.

Definition decodeAudio (P : Platform) (f : File) : M Log AudioBuffer :=
  run emit (DecodeAudioData f);
  match decodeAudioData P f with
  | Some buffer => ret buffer
  | None => throw PlatformError
  end.

(** [array.forEach ((x, index) => ...)] over the mutable state [S] that the
    callback closes over. *)
Fixpoint forEach_from {A S : Type} (index : nat) (l : list A)
    (callback : A -> nat -> S -> S) (s : S) : S :=
  match l with
  | [] => s
  | x :: rest => forEach_from (Datatypes.S index) rest callback (callback x index s)
  end.
Definition forEach {A S : Type} (l : list A) (callback : A -> nat -> S -> S)
    (s : S) : S :=
  forEach_from 0 l callback s.

(** [a[index]] for a read that is in range (out of range JavaScript gives
    [undefined]; the engine's reads are all in range, see
    [gainAdjustments_length] and [trackDurations_length]). *)
Definition item (a : list Q) (index : nat) : Q := nth index a 0.

(** Step 2: decode the music files, from track [i] on. *)
Fixpoint decodeTracks (P : Platform) (opts : CreateDemoOptions)
    (totalTracks : Z) (i : Z) (rest : list AudioTrack)
    (decodedBuffers : list AudioBuffer) : M Log (list AudioBuffer) :=
  match rest with
  | [] => ret decodedBuffers
  | track :: rest' =>
      do decodedBuffers' <-
        try_catch
          (run progress opts
                 (10 + Math_floor (inject_Z i / inject_Z totalTracks * 30))%Z;
           do buffer <- decodeAudio P (file track);
           ret (decodedBuffers ++ [buffer]))
          (fun e =>
             run emit (ConsoleError ("Failed to decode " ++ name track)%string);
             throw (Error ("Could not decode audio file: " ++ name track)%string));
      decodeTracks P opts totalTracks (i + 1)%Z rest' decodedBuffers'
  end.

(** Step 2.5: decode the tag file if there is one. *)
Definition decodeTag (P : Platform) (opts : CreateDemoOptions)
    : M Log (option AudioBuffer) :=
  match tagFile opts with
  | Some f =>
      try_catch
        (do buffer <- decodeAudio P f; ret (Some buffer))
        (fun e =>
           run emit (ConsoleWarn
                       "Failed to decode tag file, proceeding without tags.");
           ret None)
  | None => ret None
  end.

(** Step 3: the gain of each track. *)
Definition TARGET_RMS : Q := 0.15.

Definition gainAdjustments (P : Platform) (opts : CreateDemoOptions)
    (decodedBuffers : list AudioBuffer) : list Q :=
  let gainAdjustments := replicate (List.length decodedBuffers) 1 in
  if normalize opts then
    forEach decodedBuffers
      (fun buffer idx gainAdjustments =>
         let rms := calculateRMS P buffer in
         if Qltb 0 rms then
           let ratio := TARGET_RMS / rms in
           let ratio := Math_min (Math_max ratio 0.5) 3.0 in
           <[idx := ratio]> gainAdjustments
         else gainAdjustments)
      gainAdjustments
  else gainAdjustments.

(** Step 4: the effective timeline, [(totalOutputDuration, trackDurations)].
    The options are JavaScript numbers, [binary64] of the values given, and
    each [+=] rounds its sum. *)
Definition timeline (opts : CreateDemoOptions)
    (decodedBuffers : list AudioBuffer) : Q * list Q :=
  forEach decodedBuffers
    (fun buffer index '(totalOutputDuration, trackDurations) =>
       let playDuration :=
         Math_min (duration buffer) (binary64 (segmentDuration opts)) in
       let trackDurations := trackDurations ++ [playDuration] in
       let totalOutputDuration :=
         binary64 (totalOutputDuration + playDuration) in
       if (Z.of_nat index <? Z.of_nat (List.length decodedBuffers) - 1)%Z
       then (binary64 (totalOutputDuration + binary64 (silenceGap opts)),
             trackDurations)
       else (totalOutputDuration, trackDurations))
    (0, []).

Definition totalOutputDuration (opts : CreateDemoOptions)
    (decodedBuffers : list AudioBuffer) : Q :=
  fst (timeline opts decodedBuffers).
Definition trackDurations (opts : CreateDemoOptions)
    (decodedBuffers : list AudioBuffer) : list Q :=
  snd (timeline opts decodedBuffers).

(** Step 5a: the master chain. *)
Definition masterCompressor : DynamicsCompressor :=
  {| threshold := -20; knee := 10; ratio := 4;
     attack := 0.003; release := 0.25 |}.

(** Step 6: one source and gain node per track; the state of the loop is
    [(cursor, sources)], and [cursor += playDuration + silenceGap] rounds
    both of its sums. *)
Definition scheduleTrack (opts : CreateDemoOptions) (gains durations : list Q)
    (buffer : AudioBuffer) (index : nat) (cursor : Q) : BufferSource :=
  let gainValue := if normalize opts then item gains index else 1 in
  let playDuration := item durations index in
  let startTime := cursor in
  let endTime := startTime + playDuration in
  let fadeStartTime := Math_max startTime (endTime - fadeDuration opts) in
  let initialGain := if normalize opts then item gains index else 1.0 in
  {| source_buffer := buffer;
     source_start := startTime;
     source_stop := Some endTime;
     source_gain :=
       {| gain_value := gainValue;
          gain_events := [SetValueAtTime initialGain fadeStartTime;
                          LinearRampToValueAtTime 0 endTime] |} |}.

Definition scheduleTracks (opts : CreateDemoOptions) (gains durations : list Q)
    (decodedBuffers : list AudioBuffer) : Q * list BufferSource :=
  forEach decodedBuffers
    (fun buffer index '(cursor, sources) =>
       let source := scheduleTrack opts gains durations buffer index cursor in
       (binary64 (cursor + binary64 (item durations index
                                     + binary64 (silenceGap opts))),
        sources ++ [source]))
    (0, []).

(** Step 7: the tags; the state of the loop is [(tagCursor, sources)]. *)
Definition tagSource (tagBuffer : AudioBuffer) (tagCursor : Q) : BufferSource :=
  {| source_buffer := tagBuffer;
     source_start := tagCursor;
     source_stop := None;
     source_gain := {| gain_value := 0.4; gain_events := [] |} |}.

Definition scheduleTags (opts : CreateDemoOptions)
    (tagBuffer : option AudioBuffer) (totalOutputDuration : Q)
    : list BufferSource :=
  match tagBuffer with
  | Some tagBuffer =>
      if Qltb 0 (tagInterval opts) then
        let tagCursor := Math_min 5 (totalOutputDuration / 2) in
        snd (while
               (Z.to_nat (Qceiling ((totalOutputDuration - tagCursor)
                                    / tagInterval opts)))
               (fun '(tagCursor, _) => Qltb tagCursor totalOutputDuration)
               (fun '(tagCursor, sources) =>
                  (tagCursor + tagInterval opts,
                   sources ++ [tagSource tagBuffer tagCursor]))
               (tagCursor, []))
      else []
  | None => []
  end.

(** Steps 4 to 7 together: the context handed to the renderer. *)
Definition offlineContext (P : Platform) (opts : CreateDemoOptions)
    (decodedBuffers : list AudioBuffer) (tagBuffer : option AudioBuffer)
    : OfflineAudioContext :=
  let sampleRate := 44100%Z in
  let gains := gainAdjustments P opts decodedBuffers in
  let '(total, durations) := timeline opts decodedBuffers in
  let '(_, sources) := scheduleTracks opts gains durations decodedBuffers in
  {| ctx_numberOfChannels := 2;
     ctx_length := Math_ceil (binary64 (inject_Z sampleRate * total));
     ctx_sampleRate := sampleRate;
     ctx_compressor := masterCompressor;
     ctx_sources := sources ++ scheduleTags opts tagBuffer total |}.

(** Step 8: the buffer that [startRendering] resolves to has the shape the
    context was created with and the samples that the platform rendered. *)
Definition renderedAudioBuffer (ctx : OfflineAudioContext)
    (samples : Z -> Z -> Q) : AudioBuffer :=
  {| numberOfChannels := ctx_numberOfChannels ctx;
     buffer_length := ctx_length ctx;
     sampleRate := ctx_sampleRate ctx;
     getChannelData := samples |}.

Definition render (P : Platform) (ctx : OfflineAudioContext)
    : M Log AudioBuffer :=
  run emit StartRendering;
  match startRendering P ctx with
  | Some samples => ret (renderedAudioBuffer ctx samples)
  | None => throw PlatformError
  end.

Definition lift {S A : Type} (r : Result A) : M S A :=
  match r with
  | Ok a => ret a
  | Throw e => throw e
  end.

(** From [tempContext.close ()] to the end: steps 3 to 9 on the decoded
    buffers.  Of the calls on the platform only [decodeAudioData] and
    [startRendering] can fail here: [new OfflineAudioContext] (which the
    platform refuses for a length of 0 frames) and [start] and [stop] of a
    source (which it refuses for a negative time) always return. *)
Definition mixdown (P : Platform) (opts : CreateDemoOptions)
    (decodedBuffers : list AudioBuffer) (tagBuffer : option AudioBuffer)
    : M Log DemoMix :=
  let sampleRate := 44100%Z in
  run emit AudioContextClose;
  run progress opts 45;
  let ctx := offlineContext P opts decodedBuffers tagBuffer in
  run emit (NewOfflineAudioContext 2 (ctx_length ctx) sampleRate);
  run progress opts 60;
  do renderedBuffer <- render P ctx;
  run progress opts 80;
  run progress opts 90;
  do wavBlob <- lift (bufferToWav renderedBuffer);
  run progress opts 100;
  ret {| wav := wavBlob; mp3 := wavBlob |}.

Definition createDemoMix (P : Platform) (opts : CreateDemoOptions)
    : M Log DemoMix :=
  if (Z.of_nat (List.length (tracks opts)) =? 0)%Z then
    throw (Error "No tracks provided")
  else
    run progress opts 5;
    let sampleRate := 44100%Z in
    run emit (NewAudioContext sampleRate);
    let totalTracks := Z.of_nat (List.length (tracks opts)) in
    do decodedBuffers <- decodeTracks P opts totalTracks 0 (tracks opts) [];
    do tagBuffer <- decodeTag P opts;
    mixdown P opts decodedBuffers tagBuffer.

(** ** Reference definitions and fixtures *)

(** Following the specification's words for the loudness analyzer: the
    frames that are sampled (every 4th frame of the first channel) and
    [sqrt (mean (sample^2 over the sampled frames))]. *)
Definition sampledFrames (buffer : AudioBuffer) : list Q :=
  map (fun k => getChannelData buffer 0 (4 * Z.of_nat k)%Z)
      (seq 0 (Z.to_nat ((buffer_length buffer + 3) / 4))).

Definition sumOfSquares (l : list Q) : Q :=
  fold_left (fun sum x => sum + x * x) l 0.

Definition rmsOfSampledFrames (P : Platform) (buffer : AudioBuffer) : Q :=
  Math_sqrt P (sumOfSquares (sampledFrames buffer)
               / inject_Z (Z.of_nat (List.length (sampledFrames buffer)))).

(** Following the specification's words for the quantization: clamp to
    [-1, 1]; scale by 32768 for negative values and by 32767 for
    non-negative values, truncating toward zero. *)
Definition quantizeSpec (x : Q) : Z :=
  let sample := Math_max (-1) (Math_min 1 x) in
  truncate (if Qltb sample 0 then sample * 32768 else sample * 32767).

(** The bytes of an ASCII string. *)
Definition asciiBytes (s : string) : list Z :=
  map (fun c => Z.of_N (N_of_ascii c)) (list_ascii_of_string s).

(** The 44 bytes that the header of a WAV file of [length] bytes holds, field
    by field, as [bufferToWav] writes them. *)
Definition u16 (v : Z) : list Z := littleEndian 2 (ToUint16 v).
Definition u32 (v : Z) : list Z := littleEndian 4 (ToUint32 v).

Definition wavHeader (numOfChan sampleRate length : Z) : list Z :=
  u32 0x46464952 ++ u32 (length - 8) ++ u32 0x45564157
  ++ u32 0x20746d66 ++ u32 16 ++ u16 1 ++ u16 numOfChan
  ++ u32 sampleRate ++ u32 (sampleRate * 2 * numOfChan)
  ++ u16 (numOfChan * 2) ++ u16 16
  ++ u32 0x61746164 ++ u32 (length - 40 - 4).

(** The gain that step 3 plans for one track: [clamp (target / rms, 0.5, 3)]
    when normalizing and the measured rms is positive, 1 otherwise. *)
Definition trackGain (P : Platform) (opts : CreateDemoOptions)
    (buffer : AudioBuffer) : Q :=
  if normalize opts then
    let rms := calculateRMS P buffer in
    if Qltb 0 rms then Math_min (Math_max (TARGET_RMS / rms) 0.5) 3.0 else 1
  else 1.

(** The value of [cursor] when step 6 reaches the track at [index]. *)
Definition cursorAt (opts : CreateDemoOptions) (durations : list Q)
    (index : nat) : Q :=
  fold_left
    (fun cursor j =>
       binary64 (cursor + binary64 (item durations j
                                    + binary64 (silenceGap opts))))
    (seq 0 index) 0.

(** The sources that step 6 schedules, one per track. *)
Definition trackSources (P : Platform) (opts : CreateDemoOptions)
    (decodedBuffers : list AudioBuffer) : list BufferSource :=
  snd (scheduleTracks opts (gainAdjustments P opts decodedBuffers)
         (trackDurations opts decodedBuffers) decodedBuffers).

(** The options with the tag file left out. *)
Definition withoutTag (opts : CreateDemoOptions) : CreateDemoOptions :=
  {| tracks := tracks opts;
     normalize := normalize opts;
     onProgress := onProgress opts;
     segmentDuration := segmentDuration opts;
     fadeDuration := fadeDuration opts;
     silenceGap := silenceGap opts;
     tagFile := None;
     tagInterval := tagInterval opts |}.

(** The buffer that step 2.5 ends with. *)
Definition tagBufferOf (P : Platform) (opts : CreateDemoOptions)
    : option AudioBuffer :=
  match tagFile opts with
  | Some f => decodeAudioData P f
  | None => None
  end.

(** The sum of a list of durations, in exact arithmetic. *)
Definition sumOfDurations (durations : list Q) : Q :=
  fold_right Qplus 0 durations.

(** [approx] is [exact] up to the relative error [eps]. *)
Definition within (eps approx exact : Q) : Prop :=
  (1 - eps) * exact <= approx /\ approx <= (1 + eps) * exact.

(** One frame of the output, in seconds. *)
Definition oneFrame : Q := 1 # 44100.

(** The sum over the tracks of [min (trackDuration, segmentDuration)]. *)
Definition sumOfPlayDurations (opts : CreateDemoOptions)
    (decodedBuffers : list AudioBuffer) : Q :=
  fold_right
    (fun buffer acc => Math_min (duration buffer) (segmentDuration opts) + acc)
    0 decodedBuffers.

(** A stand-in for [Math.sqrt] that is exact to [2^-16], to run the engine
    on examples. *)
Definition fixedPointSqrt (x : Q) : Q :=
  Z.sqrt (Qfloor (x * inject_Z (2 ^ 32))) # 2 ^ 16.

(** An example platform: a file decodes to one mono channel at 44,100 Hz
    whose samples are its bytes over 100, and fails to decode when it is
    empty; rendering yields silence. *)
Definition examplePlatform : Platform :=
  {| Math_sqrt := fixedPointSqrt;
     decodeAudioData := fun f =>
       match file_bytes f with
       | [] => None
       | bytes => Some (bufferOfChannels 44100 [map (fun b => inject_Z b / 100) bytes])
       end;
     startRendering := fun _ => Some (fun _ _ => 0) |}.

Definition exampleTrack (name : string) (bytes : list Z) : AudioTrack :=
  {| id := name; file := {| file_name := name; file_bytes := bytes |};
     name := name; track_duration := 0; url := "" |}.

(** One short track and a tag file that does not decode. *)
Definition exampleOptionsWithTag : CreateDemoOptions :=
  {| tracks := [exampleTrack "a" [10; 20; 30; 40]%Z];
     normalize := false; onProgress := true;
     segmentDuration := 25; fadeDuration := 0.5; silenceGap := 0.3;
     tagFile := Some {| file_name := "tag"; file_bytes := [] |};
     tagInterval := 30 |}.

(** A buffer of [n] silent frames at 44,100 Hz with [channels] channels. *)
Definition silence (channels n : Z) : AudioBuffer :=
  {| numberOfChannels := channels; buffer_length := n; sampleRate := 44100;
     getChannelData := fun _ _ => 0 |}.

(** The bytes of the data chunk as [bufferToWav] leaves them: the samples
    of frame [p], channel by channel, and the chunk as a whole (the frames
    from 44 on, then the bytes that the loop does not reach). *)
Definition frameBytes (buffer : AudioBuffer) (p : Z) : list Z :=
  flat_map
    (fun i => littleEndian 2
                (wrap_signed 16 (quantize (getChannelData buffer i p))))
    (seqZ 0 (numberOfChannels buffer)).

Definition wavData (buffer : AudioBuffer) : list Z :=
  flat_map (frameBytes buffer) (seqZ 44 (buffer_length buffer - 44))
  ++ replicate
       (Z.to_nat (2 * numberOfChannels buffer
                  * Z.min 44 (buffer_length buffer))) 0%Z.

(** Reading a sample of the data chunk back, as a decoder of the file
    does: 16 bits, little-endian, signed. *)
Definition DataView_getInt16 (view : list Z) (byteOffset : nat) : Z :=
  wrap_signed 16 (DataView_getUint16 view byteOffset).

(** The calls that the steps of [createDemoMix] add to the log: a progress
    report (when there is a callback), the decode loop from track [i] on,
    and the decoding of the tag file. *)
Definition progressLog (opts : CreateDemoOptions) (percent : Z) : Log :=
  if onProgress opts then [OnProgress percent] else [].

Fixpoint decodeLog (opts : CreateDemoOptions) (totalTracks i : Z)
    (rest : list AudioTrack) : Log :=
  match rest with
  | [] => []
  | track :: rest' =>
      progressLog opts
        (10 + Math_floor (inject_Z i / inject_Z totalTracks * 30))%Z
      ++ DecodeAudioData (file track)
         :: decodeLog opts totalTracks (i + 1)%Z rest'
  end.

Definition tagLog (P : Platform) (opts : CreateDemoOptions) : Log :=
  match tagFile opts with
  | Some f =>
      DecodeAudioData f
      :: match decodeAudioData P f with
         | Some _ => []
         | None =>
             [ConsoleWarn "Failed to decode tag file, proceeding without tags."]
         end
  | None => []
  end.

(** From [tempContext.close ()] to the call of [startRendering]. *)
Definition scheduleLog (opts : CreateDemoOptions) (frames : Z) : Log :=
  [AudioContextClose] ++ progressLog opts 45
  ++ [NewOfflineAudioContext 2 frames 44100] ++ progressLog opts 60
  ++ [StartRendering].

(** The percentages that a log reports, in order. *)
Definition percents (log : Log) : list Z :=
  flat_map (fun e => match e with OnProgress p => [p] | _ => [] end) log.

(** ** The callers: [App.tsx] and [FileDropzone.tsx] *)

(** The state of [App] that its track and render handlers read and write,
    with the initial values of the [useState] calls. *)
Record AppState : Type := mkAppState {
  state_tracks : list AudioTrack;
  state_isProcessing : bool;
  state_progress : Z;
  state_normalize : bool;
  state_demoWav : option string;
  state_demoMp3 : option string;
  state_blobs : option DemoMix;
  state_tagFile : option File;
  state_tagInterval : Q
}.

Definition initialState : AppState :=
  {| state_tracks := []; state_isProcessing := false; state_progress := 0;
     state_normalize := true; state_demoWav := None; state_demoMp3 := None;
     state_blobs := None; state_tagFile := None; state_tagInterval := 30 |}.

Definition setTracks (f : list AudioTrack -> list AudioTrack) (st : AppState)
    : AppState :=
  {| state_tracks := f (state_tracks st);
     state_isProcessing := state_isProcessing st;
     state_progress := state_progress st;
     state_normalize := state_normalize st;
     state_demoWav := state_demoWav st; state_demoMp3 := state_demoMp3 st;
     state_blobs := state_blobs st; state_tagFile := state_tagFile st;
     state_tagInterval := state_tagInterval st |}.

Definition setIsProcessing (b : bool) (st : AppState) : AppState :=
  {| state_tracks := state_tracks st;
     state_isProcessing := b;
     state_progress := state_progress st;
     state_normalize := state_normalize st;
     state_demoWav := state_demoWav st; state_demoMp3 := state_demoMp3 st;
     state_blobs := state_blobs st; state_tagFile := state_tagFile st;
     state_tagInterval := state_tagInterval st |}.

Definition setProgress (percent : Z) (st : AppState) : AppState :=
  {| state_tracks := state_tracks st;
     state_isProcessing := state_isProcessing st;
     state_progress := percent;
     state_normalize := state_normalize st;
     state_demoWav := state_demoWav st; state_demoMp3 := state_demoMp3 st;
     state_blobs := state_blobs st; state_tagFile := state_tagFile st;
     state_tagInterval := state_tagInterval st |}.

Definition setDemoWav (v : option string) (st : AppState) : AppState :=
  {| state_tracks := state_tracks st;
     state_isProcessing := state_isProcessing st;
     state_progress := state_progress st;
     state_normalize := state_normalize st;
     state_demoWav := v; state_demoMp3 := state_demoMp3 st;
     state_blobs := state_blobs st; state_tagFile := state_tagFile st;
     state_tagInterval := state_tagInterval st |}.

Definition setDemoMp3 (v : option string) (st : AppState) : AppState :=
  {| state_tracks := state_tracks st;
     state_isProcessing := state_isProcessing st;
     state_progress := state_progress st;
     state_normalize := state_normalize st;
     state_demoWav := state_demoWav st; state_demoMp3 := v;
     state_blobs := state_blobs st; state_tagFile := state_tagFile st;
     state_tagInterval := state_tagInterval st |}.

Definition setBlobs (v : option DemoMix) (st : AppState) : AppState :=
  {| state_tracks := state_tracks st;
     state_isProcessing := state_isProcessing st;
     state_progress := state_progress st;
     state_normalize := state_normalize st;
     state_demoWav := state_demoWav st; state_demoMp3 := state_demoMp3 st;
     state_blobs := v; state_tagFile := state_tagFile st;
     state_tagInterval := state_tagInterval st |}.

(** What the browser supplies to the application: the platform of the
    engine, the MIME type of a file ([file.type]), and the values that
    [crypto.randomUUID] and [URL.createObjectURL] return at their first,
    second, ... call. *)
Record Browser : Type := mkBrowser {
  platform : Platform;
  file_type : File -> string;
  randomUUID : nat -> string;
  createObjectURL : nat -> string
}.

(** The calls of the handlers on their environment; [Engine] wraps those
    of [createDemoMix]. *)
Inductive AppEffect : Type :=
| RevokeObjectURL (url : string)
| ConsoleErrorExn (e : Exn)
| Alert (message : string)
| ShowToast (message : string)
| Engine (e : Effect).

(** The application and its environment: the state, the number of calls of
    [randomUUID] and of [createObjectURL] so far, and the log. *)
Record World : Type := mkWorld {
  state : AppState;
  uuids : nat;
  urls : nat;
  effects : list AppEffect
}.

Definition update (f : AppState -> AppState) (w : World) : World :=
  {| state := f (state w); uuids := uuids w; urls := urls w;
     effects := effects w |}.

Definition perform (e : list AppEffect) (w : World) : World :=
  {| state := state w; uuids := uuids w; urls := urls w;
     effects := effects w ++ e |}.

(** [setDemoWav (null); setDemoMp3 (null); setBlobs (null)]. *)
Definition clearDemo (st : AppState) : AppState :=
  setBlobs None (setDemoMp3 None (setDemoWav None st)).

(** [handleFilesAdded] (lines 39 to 52). *)
Definition handleFilesAdded (B : Browser) (files : list File) (w : World)
    : World :=
  let newTracks :=
    imap (fun k file =>
            {| id := randomUUID B (uuids w + k);
               file := file;
               name := file_name file;
               track_duration := 0;
               url := createObjectURL B (urls w + k) |})
         files in
  {| state := clearDemo (setTracks (fun prev => prev ++ newTracks) (state w));
     uuids := uuids w + List.length files;
     urls := urls w + List.length files;
     effects := effects w |}.

(** [handleRemoveTrack] (lines 83 to 92). *)
Definition handleRemoveTrack (id' : string) (w : World) : World :=
  let prev := state_tracks (state w) in
  let trackToRemove := List.find (fun t => String.eqb (id t) id') prev in
  let revoked :=
    match trackToRemove with
    | Some t => [RevokeObjectURL (url t)]
    | None => []
    end in
  perform revoked
    (update (fun st =>
               clearDemo
                 (setTracks
                    (List.filter (fun t => negb (String.eqb (id t) id'))) st))
       w).

(** JavaScript arrays as [moveTrack] uses them: a read out of range gives
    [undefined] ([None]); a write at or beyond the length extends the
    array, and the places in between are empty. *)
Definition array_get {A} (a : list (option A)) (i : nat) : option A :=
  match a !! i with
  | Some x => x
  | None => None
  end.

Definition array_set {A} (a : list (option A)) (i : nat) (v : option A)
    : list (option A) :=
  if (i <? List.length a)%nat then <[i := v]> a
  else a ++ replicate (i - List.length a) None ++ [v].

Inductive Direction : Type := up | down.

(** [[newTracks[index], newTracks[targetIndex]] =
     [newTracks[targetIndex], newTracks[index]]] on a copy of [tracks]. *)
Definition swapTracks (tracks : list AudioTrack) (index targetIndex : nat)
    : list (option AudioTrack) :=
  let newTracks := map Some tracks in
  let first := array_get newTracks targetIndex in
  let second := array_get newTracks index in
  let newTracks := array_set newTracks index first in
  array_set newTracks targetIndex second.

(** [moveTrack] (lines 117 to 131); [index] is an array index, as
    [TrackList] passes it.  The result is [None] when the new array holds
    [undefined], which [AppState] does not represent. *)
Definition moveTrack (index : nat) (direction : Direction) (w : World)
    : option World :=
  let tracks := state_tracks (state w) in
  if (match direction with up => (index =? 0)%nat | down => false end)
     || (match direction with
         | down => (Z.of_nat index =? Z.of_nat (List.length tracks) - 1)%Z
         | up => false
         end)
  then Some w
  else
    let targetIndex :=
      match direction with
      | up => (index - 1)%nat
      | down => (index + 1)%nat
      end in
    match mapM (fun x => x) (swapTracks tracks index targetIndex) with
    | Some newTracks =>
        Some (update (fun st => clearDemo (setTracks (fun _ => newTracks) st)) w)
    | None => None
    end.

(** [handleCreateDemo] (lines 133 to 167), with the callback that it hands
    to [setTimeout] run to its end; [createDemoMix] gets the tracks and the
    settings of the state and a progress callback, and its own defaults for
    the rest. *)
Definition demoOptions (st : AppState) : CreateDemoOptions :=
  {| tracks := state_tracks st;
     normalize := state_normalize st;
     onProgress := true;
     segmentDuration := 25;
     fadeDuration := 0.5;
     silenceGap := 0.3;
     tagFile := state_tagFile st;
     tagInterval := state_tagInterval st |}.

Definition handleCreateDemo (B : Browser) (w : World) : World :=
  let st := state w in
  if (List.length (state_tracks st) =? 0)%nat then w
  else
    let w := update (fun st => clearDemo (setProgress 0 (setIsProcessing true st)))
               w in
    let '(result, log) := createDemoMix (platform B) (demoOptions st) [] in
    let w := perform (map Engine log) w in
    let w := update (fun st => fold_left (fun st p => setProgress p st)
                                 (percents log) st) w in
    let w :=
      match result with
      | Ok mix =>
          let w :=
            {| state := setBlobs (Some {| wav := wav mix; mp3 := mp3 mix |})
                        (setDemoMp3 (Some (createObjectURL B (urls w + 1)))
                           (setDemoWav (Some (createObjectURL B (urls w)))
                              (state w)));
               uuids := uuids w;
               urls := urls w + 2;
               effects := effects w |} in
          perform [ShowToast "Demo Render Complete"] w
      | Throw e =>
          perform [ConsoleErrorExn e; Alert "Error creating demo."] w
      end in
    update (fun st => setProgress 0 (setIsProcessing false st)) w.

(** [handleDrop] and [handleFileSelect] of [FileDropzone] (lines 23 to
    45), on the list of the files of the event. *)
Definition isAudio (B : Browser) (f : File) : bool :=
  String.prefix "audio/" (file_type B f).

Definition handleDrop (B : Browser) (disabled : bool)
    (onFilesAdded : list File -> World -> World) (files : list File)
    (w : World) : World :=
  if disabled then w
  else if (0 <? List.length files)%nat then
    let validFiles := List.filter (isAudio B) files in
    if (0 <? List.length validFiles)%nat then onFilesAdded validFiles w
    else w
  else w.

Definition handleFileSelect (B : Browser)
    (onFilesAdded : list File -> World -> World) (files : list File)
    (w : World) : World :=
  if (0 <? List.length files)%nat then
    let validFiles := List.filter (isAudio B) files in
    onFilesAdded validFiles w
  else w.

(* ===================================================================== *)
(** * Part II: properties                                                *)
(* ===================================================================== *)

(** ** Numbers *)

Lemma Qltb_true (a b : Q) : Qltb a b = true <-> a < b.
Proof.
  unfold Qltb. rewrite negb_true_iff, <- not_true_iff_false, Qle_bool_iff.
  split; [apply Qnot_le_lt | apply Qlt_not_le].
Qed.

Lemma Qltb_false (a b : Q) : Qltb a b = false <-> b <= a.
Proof.
  unfold Qltb. rewrite negb_false_iff, Qle_bool_iff. reflexivity.
Qed.

Lemma Math_min_spec (a b : Q) :
  (a <= b /\ Math_min a b = a) \/ (b < a /\ Math_min a b = b).
Proof.
  unfold Math_min. destruct (Qle_bool a b) eqn:E.
  - left. split; [now apply Qle_bool_iff | reflexivity].
  - right. split; [| reflexivity].
    apply Qnot_le_lt. intro H. apply Qle_bool_iff in H. congruence.
Qed.

Lemma Math_max_spec (a b : Q) :
  (a <= b /\ Math_max a b = b) \/ (b < a /\ Math_max a b = a).
Proof.
  unfold Math_max. destruct (Qle_bool a b) eqn:E.
  - left. split; [now apply Qle_bool_iff | reflexivity].
  - right. split; [| reflexivity].
    apply Qnot_le_lt. intro H. apply Qle_bool_iff in H. congruence.
Qed.

(** Case analysis on a [Math.min] or [Math.max] of the goal. *)
Ltac minmax_cases :=
  repeat match goal with
  | |- context [Math_min ?a ?b] =>
      let H := fresh "Hmin" in
      let E := fresh "Emin" in
      destruct (Math_min_spec a b) as [[H E] | [H E]]; rewrite E in *; clear E
  | |- context [Math_max ?a ?b] =>
      let H := fresh "Hmax" in
      let E := fresh "Emax" in
      destruct (Math_max_spec a b) as [[H E] | [H E]]; rewrite E in *; clear E
  end.

Lemma Math_min_comp (a a' b b' : Q) :
  a == a' -> b == b' -> Math_min a b == Math_min a' b'.
Proof.
  intros Ha Hb.
  destruct (Math_min_spec a b) as [[H ->] | [H ->]];
    destruct (Math_min_spec a' b') as [[H' ->] | [H' ->]]; lra.
Qed.

(** ** Binary64 rounding *)

Lemma roundHalfEven_error (x : Q) :
  x - (1 # 2) <= inject_Z (roundHalfEven x) /\
  inject_Z (roundHalfEven x) <= x + (1 # 2).
Proof.
  unfold roundHalfEven.
  pose proof (Qfloor_le x) as Hlo. pose proof (Qlt_floor x) as Hhi.
  assert (inject_Z (Qfloor x + 1) == inject_Z (Qfloor x) + 1) as E
    by (rewrite inject_Z_plus; reflexivity).
  rewrite E in Hhi.
  destruct (Qcompare_spec (x - inject_Z (Qfloor x)) (1 # 2)) as [H | H | H].
  - destruct (Z.even (Qfloor x)); rewrite ?E; lra.
  - lra.
  - rewrite E. lra.
Qed.

(** [2 ^ exponent x] is a lower bound of [|x|]. *)
Lemma exponent_le (x : Q) : ~ x == 0 -> 2 ^ exponent x <= Qabs x.
Proof.
  intros Hx. unfold exponent.
  set (n := Z.abs (Qnum x)). set (d := Zpos (Qden x)).
  destruct (Qle_bool (2 ^ (Z.log2 n - Z.log2 d)) (Qabs x)) eqn:E.
  - now apply Qle_bool_iff.
  - assert (0 < n)%Z as Hn.
    { unfold n. destruct x as [[| p | p] q]; simpl; try lia.
      exfalso. apply Hx. reflexivity. }
    assert (0 < d)%Z as Hd by (unfold d; lia).
    destruct (Z.log2_spec n Hn) as [Hn1 _].
    destruct (Z.log2_spec d Hd) as [_ Hd2].
    pose proof (Z.log2_nonneg n). pose proof (Z.log2_nonneg d).
    replace (Z.log2 n - Z.log2 d - 1)%Z
      with (Z.log2 n - Z.succ (Z.log2 d))%Z by lia.
    rewrite Qpower_minus by discriminate.
    change 2 with (inject_Z 2).
    rewrite <- !Zpower_Qpower by lia.
    assert (Qabs x == inject_Z n / inject_Z d) as ->.
    { destruct x as [a q]. unfold n, d. simpl Qnum. simpl Qden.
      rewrite <- Zabs_Qabs. unfold Qeq, Qdiv, Qmult, Qinv, inject_Z. simpl.
      lia. }
    apply Qle_shift_div_r.
    + change 0 with (inject_Z 0). rewrite <- Zlt_Qlt. lia.
    + unfold Qdiv. rewrite <- Qmult_assoc.
      assert (0 < inject_Z d)
        by (change 0 with (inject_Z 0); rewrite <- Zlt_Qlt; lia).
      assert (inject_Z (2 ^ Z.log2 n) <= inject_Z n)
        by (rewrite <- Zle_Qle; lia).
      assert (inject_Z d <= inject_Z (2 ^ Z.succ (Z.log2 d)))
        by (rewrite <- Zle_Qle; lia).
      assert (0 <= inject_Z n)
        by (change 0 with (inject_Z 0); rewrite <- Zle_Qle; lia).
      assert (1 <= / inject_Z d * inject_Z (2 ^ Z.succ (Z.log2 d))).
      { rewrite Qmult_comm. apply Qle_shift_div_l; [assumption | lra]. }
      nra.
Qed.

(** Rounding moves a number by at most [2^-53] of its magnitude. *)
Lemma binary64_error (x : Q) :
  - (unitRoundoff * Qabs x) <= binary64 x - x /\
  binary64 x - x <= unitRoundoff * Qabs x.
Proof.
  unfold binary64. destruct (Qeq_bool x 0) eqn:E0.
  - apply Qeq_bool_iff in E0. pose proof (Qabs_nonneg x).
    assert (Qabs x == 0) as -> by (rewrite E0; reflexivity). lra.
  - assert (~ x == 0) as Hx by (intros H; apply Qeq_bool_iff in H; congruence).
    cbv zeta. set (e := exponent x).
    pose proof (exponent_le x Hx) as He. fold e in He.
    pose proof (roundHalfEven_error (x * 2 ^ (52 - e))) as [Hlo Hhi].
    set (r := inject_Z (roundHalfEven (x * 2 ^ (52 - e)))) in *.
    assert (0 < 2 ^ (e - 52)) as Ht by (apply Qpower_0_lt; reflexivity).
    assert (2 ^ (52 - e) * 2 ^ (e - 52) == 1) as Hst.
    { rewrite <- Qpower_plus by discriminate.
      replace (52 - e + (e - 52))%Z with 0%Z by lia. reflexivity. }
    assert (2 ^ (e - 52) == 2 ^ e * (1 # 4503599627370496)) as Ht2.
    { unfold Zminus. rewrite Qpower_plus by discriminate. reflexivity. }
    set (s := 2 ^ (52 - e)) in *. set (t := 2 ^ (e - 52)) in *.
    set (p := 2 ^ e) in *.
    assert (unitRoundoff * Qabs x >= t * (1 # 2)) as Hbound.
    { rewrite Ht2. unfold unitRoundoff. lra. }
    assert (r * t - x == (r - x * s) * t) as Hrt.
    { assert (x * s * t == x) by (rewrite <- Qmult_assoc, Hst; ring). lra. }
    split; nra.
Qed.

Lemma binary64_within (x : Q) : 0 <= x -> within unitRoundoff (binary64 x) x.
Proof.
  intros Hx. pose proof (binary64_error x) as [Hlo Hhi].
  rewrite (Qabs_pos x Hx) in Hlo, Hhi. unfold within. split; lra.
Qed.

Lemma binary64_nonneg (x : Q) : 0 <= x -> 0 <= binary64 x.
Proof.
  intros Hx. destruct (binary64_within x Hx) as [Hlo _].
  unfold unitRoundoff in Hlo. nra.
Qed.

(** Both bounds of [binary64_within], for a number below [bound]. *)
Lemma binary64_close (x bound : Q) :
  0 <= x <= bound ->
  - (unitRoundoff * bound) <= binary64 x - x <= unitRoundoff * bound.
Proof.
  intros Hx. destruct (binary64_within x (proj1 Hx)) as [Hlo Hhi].
  unfold unitRoundoff in *. split; nra.
Qed.

#[export] Instance within_Proper :
  Proper (Qeq ==> Qeq ==> Qeq ==> iff) within.
Proof.
  intros eps eps' Heps a a' Ha e e' He. unfold within.
  rewrite Heps, Ha, He. reflexivity.
Qed.

Lemma within_compat (eps eps' approx exact exact' : Q) :
  eps == eps' -> exact == exact' ->
  within eps approx exact -> within eps' approx exact'.
Proof. intros Heps He H. now rewrite <- Heps, <- He. Qed.

Lemma within_nonneg (eps approx exact : Q) :
  eps <= 1 -> 0 <= exact -> within eps approx exact -> 0 <= approx.
Proof. intros Heps Hexact [Hlo _]. nra. Qed.

Lemma within_weaken (eps eps' approx exact : Q) :
  0 <= exact -> eps <= eps' ->
  within eps approx exact -> within eps' approx exact.
Proof. intros Hexact Heps [Hlo Hhi]. split; nra. Qed.

Lemma within_exact (approx exact : Q) :
  approx == exact -> within 0 approx exact.
Proof. intros H. split; lra. Qed.

Lemma within_close (eps approx exact bound : Q) :
  0 <= eps -> 0 <= exact <= bound -> within eps approx exact ->
  - (eps * bound) <= approx - exact <= eps * bound.
Proof. intros Heps Hexact [Hlo Hhi]. split; nra. Qed.

(** A rounded sum of two approximations: the relative error grows by two
    unit roundoffs. *)
Lemma within_sum (eps s y E A : Q) :
  0 <= eps <= 1 -> 0 <= E -> 0 <= A ->
  within eps s E -> within eps y A ->
  within (eps + 2 * unitRoundoff) (binary64 (s + y)) (E + A).
Proof.
  intros Heps HE HA [Hs1 Hs2] [Hy1 Hy2].
  assert (0 <= s + y) as Hsum by nra.
  destruct (binary64_within _ Hsum) as [Hlo Hhi].
  unfold unitRoundoff in *. split; nra.
Qed.

(** ** Loops *)

Section While.
Context {S : Type} (cond : S -> bool) (body : S -> S).

Lemma while_exit (fuel : nat) (s : S) :
  cond s = false -> while fuel cond body s = s.
Proof. intros H. destruct fuel; simpl; [| rewrite H]; reflexivity. Qed.

Lemma while_step (fuel : nat) (s : S) :
  cond s = true ->
  while (Datatypes.S fuel) cond body s = while fuel cond body (body s).
Proof. intros H. simpl. now rewrite H. Qed.



(** Hence the loop satisfies the equation of [while (cond) body]. *)
Lemma while_unfold (measure : S -> nat) :
  (forall s, cond s = true -> (measure (body s) < measure s)%nat) ->
  forall fuel fuel' s,
    (measure s <= fuel)%nat -> (measure (body s) <= fuel')%nat ->
    while fuel cond body s =
    if cond s then while fuel' cond body (body s) else s.
Proof.
  intros Hdec.
  assert (Hirr : forall fuel fuel' s,
             (measure s <= fuel)%nat -> (measure s <= fuel')%nat ->
             while fuel cond body s = while fuel' cond body s).
  { induction fuel as [| fuel IH]; intros fuel' s H1 H2.
    - destruct (cond s) eqn:E.
      + specialize (Hdec s E). lia.
      + now rewrite !while_exit.
    - destruct (cond s) eqn:E.
      + destruct fuel' as [| fuel'].
        * specialize (Hdec s E). lia.
        * rewrite !while_step by assumption.
          specialize (Hdec s E). apply IH; lia.
      + now rewrite !while_exit. }
  intros fuel fuel' s H1 H2. destruct (cond s) eqn:E.
  - destruct fuel as [| fuel]; [specialize (Hdec s E); lia |].
    rewrite while_step by assumption.
    specialize (Hdec s E). apply Hirr; lia.
  - now apply while_exit.
Qed.
End While.

Section ForEach.
Context {A S : Type} (callback : A -> nat -> S -> S).

Lemma forEach_from_app (index : nat) (l1 l2 : list A) (s : S) :
  forEach_from index (l1 ++ l2) callback s =
  forEach_from (index + List.length l1) l2 callback
    (forEach_from index l1 callback s).
Proof.
  revert index s. induction l1 as [| x l1 IH]; intros index s; simpl.
  - now rewrite Nat.add_0_r.
  - rewrite IH. f_equal. lia.
Qed.

(** [forEach] with an invariant that depends on how many elements were
    visited. *)
Lemma forEach_from_invariant (Inv : nat -> S -> Prop) (l : list A) :
  forall index s,
    Inv index s ->
    (forall k x s, l !! k = Some x -> Inv (index + k)%nat s ->
                   Inv (Datatypes.S (index + k)) (callback x (index + k)%nat s)) ->
    Inv (index + List.length l)%nat (forEach_from index l callback s).
Proof.
  induction l as [| x l IH]; intros index s Hs Hstep; simpl.
  - now rewrite Nat.add_0_r.
  - replace (index + Datatypes.S (List.length l))%nat
      with (Datatypes.S index + List.length l)%nat by lia.
    apply IH.
    + specialize (Hstep 0%nat x s). rewrite Nat.add_0_r in Hstep.
      now apply Hstep.
    + intros k y s' Hk Hinv.
      replace (Datatypes.S index + k)%nat with (index + Datatypes.S k)%nat
        in * by lia.
      now apply Hstep.
Qed.
End ForEach.

(** ** The loudness analyzer *)

Section CalculateRMS.
Variable P : Platform.
Variable buffer : AudioBuffer.

Let data := getChannelData buffer 0.
Let len := buffer_length buffer.
Let cond : Z * Q -> bool := fun '(i, _) => (i <? len)%Z.
Let body : Z * Q -> Z * Q :=
  fun '(i, sum) => ((i + 4)%Z, sum + data i * data i).
(** The number of frames that the loop of [calculateRMS] visits. *)
Let visited : nat := Z.to_nat ((len + 3) / 4).

(** From frame [4 * k] on, the loop adds the squares of the remaining
    sampled frames to [sum]. *)
Lemma calculateRMS_loop (n k : nat) (sum : Q) (fuel : nat) :
  (k + n = visited)%nat -> (n <= fuel)%nat ->
  while fuel cond body ((4 * Z.of_nat k)%Z, sum) =
  ((4 * Z.of_nat visited)%Z,
   fold_left (fun sum x => sum + x * x)
     (map (fun k => data (4 * Z.of_nat k)%Z) (seq k n)) sum).
Proof.
  revert k sum fuel. induction n as [| n IH]; intros k sum fuel Hk Hfuel.
  - rewrite while_exit.
    + simpl. repeat f_equal. lia.
    + unfold cond, visited in *. apply Z.ltb_ge.
      pose proof (Z.div_mod (len + 3) 4 ltac:(lia)).
      pose proof (Z.mod_pos_bound (len + 3) 4 ltac:(lia)). lia.
  - destruct fuel as [| fuel]; [lia |].
    rewrite while_step.
    + unfold body at 2.
      replace (4 * Z.of_nat k + 4)%Z with (4 * Z.of_nat (Datatypes.S k))%Z by lia.
      rewrite IH by lia. reflexivity.
    + unfold cond, visited in *. apply Z.ltb_lt.
      pose proof (Z.div_mod (len + 3) 4 ltac:(lia)).
      pose proof (Z.mod_pos_bound (len + 3) 4 ltac:(lia)). lia.
Qed.

(** What [calculateRMS] returns, for every buffer: the sum of the squares
    of the sampled frames is divided by [length / 4], which is the number
    of sampled frames only when the length is a multiple of 4. *)
Lemma calculateRMS_eq :
  calculateRMS P buffer =
  Math_sqrt P (sumOfSquares (sampledFrames buffer)
               / (inject_Z (buffer_length buffer) / inject_Z 4)).
Proof.
  unfold calculateRMS.
  pose proof (calculateRMS_loop visited 0 0 (Z.to_nat len)) as H.
  unfold cond, body, data, len, visited in H.
  change (4 * Z.of_nat 0)%Z with 0%Z in H. cbv zeta.
  rewrite H.
  - reflexivity.
  - reflexivity.
  - fold len.
    pose proof (Z.div_mod (len + 3) 4 ltac:(lia)).
    pose proof (Z.mod_pos_bound (len + 3) 4 ltac:(lia)). lia.
Qed.

(** When the length is a positive multiple of 4 the divisor is the number
    of sampled frames, and the value under the root is their mean
    square. *)
Lemma calculateRMS_multiple_of_4 (m : Z) :
  (0 < m)%Z -> buffer_length buffer = (4 * m)%Z ->
  sumOfSquares (sampledFrames buffer)
    / (inject_Z (buffer_length buffer) / inject_Z 4)
  == sumOfSquares (sampledFrames buffer)
    / inject_Z (Z.of_nat (List.length (sampledFrames buffer))).
Proof.
  intros Hm Hlen. unfold sampledFrames.
  rewrite length_map, length_seq, Hlen.
  replace ((4 * m + 3) / 4)%Z with m.
  - rewrite Z2Nat.id by lia.
    assert (inject_Z (4 * m) / inject_Z 4 == inject_Z m) as ->; [| reflexivity].
    rewrite inject_Z_mult. field.
  - apply Z.div_unique with (r := 3%Z); lia.
Qed.
End CalculateRMS.

(** *** Claim C9 *)

(** C9, on the code: for a buffer whose length is not a multiple of 4 the
    analyzer does not return the root of the mean square of the sampled
    frames.  With the five frames [1, 0, 0, 0, 1], two frames are sampled
    and the sum of their squares is 2; [calculateRMS] divides it by
    [5 / 4] and returns [sqrt (8 / 5)], where the mean of the squares over
    the sampled frames is [2 / 2 = 1]. *)
Theorem calculateRMS_five_frames (P : Platform) :
  let buffer := bufferOfChannels 44100 [[1; 0; 0; 0; 1]] in
  sampledFrames buffer = [1; 1] /\
  calculateRMS P buffer = Math_sqrt P (8 # 5) /\
  rmsOfSampledFrames P buffer = Math_sqrt P (2 # 2) /\
  ~ (8 # 5 == 2 # 2).
Proof.
  cbv zeta. split; [reflexivity |]. split; [reflexivity |].
  split; [reflexivity |]. intros H. discriminate H.
Qed.

(** ** The gain planner *)

Section GainPlanner.
Variable P : Platform.
Variable opts : CreateDemoOptions.

Lemma trackGain_bounds (buffer : AudioBuffer) :
  normalize opts = true ->
  0.5 <= trackGain P opts buffer <= 3.0.
Proof.
  intros Hn. unfold trackGain. rewrite Hn. cbv zeta.
  destruct (Qltb 0 (calculateRMS P buffer)).
  - minmax_cases; lra.
  - lra.
Qed.

Lemma trackGain_silent (buffer : AudioBuffer) :
  calculateRMS P buffer == 0 -> trackGain P opts buffer == 1.
Proof.
  intros Hrms. unfold trackGain. destruct (normalize opts); [| reflexivity].
  cbv zeta. destruct (Qltb 0 (calculateRMS P buffer)) eqn:E; [| reflexivity].
  apply Qltb_true in E. lra.
Qed.

Lemma trackGain_off (buffer : AudioBuffer) :
  normalize opts = false -> trackGain P opts buffer = 1.
Proof. intros Hn. unfold trackGain. now rewrite Hn. Qed.

(** Step 3 leaves at every index the gain planned for that track. *)
Lemma gainAdjustments_eq (decodedBuffers : list AudioBuffer) :
  gainAdjustments P opts decodedBuffers =
  map (trackGain P opts) decodedBuffers.
Proof.
  unfold gainAdjustments. destruct (normalize opts) eqn:Hn.
  - set (n := List.length decodedBuffers).
    set (callback := fun (buffer : AudioBuffer) (idx : nat) (g : list Q) => _).
    pose proof (forEach_from_invariant callback
      (fun k g => g = map (trackGain P opts) (take k decodedBuffers)
                      ++ replicate (n - k) 1)
      decodedBuffers 0 (replicate n 1)) as H.
    unfold forEach. simpl in H. rewrite H.
    + cbn [Nat.add]. subst n. rewrite Nat.sub_diag, firstn_all.
      simpl. apply app_nil_r.
    + simpl. now rewrite ?Nat.sub_0_r.
    + intros k x g Hk ->.
      assert (k < n)%nat as Hlt by (apply lookup_lt_Some in Hk; exact Hk).
      rewrite (take_S_r _ _ _ Hk), map_app. simpl.
      replace (n - k)%nat with (Datatypes.S (n - Datatypes.S k)) by lia.
      simpl. rewrite <- app_assoc. simpl.
      assert (List.length (map (trackGain P opts) (take k decodedBuffers)) = k)
        as Hlen by (rewrite length_map, length_take; lia).
      assert (trackGain P opts x =
              if Qltb 0 (calculateRMS P x)
              then Math_min (Math_max (TARGET_RMS / calculateRMS P x) 0.5) 3.0
              else 1) as -> by (unfold trackGain; now rewrite Hn).
      unfold callback.
      destruct (Qltb 0 (calculateRMS P x)); [| reflexivity].
      rewrite insert_app_r_alt by lia.
      rewrite Hlen, Nat.sub_diag. reflexivity.
  - induction decodedBuffers as [| b l IH]; simpl; [reflexivity |].
    rewrite <- IH. unfold trackGain. now rewrite Hn.
Qed.

Lemma gainAdjustments_length (decodedBuffers : list AudioBuffer) :
  List.length (gainAdjustments P opts decodedBuffers) =
  List.length decodedBuffers.
Proof. rewrite gainAdjustments_eq. apply length_map. Qed.

Lemma item_gainAdjustments (decodedBuffers : list AudioBuffer) (k : nat)
    (buffer : AudioBuffer) :
  decodedBuffers !! k = Some buffer ->
  item (gainAdjustments P opts decodedBuffers) k = trackGain P opts buffer.
Proof.
  intros Hk. unfold item. rewrite gainAdjustments_eq.
  apply nth_lookup_Some with (d := 0).
  rewrite list_lookup_fmap, Hk. reflexivity.
Qed.
End GainPlanner.

(** ** The timeline *)

Section Timeline.
Variable opts : CreateDemoOptions.

Let playDuration (buffer : AudioBuffer) : Q :=
  Math_min (duration buffer) (binary64 (segmentDuration opts)).

Lemma sumOfPlayDurations_app (l1 l2 : list AudioBuffer) :
  sumOfPlayDurations opts (l1 ++ l2) ==
  sumOfPlayDurations opts l1 + sumOfPlayDurations opts l2.
Proof.
  induction l1 as [| b l1 IH]; simpl.
  - lra.
  - unfold sumOfPlayDurations in *. simpl. rewrite IH. lra.
Qed.

Lemma sumOfDurations_app (l1 l2 : list Q) :
  sumOfDurations (l1 ++ l2) == sumOfDurations l1 + sumOfDurations l2.
Proof.
  induction l1 as [| p l1 IH]; simpl.
  - unfold sumOfDurations. simpl. lra.
  - unfold sumOfDurations in *. simpl. rewrite IH. lra.
Qed.

Lemma sumOfDurations_nonneg (l : list Q) :
  Forall (fun p => 0 <= p) l -> 0 <= sumOfDurations l.
Proof.
  induction 1 as [| p l Hp _ IH]; unfold sumOfDurations in *; simpl; lra.
Qed.

Lemma sumOfDurations_bounds (l : list Q) (bound : Q) :
  Forall (fun p => 0 <= p <= bound) l ->
  0 <= sumOfDurations l <= inject_Z (Z.of_nat (List.length l)) * bound.
Proof.
  induction 1 as [| p l Hp _ IH].
  - unfold sumOfDurations. simpl.
    change (inject_Z (Z.of_nat 0)) with 0. lra.
  - unfold sumOfDurations in *. cbn [fold_right List.length].
    rewrite Nat2Z.inj_succ, <- Z.add_1_r, inject_Z_plus.
    change (inject_Z 1) with 1. lra.
Qed.

Lemma playDuration_bounds (buffer : AudioBuffer) :
  0 <= segmentDuration opts -> 0 <= duration buffer ->
  0 <= playDuration buffer <= binary64 (segmentDuration opts).
Proof.
  intros Hseg Hd. pose proof (binary64_nonneg _ Hseg).
  unfold playDuration. minmax_cases; lra.
Qed.

Lemma playDurations_bounds (decodedBuffers : list AudioBuffer) :
  0 <= segmentDuration opts ->
  Forall (fun buffer => 0 <= duration buffer) decodedBuffers ->
  Forall (fun p => 0 <= p <= binary64 (segmentDuration opts))
    (map playDuration decodedBuffers).
Proof.
  intros Hseg H. apply Forall_map.
  eapply Forall_impl; [exact H |]. intros buffer Hd.
  now apply playDuration_bounds.
Qed.

(** The play durations that the code holds differ from
    [min (trackDuration, segmentDuration)] by the rounding of
    [segmentDuration] only. *)
Lemma sumOfPlayDurations_close (decodedBuffers : list AudioBuffer) :
  0 <= segmentDuration opts ->
  let bound :=
    inject_Z (Z.of_nat (List.length decodedBuffers))
    * (unitRoundoff * segmentDuration opts) in
  - bound <= sumOfDurations (map playDuration decodedBuffers)
             - sumOfPlayDurations opts decodedBuffers <= bound.
Proof.
  intros Hseg.
  pose proof (binary64_close (segmentDuration opts) (segmentDuration opts)
                (conj Hseg (Qle_refl _))) as Hclose.
  induction decodedBuffers as [| b l IH].
  - unfold sumOfDurations, sumOfPlayDurations. simpl.
    change (inject_Z (Z.of_nat 0)) with 0. lra.
  - cbv zeta in *. unfold sumOfDurations, sumOfPlayDurations in *.
    cbn [map fold_right List.length].
    rewrite Nat2Z.inj_succ, <- Z.add_1_r, inject_Z_plus.
    change (inject_Z 1) with 1.
    assert (- (unitRoundoff * segmentDuration opts)
            <= playDuration b
               - Math_min (duration b) (segmentDuration opts)
            <= unitRoundoff * segmentDuration opts) as Hb.
    { unfold playDuration.
      destruct (Math_min_spec (duration b) (binary64 (segmentDuration opts)))
        as [[H1 ->] | [H1 ->]];
        destruct (Math_min_spec (duration b) (segmentDuration opts))
          as [[H2 ->] | [H2 ->]]; lra. }
    lra.
Qed.

(** Step 4 records the play duration of every track. *)
Lemma trackDurations_eq (decodedBuffers : list AudioBuffer) :
  trackDurations opts decodedBuffers = map playDuration decodedBuffers.
Proof.
  unfold trackDurations, timeline, forEach.
  set (callback := fun (buffer : AudioBuffer) (index : nat) (st : Q * list Q) => _).
  pose proof (forEach_from_invariant callback
    (fun k st => snd st = map playDuration (take k decodedBuffers))
    decodedBuffers 0 (0, [])) as H.
  cbn [Nat.add] in H. rewrite firstn_all in H. apply H.
  - reflexivity.
  - intros k x [total durations] Hk Hd. simpl in Hd.
    rewrite (take_S_r _ _ _ Hk), map_app.
    unfold callback. fold (playDuration x).
    destruct (Z.of_nat k <? _)%Z; simpl; rewrite Hd; reflexivity.
Qed.

(** Step 4, after all the tracks: the total is the sum of the play
    durations and of one gap for each track that is not the last one, up to
    the rounding of its two additions per track. *)
Lemma timeline_within (decodedBuffers : list AudioBuffer) :
  let n := Z.of_nat (List.length decodedBuffers) in
  (n <= 1000000)%Z ->
  0 <= segmentDuration opts -> 0 <= silenceGap opts ->
  Forall (fun buffer => 0 <= duration buffer) decodedBuffers ->
  within (inject_Z (4 * n) * unitRoundoff)
    (totalOutputDuration opts decodedBuffers)
    (sumOfDurations (map playDuration decodedBuffers)
     + binary64 (silenceGap opts) * inject_Z (Z.max 0 (n - 1))).
Proof.
  intros n Hn Hseg Hgap Hdur.
  pose proof (binary64_nonneg _ Hgap) as Hgap'.
  set (gaps := fun k : nat => Z.min (Z.of_nat k) (Z.max 0 (n - 1))).
  unfold totalOutputDuration, timeline, forEach.
  set (callback := fun (buffer : AudioBuffer) (index : nat) (st : Q * list Q) => _).
  pose proof (forEach_from_invariant callback
    (fun k st =>
       within (inject_Z (2 * (Z.of_nat k + gaps k)) * unitRoundoff) (fst st)
         (sumOfDurations (map playDuration (take k decodedBuffers))
          + binary64 (silenceGap opts) * inject_Z (gaps k)))
    decodedBuffers 0 (0, [])) as H.
  cbn [Nat.add] in H. rewrite firstn_all in H.
  assert (forall k : nat, 0 <= inject_Z (gaps k)) as Hgaps.
  { intros k. change 0 with (inject_Z 0). rewrite <- Zle_Qle.
    unfold gaps. lia. }
  assert (forall k : nat,
            0 <= sumOfDurations (map playDuration (take k decodedBuffers)))
    as Hsum.
  { intros k. eapply sumOfDurations_bounds, playDurations_bounds;
      [exact Hseg | apply Forall_take, Hdur]. }
  assert (within (inject_Z (2 * (Z.of_nat (List.length decodedBuffers)
                                 + gaps (List.length decodedBuffers)))
                  * unitRoundoff)
            (fst (forEach_from 0 decodedBuffers callback (0, [])))
            (sumOfDurations (map playDuration decodedBuffers)
             + binary64 (silenceGap opts)
               * inject_Z (gaps (List.length decodedBuffers)))) as Hall.
  { apply H.
    - simpl. unfold gaps.
      replace (Z.min (Z.of_nat 0) (Z.max 0 (n - 1))) with 0%Z by lia.
      unfold sumOfDurations. simpl. change (inject_Z 0) with 0.
      split; lra.
    - intros k x [total durations] Hk Hwithin. simpl in Hwithin.
      assert (Z.of_nat k < n)%Z as Hlt
        by (apply lookup_lt_Some in Hk; unfold n; lia).
      assert (0 <= duration x) as Hx
        by exact (Forall_lookup_1 _ _ _ _ Hdur Hk).
      destruct (playDuration_bounds x Hseg Hx) as [Hp _].
      pose proof (Hgaps k) as Hgk. pose proof (Hsum k) as Hsk.
      assert (0 <= inject_Z (2 * (Z.of_nat k + gaps k)) * unitRoundoff
              <= 1 - 4 * unitRoundoff) as Heps.
      { assert (inject_Z 0 <= inject_Z (2 * (Z.of_nat k + gaps k))
                <= inject_Z 4000000) as [H1 H2]
          by (rewrite <- !Zle_Qle; unfold gaps; lia).
        change (inject_Z 0) with 0 in H1.
        change (inject_Z 4000000) with 4000000 in H2.
        unfold unitRoundoff. split; lra. }
      set (eps := inject_Z (2 * (Z.of_nat k + gaps k)) * unitRoundoff) in *.
      set (E := sumOfDurations (map playDuration (take k decodedBuffers))
                + binary64 (silenceGap opts) * inject_Z (gaps k)) in *.
      assert (0 <= E) as HE by (unfold E; nra).
      assert (within (eps + 2 * unitRoundoff)
                (binary64 (total + playDuration x)) (E + playDuration x))
        as Hplay.
      { apply within_sum; try assumption.
        - unfold unitRoundoff in *. lra.
        - apply (within_weaken 0); [assumption | lra |].
          now apply within_exact. }
      rewrite (take_S_r _ _ _ Hk), map_app, sumOfDurations_app.
      assert (sumOfDurations (map playDuration [x]) == playDuration x) as ->
        by (unfold sumOfDurations; simpl; lra).
      unfold callback. fold n. fold (playDuration x).
      destruct (Z.of_nat k <? n - 1)%Z eqn:Elt; simpl.
      + apply Z.ltb_lt in Elt.
        assert (gaps (Datatypes.S k) = (gaps k + 1)%Z) as ->
          by (unfold gaps; lia).
        assert (within (eps + 2 * unitRoundoff + 2 * unitRoundoff)
                  (binary64 (binary64 (total + playDuration x)
                             + binary64 (silenceGap opts)))
                  (E + playDuration x + binary64 (silenceGap opts)))
          as Hgapped.
        { apply within_sum; try assumption.
          - unfold unitRoundoff in *. lra.
          - lra.
          - apply (within_weaken 0); [assumption | unfold unitRoundoff in *; lra |].
            now apply within_exact. }
        eapply within_compat; [| | exact Hgapped].
        * replace (2 * (Z.of_nat (Datatypes.S k) + (gaps k + 1)))%Z
            with (2 * (Z.of_nat k + gaps k) + 4)%Z by lia.
          rewrite inject_Z_plus. unfold eps. change (inject_Z 4) with 4. ring.
        * unfold E. rewrite inject_Z_plus. change (inject_Z 1) with 1. ring.
      + apply Z.ltb_ge in Elt.
        assert (gaps (Datatypes.S k) = gaps k) as ->
          by (unfold gaps; lia).
        eapply within_compat; [| | exact Hplay].
        * replace (2 * (Z.of_nat (Datatypes.S k) + gaps k))%Z
            with (2 * (Z.of_nat k + gaps k) + 2)%Z by lia.
          rewrite inject_Z_plus. unfold eps. change (inject_Z 2) with 2. ring.
        * unfold E. ring. }
  assert (gaps (List.length decodedBuffers) = Z.max 0 (n - 1)) as Hlast
    by (unfold gaps, n; lia).
  rewrite Hlast in Hall.
  eapply within_weaken; [| | exact Hall].
  - pose proof (Hsum (List.length decodedBuffers)) as Hs.
    rewrite firstn_all in Hs.
    assert (0 <= inject_Z (Z.max 0 (n - 1)))
      by (change 0 with (inject_Z 0); rewrite <- Zle_Qle; lia).
    nra.
  - assert (inject_Z (2 * (Z.of_nat (List.length decodedBuffers)
                           + Z.max 0 (n - 1))) <= inject_Z (4 * n))
      by (rewrite <- Zle_Qle; unfold n; lia).
    unfold unitRoundoff. lra.
Qed.

Lemma trackDurations_length (decodedBuffers : list AudioBuffer) :
  List.length (trackDurations opts decodedBuffers) =
  List.length decodedBuffers.
Proof. rewrite trackDurations_eq. apply length_map. Qed.

Lemma item_trackDurations (decodedBuffers : list AudioBuffer) (k : nat)
    (buffer : AudioBuffer) :
  decodedBuffers !! k = Some buffer ->
  item (trackDurations opts decodedBuffers) k =
  Math_min (duration buffer) (binary64 (segmentDuration opts)).
Proof.
  intros Hk. unfold item. rewrite trackDurations_eq.
  apply nth_lookup_Some with (d := 0).
  rewrite list_lookup_fmap, Hk. reflexivity.
Qed.

(** The rendered length in frames differs from [sampleRate * total] by
    less than one frame. *)
Lemma Math_ceil_bounds (x : Q) :
  x <= inject_Z (Math_ceil x) /\ inject_Z (Math_ceil x) < x + 1.
Proof.
  unfold Math_ceil. split; [apply Qle_ceiling |].
  pose proof (Qceiling_lt x) as H.
  assert (inject_Z (Qceiling x - 1) == inject_Z (Qceiling x) - 1) as E
    by (unfold Z.sub; rewrite inject_Z_plus; reflexivity).
  rewrite E in H. lra.
Qed.
End Timeline.

(** ** The schedule of the tracks *)

Section Schedule.
Variable opts : CreateDemoOptions.
Variables gains durations : list Q.

Lemma cursorAt_S (k : nat) :
  cursorAt opts durations (Datatypes.S k) =
  binary64 (cursorAt opts durations k
            + binary64 (item durations k + binary64 (silenceGap opts))).
Proof.
  unfold cursorAt. rewrite seq_S, fold_left_app. reflexivity.
Qed.

(** The cursor before the track at index [k]: the play durations and the
    gaps of the tracks before it, up to the rounding of the two additions
    per track. *)
Lemma cursorAt_within (k : nat) :
  (k <= List.length durations)%nat -> (Z.of_nat k <= 1000000)%Z ->
  0 <= silenceGap opts -> Forall (fun p => 0 <= p) durations ->
  within (inject_Z (2 * Z.of_nat k + 1) * unitRoundoff)
    (cursorAt opts durations k)
    (sumOfDurations (take k durations)
     + inject_Z (Z.of_nat k) * binary64 (silenceGap opts)).
Proof.
  intros Hk Hbound Hgap Hdur.
  pose proof (binary64_nonneg _ Hgap) as Hgap'.
  induction k as [| k IH].
  - unfold cursorAt, sumOfDurations. simpl.
    change (inject_Z (Z.of_nat 0)) with 0. unfold within. split; lra.
  - assert (k < List.length durations)%nat as Hlt by lia.
    destruct (lookup_lt_is_Some_2 _ _ Hlt) as [p Hp].
    assert (0 <= p) as Hp0 by exact (Forall_lookup_1 _ _ _ _ Hdur Hp).
    assert (item durations k = p) as Hitem
      by (unfold item; now apply nth_lookup_Some).
    specialize (IH ltac:(lia) ltac:(lia)).
    assert (0 <= sumOfDurations (take k durations)) as Hsum
      by (apply sumOfDurations_nonneg, Forall_take, Hdur).
    assert (0 <= inject_Z (Z.of_nat k) <= 1000000) as Hkq.
    { change 0 with (inject_Z 0). change 1000000 with (inject_Z 1000000).
      rewrite <- !Zle_Qle. lia. }
    rewrite cursorAt_S, Hitem, (take_S_r _ _ _ Hp), sumOfDurations_app.
    assert (sumOfDurations [p] == p) as ->
      by (unfold sumOfDurations; simpl; lra).
    assert (inject_Z (2 * Z.of_nat k + 1) == 2 * inject_Z (Z.of_nat k) + 1)
      as Hinj by (rewrite inject_Z_plus, inject_Z_mult; reflexivity).
    rewrite Hinj in IH.
    eapply within_compat;
      [| | apply (within_sum (inject_Z (2 * Z.of_nat k + 1) * unitRoundoff)
                   _ _ (sumOfDurations (take k durations)
                        + inject_Z (Z.of_nat k) * binary64 (silenceGap opts))
                   (p + binary64 (silenceGap opts)))].
    + rewrite Nat2Z.inj_succ, <- Z.add_1_r, Hinj.
      rewrite !inject_Z_plus, !inject_Z_mult, !inject_Z_plus.
      change (inject_Z 1) with 1. change (inject_Z 2) with 2. ring.
    + rewrite Nat2Z.inj_succ, <- Z.add_1_r, inject_Z_plus.
      change (inject_Z 1) with 1. ring.
    + rewrite Hinj. unfold unitRoundoff. split; lra.
    + nra.
    + lra.
    + rewrite Hinj. exact IH.
    + apply (within_weaken unitRoundoff); [lra | |].
      * rewrite Hinj. unfold unitRoundoff. lra.
      * apply binary64_within. lra.
Qed.

(** The cursor never goes below 0 when the durations and the gap are not
    negative. *)
Lemma cursorAt_nonneg (k : nat) :
  0 <= silenceGap opts -> Forall (fun p => 0 <= p) durations ->
  0 <= cursorAt opts durations k.
Proof.
  intros Hgap Hdur. pose proof (binary64_nonneg _ Hgap) as Hgap'.
  induction k as [| k IH]; [unfold cursorAt; simpl; lra |].
  rewrite cursorAt_S.
  assert (0 <= item durations k) as Hitem.
  { unfold item. destruct (durations !! k) as [p |] eqn:Hp.
    - rewrite (nth_lookup_Some _ _ 0 _ Hp).
      exact (Forall_lookup_1 _ _ _ _ Hdur Hp).
    - rewrite nth_overflow by (now apply lookup_ge_None). lra. }
  apply binary64_nonneg.
  assert (0 <= binary64 (item durations k + binary64 (silenceGap opts)))
    by (apply binary64_nonneg; lra).
  lra.
Qed.

(** Step 6 schedules the track at index [j] from [cursorAt j] on. *)
Lemma scheduleTracks_eq (decodedBuffers : list AudioBuffer) :
  scheduleTracks opts gains durations decodedBuffers =
  (cursorAt opts durations (List.length decodedBuffers),
   imap (fun j buffer =>
           scheduleTrack opts gains durations buffer j
             (cursorAt opts durations j))
        decodedBuffers).
Proof.
  unfold scheduleTracks, forEach.
  set (callback := fun (buffer : AudioBuffer) (index : nat)
                       (st : Q * list BufferSource) => _).
  set (f := fun (j : nat) (buffer : AudioBuffer) => _).
  pose proof (forEach_from_invariant callback
    (fun k st => st = (cursorAt opts durations k, imap f (take k decodedBuffers)))
    decodedBuffers 0 (0, [])) as H.
  cbn [Nat.add] in H. rewrite firstn_all in H. apply H.
  - reflexivity.
  - intros k x st Hk ->.
    assert (List.length (take k decodedBuffers) = k) as Hlen
      by (apply lookup_lt_Some in Hk; rewrite length_take; lia).
    rewrite (take_S_r _ _ _ Hk), imap_app, cursorAt_S. simpl.
    rewrite Hlen, Nat.add_0_r. reflexivity.
Qed.
End Schedule.

Lemma trackSources_lookup (P : Platform) (opts : CreateDemoOptions)
    (decodedBuffers : list AudioBuffer) (k : nat) :
  trackSources P opts decodedBuffers !! k =
  (fun buffer =>
     scheduleTrack opts (gainAdjustments P opts decodedBuffers)
       (trackDurations opts decodedBuffers) buffer k
       (cursorAt opts (trackDurations opts decodedBuffers) k))
  <$> decodedBuffers !! k.
Proof.
  unfold trackSources. rewrite scheduleTracks_eq. simpl.
  apply list_lookup_imap.
Qed.

Lemma offlineContext_eq (P : Platform) (opts : CreateDemoOptions)
    (decodedBuffers : list AudioBuffer) (tagBuffer : option AudioBuffer) :
  offlineContext P opts decodedBuffers tagBuffer =
  {| ctx_numberOfChannels := 2;
     ctx_length :=
       Math_ceil
         (binary64 (inject_Z 44100 * totalOutputDuration opts decodedBuffers));
     ctx_sampleRate := 44100;
     ctx_compressor := masterCompressor;
     ctx_sources :=
       trackSources P opts decodedBuffers
       ++ scheduleTags opts tagBuffer
            (totalOutputDuration opts decodedBuffers) |}.
Proof.
  unfold offlineContext, trackSources, totalOutputDuration, trackDurations.
  destruct (timeline opts decodedBuffers) as [total durs]. simpl.
  destruct (scheduleTracks opts _ durs decodedBuffers) as [cursor sources].
  reflexivity.
Qed.

(** ** The accuracy of the timeline *)

(** For at most 1000 tracks and options of at most one hour, the total of
    step 4 is the exact sum of the play durations and of the gaps up to
    [1 / 300000] s, less than a sixth of a frame at 44,100 Hz. *)
Lemma totalOutputDuration_close (opts : CreateDemoOptions)
    (decodedBuffers : list AudioBuffer) :
  (List.length decodedBuffers <= 1000)%nat ->
  0 <= segmentDuration opts <= 3600 ->
  0 <= silenceGap opts <= 3600 ->
  Forall (fun buffer => 0 <= duration buffer) decodedBuffers ->
  let n := Z.of_nat (List.length decodedBuffers) in
  let exact :=
    sumOfPlayDurations opts decodedBuffers
    + silenceGap opts * inject_Z (Z.max 0 (n - 1)) in
  let total := totalOutputDuration opts decodedBuffers in
  0 <= total <= 7210000 /\
  - (1 # 300000) <= total - exact <= 1 # 300000.
Proof.
  intros Hn [Hseg HsegB] [Hgap HgapB] Hdur n exact total.
  pose proof (timeline_within opts decodedBuffers ltac:(lia) Hseg Hgap Hdur)
    as Hwithin.
  pose proof (sumOfPlayDurations_close opts decodedBuffers Hseg) as Hclose.
  pose proof (binary64_close (silenceGap opts) 3600 (conj Hgap HgapB)) as Hg.
  pose proof (binary64_close (segmentDuration opts) 3600 (conj Hseg HsegB))
    as Hs.
  pose proof (sumOfDurations_bounds _ _
                (playDurations_bounds opts decodedBuffers Hseg Hdur)) as Hsum.
  rewrite length_map in Hsum.
  cbv zeta in Hwithin, Hclose. fold n in Hwithin, Hclose, Hsum.
  fold total in Hwithin.
  assert (0 <= inject_Z n <= 1000) as HN.
  { change 0 with (inject_Z 0). change 1000 with (inject_Z 1000).
    rewrite <- !Zle_Qle. unfold n. lia. }
  assert (0 <= inject_Z (Z.max 0 (n - 1)) <= 1000) as HM.
  { change 0 with (inject_Z 0). change 1000 with (inject_Z 1000).
    rewrite <- !Zle_Qle. unfold n. lia. }
  assert (inject_Z (4 * n) == 4 * inject_Z n) as Hinj
    by (rewrite inject_Z_mult; reflexivity).
  rewrite Hinj in Hwithin.
  unfold exact.
  set (N := inject_Z n) in *. set (M := inject_Z (Z.max 0 (n - 1))) in *.
  set (S64 := sumOfDurations _) in *.
  set (Sx := sumOfPlayDurations opts decodedBuffers) in *.
  set (g' := binary64 (silenceGap opts)) in *.
  set (s' := binary64 (segmentDuration opts)) in *.
  set (g := silenceGap opts) in *. set (s := segmentDuration opts) in *.
  unfold unitRoundoff in *.
  pose proof (binary64_nonneg _ Hgap) as Hg0.
  pose proof (binary64_nonneg _ Hseg) as Hs0.
  fold g' in Hg0. fold s' in Hs0.
  assert (0 <= g' <= 3601) as Hg' by lra.
  assert (0 <= s' <= 3601) as Hs' by lra.
  assert (N * s' <= 3601000) as HNs by nra.
  assert (0 <= g' * M <= 3601000) as HgM by nra.
  assert (N * ((1 # 9007199254740992) * s) <= 1 # 2000000000) as HNus by nra.
  assert (- (1 # 2000000000) <= g' * M - g * M <= 1 # 2000000000) as HgM'
    by nra.
  assert (0 <= S64 + g' * M <= 7202000) as HT by lra.
  assert (0 <= 4 * N * (1 # 9007199254740992)) as Heps0 by lra.
  pose proof (within_close _ _ _ _ Heps0 HT Hwithin) as Hclose'.
  assert (4 * N * (1 # 9007199254740992) * 7202000 <= 1 # 310000)
    as Heps by lra.
  assert (0 <= total) as Htotal.
  { eapply within_nonneg; [| exact (proj1 HT) | exact Hwithin]. lra. }
  split; split; lra.
Qed.

(** Rounding to whole frames moves two lengths that are at most one frame
    apart to counts that are at most one frame apart. *)
Lemma Math_ceil_close (x y : Q) :
  - 1 <= y - x <= 1 -> (Z.abs (Math_ceil y - Math_ceil x) <= 1)%Z.
Proof.
  intros H.
  pose proof (Math_ceil_bounds x) as [Hx1 Hx2].
  pose proof (Math_ceil_bounds y) as [Hy1 Hy2].
  assert (inject_Z (Math_ceil y) < inject_Z (Math_ceil x + 2)) as H1
    by (rewrite inject_Z_plus; change (inject_Z 2) with 2; lra).
  assert (inject_Z (Math_ceil x) < inject_Z (Math_ceil y + 2)) as H2
    by (rewrite inject_Z_plus; change (inject_Z 2) with 2; lra).
  rewrite <- Zlt_Qlt in H1, H2. lia.
Qed.

(** The frames of the offline context, for a total as in
    [totalOutputDuration_close]. *)
Lemma frames_close (total : Q) :
  0 <= total <= 7210000 ->
  - (1 # 10000) <= binary64 (inject_Z 44100 * total) - 44100 * total
  <= 1 # 10000.
Proof.
  intros Htotal. change (inject_Z 44100) with 44100.
  pose proof (binary64_close (44100 * total) 317961000000
                ltac:(lra)) as H.
  unfold unitRoundoff in H. lra.
Qed.

(** *** Claim C1 *)

(** C1: for a non-empty list of decoded tracks, the total output duration
    that the scheduler computes is, within one sample frame ([1 / 44100] s),
    the sum over the tracks of [min (trackDuration, segmentDuration)] plus
    [silenceGap] times [trackCount - 1] (one gap after every track but the
    last); and the rendered length is within one frame of the frames of
    that sum at 44,100 Hz.  The total is a sum of binary64 numbers, so it
    is not always that sum itself ([totalOutputDuration_two_tracks]
    below).  The bound is proved for at most 1000 tracks and for a segment
    duration and a gap between 0 and one hour.  The defaults are
    [segmentDuration = 25] and [silenceGap = 0.3]. *)
Theorem totalOutputDuration_formula (P : Platform) (opts : CreateDemoOptions)
    (decodedBuffers : list AudioBuffer) (tagBuffer : option AudioBuffer) :
  decodedBuffers <> [] ->
  (List.length decodedBuffers <= 1000)%nat ->
  0 <= segmentDuration opts <= 3600 ->
  0 <= silenceGap opts <= 3600 ->
  Forall (fun buffer => 0 <= duration buffer) decodedBuffers ->
  let n := Z.of_nat (List.length decodedBuffers) in
  let exact :=
    sumOfPlayDurations opts decodedBuffers
    + silenceGap opts * inject_Z (n - 1) in
  let total := totalOutputDuration opts decodedBuffers in
  let frames := ctx_length (offlineContext P opts decodedBuffers tagBuffer) in
  Qabs (total - exact) <= oneFrame /\
  (Z.abs (frames - Math_ceil (inject_Z 44100 * exact)) <= 1)%Z.
Proof.
  intros Hne Hn Hseg Hgap Hdur n exact total frames.
  pose proof (totalOutputDuration_close opts decodedBuffers Hn Hseg Hgap Hdur)
    as [Htotal Hclose].
  replace (Z.max 0 (Z.of_nat (List.length decodedBuffers) - 1)) with (n - 1)%Z
    in Hclose
    by (unfold n; destruct decodedBuffers;
        [congruence | simpl List.length; lia]).
  fold exact total in Hclose. fold total in Htotal.
  split.
  - apply Qabs_Qle_condition. unfold oneFrame. split; lra.
  - unfold frames. rewrite offlineContext_eq. simpl ctx_length. fold total.
    apply Math_ceil_close.
    pose proof (frames_close total Htotal) as Hframes.
    change (inject_Z 44100) with 44100 in *. split; lra.
Qed.

Lemma totalOutputDuration_formula_witness :
  let decodedBuffers := [silence 2 441000; silence 1 4410000; silence 2 44100] in
  let exact :=
    sumOfPlayDurations (defaultOptions []) decodedBuffers
    + 0.3 * inject_Z (3 - 1) in
  Qabs (totalOutputDuration (defaultOptions []) decodedBuffers - exact)
  <= oneFrame.
Proof.
  refine (proj1 (totalOutputDuration_formula examplePlatform (defaultOptions [])
                   [silence 2 441000; silence 1 4410000; silence 2 44100] None
                   _ _ _ _ _)).
  - discriminate.
  - simpl. lia.
  - split; vm_compute; discriminate.
  - split; vm_compute; discriminate.
  - repeat constructor; vm_compute; discriminate.
Defined.

(** On those three tracks (10 s, 100 s and 1 s) with the defaults:
    [10 + 25 + 1] seconds of audio and two gaps of 0.3 s.  The sum is 36.6;
    the total that the code holds is the binary64 number below it,
    36.599999999999994, and the rendered length is 1,614,060 frames. *)
Example totalOutputDuration_three_tracks :
  let decodedBuffers := [silence 2 441000; silence 1 4410000; silence 2 44100] in
  sumOfPlayDurations (defaultOptions []) decodedBuffers == 36 /\
  totalOutputDuration (defaultOptions []) decodedBuffers
  == 5150992073805004 # 140737488355328 /\
  ctx_length (offlineContext examplePlatform (defaultOptions [])
                decodedBuffers None) = 1614060%Z.
Proof. vm_compute. repeat split. Qed.

(** The same on a single 10 s track with the defaults: 10 s, no trailing
    gap. *)
Example totalOutputDuration_single_track :
  totalOutputDuration (defaultOptions []) [silence 2 441000] == 10.
Proof. reflexivity. Qed.

(** A track of 1 s and one of 7 s with the defaults: the sum is 8.3 s,
    366,030 frames; the total that the code holds is the binary64 number
    above 8.3, and the rendered length is 366,031 frames. *)
Example totalOutputDuration_two_tracks :
  let decodedBuffers := [silence 2 44100; silence 2 308700] in
  let exact := sumOfPlayDurations (defaultOptions []) decodedBuffers + 0.3 in
  exact == 8.3 /\
  Math_ceil (inject_Z 44100 * exact) = 366030%Z /\
  totalOutputDuration (defaultOptions []) decodedBuffers
  == 4672484613396890 # 562949953421312 /\
  ctx_length (offlineContext examplePlatform (defaultOptions [])
                decodedBuffers None) = 366031%Z.
Proof. vm_compute. repeat split. Qed.

(** Two tracks of 366,030 and 282,240 frames (8.3 s and 6.4 s): the total
    that the code holds is 15.000000000000002, and the rendered length is
    661,501 frames; a single track of 13 frames renders to 14 frames. *)
Example rendered_length_rounds_up :
  totalOutputDuration (defaultOptions [])
    [silence 2 366030; silence 2 282240]
  == 8444249301319681 # 562949953421312 /\
  ctx_length (offlineContext examplePlatform (defaultOptions [])
                [silence 2 366030; silence 2 282240] None) = 661501%Z /\
  ctx_length (offlineContext examplePlatform (defaultOptions [])
                [silence 2 13] None) = 14%Z.
Proof. vm_compute. repeat split. Qed.

(** *** Claim C4 *)

(** C4: track by track, the gain multiplier that step 3 computes lies in
    [[0.5, 3.0]] when normalization is enabled, and is 1 for a track whose
    measured rms is 0; when normalization is disabled it is 1 whatever the
    loudness.  That multiplier is the gain the track is scheduled with: the
    value of its gain node and the value its fade starts from. *)
Theorem gain_multiplier_bounds (P : Platform) (opts : CreateDemoOptions)
    (decodedBuffers : list AudioBuffer) :
  Forall2
    (fun buffer gain =>
       if normalize opts
       then (0.5 <= gain /\ gain <= 3.0) /\
            (calculateRMS P buffer == 0 -> gain == 1)
       else gain == 1)
    decodedBuffers (gainAdjustments P opts decodedBuffers) /\
  Forall2
    (fun gain source =>
       gain_value (source_gain source) == gain /\
       exists initialGain fadeStartTime endTime,
         gain_events (source_gain source) =
           [SetValueAtTime initialGain fadeStartTime;
            LinearRampToValueAtTime 0 endTime] /\
         initialGain == gain)
    (gainAdjustments P opts decodedBuffers)
    (trackSources P opts decodedBuffers).
Proof.
  split.
  - rewrite gainAdjustments_eq.
    induction decodedBuffers as [| b l IH]; simpl; constructor; [| exact IH].
    destruct (normalize opts) eqn:Hn.
    + split; [apply trackGain_bounds, Hn | apply trackGain_silent].
    + now rewrite trackGain_off.
  - apply Forall2_same_length_lookup. split.
    + unfold trackSources. rewrite scheduleTracks_eq. simpl.
      now rewrite length_imap, gainAdjustments_length.
    + intros k gain source Hgain Hsource.
      rewrite trackSources_lookup in Hsource.
      destruct (decodedBuffers !! k) as [buffer |] eqn:Hk; [| discriminate].
      simpl in Hsource. injection Hsource as <-.
      pose proof (item_gainAdjustments P opts decodedBuffers k buffer Hk) as Hitem.
      assert (gain = trackGain P opts buffer) as ->.
      { rewrite gainAdjustments_eq, list_lookup_fmap, Hk in Hgain.
        simpl in Hgain. congruence. }
      unfold scheduleTrack. simpl. rewrite Hitem.
      destruct (normalize opts) eqn:Hn.
      * split; [reflexivity |]. do 3 eexists. split; reflexivity.
      * rewrite trackGain_off by exact Hn.
        split; [reflexivity |]. do 3 eexists. split; reflexivity.
Qed.

(** On three example tracks: a loud one (gain clamped to 0.5), a silent
    one (gain 1) and a quiet one (gain 1.2, inside the range). *)
Example gainAdjustments_example :
  Forall2 Qeq
    (gainAdjustments examplePlatform
       {| tracks := []; normalize := true; onProgress := false;
          segmentDuration := 25; fadeDuration := 0.5; silenceGap := 0.3;
          tagFile := None; tagInterval := 30 |}
       [bufferOfChannels 44100 [[1; 0; 0; 0; 1]];
        silence 1 8;
        bufferOfChannels 44100 [[1 # 8; 0; 0; 0]]])
    [0.5; 1; 1.2].
Proof. repeat constructor. Qed.

(** ** The fade envelope *)

(** The gain of a track scheduled at [cursor], as a function of time. *)
Lemma gainAt_scheduleTrack (opts : CreateDemoOptions) (gains durations : list Q)
    (buffer : AudioBuffer) (index : nat) (cursor t : Q) :
  let source := scheduleTrack opts gains durations buffer index cursor in
  let gain := gain_value (source_gain source) in
  let endTime := cursor + item durations index in
  let fadeStart := Math_max cursor (endTime - fadeDuration opts) in
  gainAt (source_gain source) t ==
  if Qltb t fadeStart then gain
  else if Qltb t endTime
       then gain + (0 - gain) * ((t - fadeStart) / (endTime - fadeStart))
       else 0.
Proof.
  unfold scheduleTrack, gainAt. simpl.
  destruct (Qltb t _); [reflexivity |].
  destruct (Qltb t _); [| reflexivity].
  destruct (normalize opts); [reflexivity |].
  set (fs := Math_max _ _). set (d := (t - fs) / _).
  change 1.0 with (10 # 10). lra.
Qed.

(** *** Claim C6 *)

(** C6: for every scheduled track, with window [[start, end]] and gain [g]:
    the fade starts at [fadeStart = max (start, end - fadeDuration)], which
    is not before [start] (nor after [end]); the gain envelope is [g] before
    [fadeStart], so from the window start to [fadeStart]; from [fadeStart]
    to [end] it is the linear ramp from [g] to 0; and it is 0 at [end] (and
    after).  Durations are taken non-negative. *)
Theorem fade_envelope (P : Platform) (opts : CreateDemoOptions)
    (decodedBuffers : list AudioBuffer) (k : nat) (source : BufferSource) :
  0 <= fadeDuration opts ->
  0 <= segmentDuration opts ->
  Forall (fun buffer => 0 <= duration buffer) decodedBuffers ->
  trackSources P opts decodedBuffers !! k = Some source ->
  exists windowEnd fadeStart : Q,
    source_stop source = Some windowEnd /\
    gain_events (source_gain source) =
      [SetValueAtTime (if normalize opts
                       then item (gainAdjustments P opts decodedBuffers) k
                       else 1.0) fadeStart;
       LinearRampToValueAtTime 0 windowEnd] /\
    let windowStart := source_start source in
    let gain := gain_value (source_gain source) in
    fadeStart = Math_max windowStart (windowEnd - fadeDuration opts) /\
    windowStart <= fadeStart /\ fadeStart <= windowEnd /\
    (forall t, t < fadeStart -> gainAt (source_gain source) t == gain) /\
    (forall t, fadeStart <= t -> t < windowEnd ->
       gainAt (source_gain source) t ==
       gain + (0 - gain) * ((t - fadeStart) / (windowEnd - fadeStart))) /\
    (forall t, windowEnd <= t -> gainAt (source_gain source) t == 0).
Proof.
  intros Hfade Hseg Hdur Hsource.
  rewrite trackSources_lookup in Hsource.
  destruct (decodedBuffers !! k) as [buffer |] eqn:Hk; [| discriminate].
  simpl in Hsource. injection Hsource as <-.
  set (durations := trackDurations opts decodedBuffers).
  set (gains := gainAdjustments P opts decodedBuffers).
  set (cursor := cursorAt opts durations k).
  assert (0 <= item durations k) as Hplay.
  { unfold durations. rewrite (item_trackDurations opts decodedBuffers k buffer Hk).
    rewrite Forall_forall in Hdur.
    assert (0 <= duration buffer)
      by (apply Hdur; eapply list_elem_of_lookup_2; eauto).
    pose proof (binary64_nonneg _ Hseg). minmax_cases; lra. }
  exists (cursor + item durations k),
         (Math_max cursor (cursor + item durations k - fadeDuration opts)).
  split; [reflexivity |]. split; [reflexivity |].
  cbv zeta. split; [reflexivity |].
  assert (cursor <= Math_max cursor (cursor + item durations k - fadeDuration opts)
          /\ Math_max cursor (cursor + item durations k - fadeDuration opts)
             <= cursor + item durations k) as [Hlo Hhi]
    by (minmax_cases; lra).
  split; [exact Hlo |]. split; [exact Hhi |].
  pose proof (gainAt_scheduleTrack opts gains durations buffer k cursor) as Hgain.
  cbv zeta in Hgain.
  repeat split; intros t; intros; rewrite Hgain.
  - rewrite (proj2 (Qltb_true t _)) by assumption. reflexivity.
  - rewrite (proj2 (Qltb_false t _)) by assumption.
    rewrite (proj2 (Qltb_true t _)) by assumption. reflexivity.
  - rewrite (proj2 (Qltb_false t _)) by lra.
    rewrite (proj2 (Qltb_false t _)) by assumption. reflexivity.
Qed.

(** On a single 10 s track with the defaults (window [[0, 10]], gain 1, fade
    from 9.5 s): the gain is 1 at 5 s, 1/2 at 9.75 s and 0 at 10 s. *)
Lemma fade_envelope_witness :
  exists source,
    trackSources examplePlatform (defaultOptions []) [silence 2 441000] !! 0%nat
    = Some source /\
    gainAt (source_gain source) 5 == 1 /\
    gainAt (source_gain source) (39 # 4) == 1 # 2 /\
    gainAt (source_gain source) 10 == 0.
Proof.
  set (opts := defaultOptions []).
  set (buffers := [silence 2 441000]).
  exists (scheduleTrack opts (gainAdjustments examplePlatform opts buffers)
            (trackDurations opts buffers) (silence 2 441000) 0 0).
  split; [reflexivity |].
  destruct (fade_envelope examplePlatform opts buffers 0 _
              ltac:(vm_compute; discriminate) ltac:(vm_compute; discriminate)
              ltac:(repeat constructor; vm_compute; discriminate) eq_refl)
    as (windowEnd & fadeStart & Hstop & _ & Hfade & _ & _ & Hconst & Hramp & Hend).
  cbv zeta in *. injection Hstop as <-. subst fadeStart.
  split; [| split].
  - rewrite Hconst; [reflexivity | vm_compute; reflexivity].
  - rewrite Hramp; [reflexivity | vm_compute; discriminate | vm_compute; reflexivity].
  - rewrite Hend; [reflexivity | vm_compute; discriminate].
Defined.

(** ** The watermark schedule *)


Section Watermark.
Variable opts : CreateDemoOptions.
Variable tagBuffer : AudioBuffer.
Variable total : Q.
Hypothesis interval_pos : 0 < tagInterval opts.

Let first := Math_min 5 (total / 2).
Let cond : Q * list BufferSource -> bool :=
  fun '(tagCursor, _) => Qltb tagCursor total.
Let body : Q * list BufferSource -> Q * list BufferSource :=
  fun '(tagCursor, sources) =>
    (tagCursor + tagInterval opts, sources ++ [tagSource tagBuffer tagCursor]).


(** What holds of the cursor and of the sources scheduled so far. *)
Let Inv (s : Q * list BufferSource) : Prop :=
  fst s == first + inject_Z (Z.of_nat (List.length (snd s))) * tagInterval opts /\
  forall k source, snd s !! k = Some source ->
    source = tagSource tagBuffer (source_start source) /\
    source_start source == first + inject_Z (Z.of_nat k) * tagInterval opts /\
    source_start source < total.





End Watermark.

(** *** Claim C5 *)



(** The watermark sources join the sources of the tracks in the one graph
    that is rendered, with the total duration of step 4. *)
Lemma watermark_sources_in_context (P : Platform) (opts : CreateDemoOptions)
    (decodedBuffers : list AudioBuffer) (tagBuffer : option AudioBuffer) :
  ctx_sources (offlineContext P opts decodedBuffers tagBuffer) =
  trackSources P opts decodedBuffers
  ++ scheduleTags opts tagBuffer (totalOutputDuration opts decodedBuffers).
Proof. now rewrite offlineContext_eq. Qed.

(** The same by running step 7. *)
Example scheduleTags_90 :
  map source_start (scheduleTags (defaultOptions []) (Some (silence 1 44100)) 90)
  = [5; 35; 65].
Proof. reflexivity. Qed.

(** Without a watermark buffer, or with an interval that is not positive,
    nothing is scheduled. *)
Lemma scheduleTags_none (opts : CreateDemoOptions) (total : Q) :
  scheduleTags opts None total = [].
Proof. reflexivity. Qed.

Lemma scheduleTags_no_interval (opts : CreateDemoOptions)
    (tagBuffer : option AudioBuffer) (total : Q) :
  tagInterval opts <= 0 -> scheduleTags opts tagBuffer total = [].
Proof.
  intros H. unfold scheduleTags. destruct tagBuffer; [| reflexivity].
  now rewrite (proj2 (Qltb_false 0 (tagInterval opts)) H).
Qed.

(** ** The monad *)

Lemma bind_Ok {S A B} (m : M S A) (k : A -> M S B) (s s' : S) (a : A) :
  m s = (Ok a, s') -> bind m k s = k a s'.
Proof. intros H. unfold bind. now rewrite H. Qed.

Lemma bind_Throw {S A B} (m : M S A) (k : A -> M S B) (s s' : S) (e : Exn) :
  m s = (Throw e, s') -> bind m k s = (Throw e, s').
Proof. intros H. unfold bind. now rewrite H. Qed.

(** A [bind] that returns went through both of its parts. *)
Lemma bind_Ok_inv {S A B} (m : M S A) (k : A -> M S B) (s s' : S) (b : B) :
  bind m k s = (Ok b, s') ->
  exists a s1, m s = (Ok a, s1) /\ k a s1 = (Ok b, s').
Proof.
  unfold bind. destruct (m s) as [[a | e] s1]; intros H.
  - now exists a, s1.
  - discriminate H.
Qed.

(** Total correctness of a loop: when the body keeps an invariant, does not
    throw under it and decreases a measure, a fuel of at least the measure
    runs the loop to the point where its condition is false, without
    throwing. *)
Lemma whileM_total {S} (cond : S -> bool) (body : M S unit)
    (Inv : S -> Prop) (measure : S -> nat) :
  (forall s, Inv s -> cond s = true ->
             exists s', body s = (Ok tt, s') /\ Inv s' /\
                        (measure s' < measure s)%nat) ->
  forall fuel s, Inv s -> (measure s <= fuel)%nat ->
    exists s', whileM fuel cond body s = (Ok tt, s') /\ Inv s' /\
               cond s' = false.
Proof.
  intros Hbody fuel. induction fuel as [| fuel IH]; intros s Hs Hfuel; simpl.
  - exists s. repeat split; [exact Hs |].
    destruct (cond s) eqn:E; [| reflexivity].
    destruct (Hbody s Hs E) as (s1 & _ & _ & Hlt). lia.
  - destruct (cond s) eqn:E; [| now exists s].
    destruct (Hbody s Hs E) as (s1 & -> & Hs1 & Hlt). apply IH; [exact Hs1 | lia].
Qed.

(** [forM] with an invariant that counts the elements visited. *)
Lemma forM_invariant {S A} (body : A -> M S unit) (Inv : nat -> S -> Prop)
    (l : list A) :
  forall index s,
    Inv index s ->
    (forall k x s, l !! k = Some x -> Inv (index + k)%nat s ->
       exists s', body x s = (Ok tt, s') /\ Inv (Datatypes.S (index + k)) s') ->
    exists s', forM l body s = (Ok tt, s') /\
               Inv (index + List.length l)%nat s'.
Proof.
  induction l as [| x l IH]; intros index s Hs Hstep; simpl.
  - exists s. now rewrite Nat.add_0_r.
  - destruct (Hstep 0%nat x s eq_refl) as (s1 & Hx & Hs1);
      [now rewrite Nat.add_0_r |].
    rewrite Nat.add_0_r in Hs1.
    rewrite (bind_Ok _ _ _ _ _ Hx).
    replace (index + Datatypes.S (List.length l))%nat
      with (Datatypes.S index + List.length l)%nat by lia.
    apply IH; [exact Hs1 |].
    intros k y s' Hk Hinv.
    replace (Datatypes.S index + k)%nat with (index + Datatypes.S k)%nat
      in * by lia.
    now apply Hstep.
Qed.

(** ** [DataView] *)

Lemma length_littleEndian (n : nat) (v : Z) :
  List.length (littleEndian n v) = n.
Proof. unfold littleEndian. now rewrite length_map, length_seq. Qed.

Lemma length_u16 (v : Z) : List.length (u16 v) = 2%nat.
Proof. apply length_littleEndian. Qed.

Lemma length_u32 (v : Z) : List.length (u32 v) = 4%nat.
Proof. apply length_littleEndian. Qed.

Lemma length_writeBytes (bytes view : list Z) (byteOffset : nat) :
  List.length (writeBytes view byteOffset bytes) = List.length view.
Proof.
  revert view byteOffset. induction bytes as [| b bytes IH]; intros; simpl.
  - reflexivity.
  - now rewrite IH, length_insert.
Qed.

(** Bytes written at the end of [written] replace what follows it. *)
Lemma writeBytes_app (bytes written rest : list Z) :
  (List.length bytes <= List.length rest)%nat ->
  writeBytes (written ++ rest) (List.length written) bytes =
  written ++ bytes ++ drop (List.length bytes) rest.
Proof.
  revert written rest. induction bytes as [| b bytes IH]; intros written rest Hlen.
  - reflexivity.
  - destruct rest as [| r rest]; [simpl in Hlen; lia |].
    simpl in *. rewrite insert_app_r_alt by lia.
    rewrite Nat.sub_diag. simpl.
    replace (written ++ b :: rest) with ((written ++ [b]) ++ rest)
      by now rewrite <- app_assoc.
    replace (Datatypes.S (List.length written))
      with (List.length (written ++ [b])) by (rewrite length_app; simpl; lia).
    rewrite IH by lia. now rewrite <- app_assoc.
Qed.

(** Bytes written past a prefix leave the prefix as it is. *)
Lemma take_writeBytes (bytes view : list Z) (byteOffset n : nat) :
  (n <= byteOffset)%nat ->
  take n (writeBytes view byteOffset bytes) = take n view.
Proof.
  revert view byteOffset. induction bytes as [| b bytes IH]; intros; simpl.
  - reflexivity.
  - rewrite IH by lia. apply take_insert_ge. lia.
Qed.

Lemma DataView_set_append (n m : nat) (written : list Z) (v : Z) :
  DataView_set n (written ++ replicate (n + m) 0%Z)
    (Z.of_nat (List.length written)) v
  = Ok ((written ++ littleEndian n v) ++ replicate m 0%Z).
Proof.
  unfold DataView_set.
  rewrite length_app, length_replicate.
  replace ((0 <=? Z.of_nat (List.length written)) &&
           (Z.of_nat (List.length written) + Z.of_nat n
            <=? Z.of_nat (List.length written + (n + m))))%Z with true
    by (symmetry; apply andb_true_iff; split; apply Z.leb_le; lia).
  rewrite Nat2Z.id, writeBytes_app
    by (rewrite length_littleEndian, length_replicate; lia).
  rewrite length_littleEndian, drop_replicate.
  replace (n + m - n)%nat with m by lia.
  now rewrite app_assoc.
Qed.

(** *** The writer of the header *)

Lemma setUint32_append (written : list Z) (m : nat) (data : Z) (w : WavWriter) :
  view w = written ++ replicate (4 + m) 0%Z ->
  pos w = Z.of_nat (List.length written) ->
  setUint32 data w =
  (Ok tt, {| view := (written ++ u32 data) ++ replicate m 0%Z;
             offset := offset w;
             pos := Z.of_nat (List.length (written ++ u32 data)) |}).
Proof.
  intros Hview Hpos. unfold setUint32, DataView_setUint32.
  rewrite Hview, Hpos, DataView_set_append.
  rewrite length_app, length_u32. repeat f_equal. lia.
Qed.

Lemma setUint16_append (written : list Z) (m : nat) (data : Z) (w : WavWriter) :
  view w = written ++ replicate (2 + m) 0%Z ->
  pos w = Z.of_nat (List.length written) ->
  setUint16 data w =
  (Ok tt, {| view := (written ++ u16 data) ++ replicate m 0%Z;
             offset := offset w;
             pos := Z.of_nat (List.length (written ++ u16 data)) |}).
Proof.
  intros Hview Hpos. unfold setUint16, DataView_setUint16.
  rewrite Hview, Hpos, DataView_set_append.
  rewrite length_app, length_u16. repeat f_equal. lia.
Qed.

(** One write of the header, in a sequence of writes. *)
Ltac header_write :=
  first
    [ erewrite bind_Ok by (apply setUint32_append; reflexivity)
    | erewrite bind_Ok by (apply setUint16_append; reflexivity) ].

(** On a zeroed buffer of at least 44 bytes, [writeHeader] fills the first
    44 bytes with [wavHeader] and leaves [pos] at 44. *)
Lemma writeHeader_run (buffer : AudioBuffer) (numOfChan length : Z)
    (m : nat) (w : WavWriter) :
  view w = replicate (44 + m) 0%Z -> pos w = 0%Z ->
  writeHeader buffer numOfChan length w =
  (Ok tt, {| view := wavHeader numOfChan (sampleRate buffer) length
                     ++ replicate m 0%Z;
             offset := offset w;
             pos := 44 |}).
Proof.
  intros Hview Hpos. unfold writeHeader.
  erewrite bind_Ok
    by (apply (setUint32_append [] (40 + m)); [exact Hview | exact Hpos]).
  do 11 header_write.
  erewrite bind_Ok by reflexivity.
  erewrite setUint32_append by reflexivity.
  cbn [view offset pos].
  repeat rewrite length_app. repeat rewrite length_u32. repeat rewrite length_u16.
  cbn [List.length Nat.add Z.of_nat Pos.of_succ_nat Pos.succ].
  unfold wavHeader. cbn [app]. repeat rewrite <- app_assoc. reflexivity.
Qed.

(** *** The data loop *)

Section DataLoop.
Variable buffer : AudioBuffer.
Variable header : list Z.

Let numOfChan := numberOfChannels buffer.
Let len := buffer_length buffer.
Let channels := map (getChannelData buffer) (seqZ 0 numOfChan).
(** The length of the output in bytes. *)
Let size := (len * numOfChan * 2 + 44)%Z.

Hypothesis len_nonneg : (0 <= len)%Z.
Hypothesis numOfChan_nonneg : (0 <= numOfChan)%Z.
Hypothesis header_length : List.length header = 44%nat.

(** Before the sample of channel [i] of frame [pos] is written. *)
Let InFrame (p : Z) (i : nat) (w : WavWriter) : Prop :=
  Z.of_nat (List.length (view w)) = size /\
  take 44 (view w) = header /\
  pos w = p /\
  offset w = (2 * numOfChan * (p - 44) + 2 * Z.of_nat i)%Z.

(** Between two frames. *)
Let Between (w : WavWriter) : Prop :=
  (44 <= pos w)%Z /\ InFrame (pos w) 0 w.

Lemma writeSample_run (p : Z) (k : nat) (i : Z) (w : WavWriter) :
  (44 <= p < len)%Z ->
  seqZ 0 numOfChan !! k = Some i ->
  InFrame p k w ->
  exists w', writeSample channels i w = (Ok tt, w') /\
             InFrame p (Datatypes.S k) w'.
Proof.
  intros Hp Hi (Hsize & Hhead & Hpos & Hoff).
  apply lookup_seqZ in Hi as [-> Hk]. simpl in Hk.
  unfold writeSample.
  assert (channels !! Z.to_nat (0 + Z.of_nat k)
          = Some (getChannelData buffer (Z.of_nat k))) as ->.
  { unfold channels. rewrite list_lookup_fmap.
    replace (Z.to_nat (0 + Z.of_nat k)) with k by lia.
    assert (seqZ 0 numOfChan !! k = Some (0 + Z.of_nat k)%Z) as ->
      by (apply lookup_seqZ; split; [reflexivity | lia]).
    reflexivity. }
  unfold DataView_setInt16, DataView_set.
  assert (0 <= offset w)%Z as Hoff0 by (rewrite Hoff; nia).
  assert (44 + offset w + 2 <= size)%Z as Hfit.
  { rewrite Hoff. unfold size. nia. }
  replace ((0 <=? 44 + offset w) &&
           (44 + offset w + Z.of_nat 2 <=? Z.of_nat (List.length (view w))))%Z
    with true
    by (symmetry; apply andb_true_iff; split; apply Z.leb_le; lia).
  eexists. split; [reflexivity |].
  unfold InFrame. cbn [view offset pos].
  rewrite length_writeBytes, take_writeBytes by lia.
  repeat split; [exact Hsize | exact Hhead | exact Hpos | lia].
Qed.

Lemma writeFrame_run (w : WavWriter) :
  Between w -> (pos w < len)%Z ->
  exists w', writeFrame channels numOfChan w = (Ok tt, w') /\
             Between w' /\ pos w' = (pos w + 1)%Z.
Proof.
  intros [H44 Hw] Hlt. unfold writeFrame.
  destruct (forM_invariant (writeSample channels) (InFrame (pos w))
              (seqZ 0 numOfChan) 0 w Hw) as (w1 & Hrun & Hw1).
  { intros k i s Hk Hs.
    apply (writeSample_run (pos w) k i s); [lia | exact Hk | exact Hs]. }
  rewrite (bind_Ok _ _ _ _ _ Hrun).
  eexists. split; [reflexivity |].
  destruct Hw1 as (Hsize & Hhead & Hpos & Hoff).
  rewrite length_seqZ in Hoff.
  unfold Between, InFrame. cbn [view offset pos].
  rewrite Hpos. repeat split; try assumption; lia.
Qed.

(** From the end of the header on, the loop writes frame after frame
    without throwing, keeps the header and the length, and stops when
    [pos] has reached the number of frames. *)
Lemma dataLoop_run (w : WavWriter) :
  Between w ->
  exists w',
    whileM (Z.to_nat (len - pos w)) (fun w => (pos w <? len)%Z)
      (writeFrame channels numOfChan) w = (Ok tt, w') /\
    Between w' /\ (len <= pos w')%Z.
Proof.
  intros Hw.
  destruct (whileM_total (fun w => (pos w <? len)%Z)
              (writeFrame channels numOfChan) Between
              (fun w => Z.to_nat (len - pos w))) with
    (fuel := Z.to_nat (len - pos w)) (s := w) as (w' & Hrun & Hw' & Hexit).
  - intros s Hs Hc. apply Z.ltb_lt in Hc.
    destruct (writeFrame_run s Hs Hc) as (s' & Hs' & Hb & Hp).
    exists s'. split; [exact Hs' | split; [exact Hb | lia]].
  - exact Hw.
  - lia.
  - exists w'. split; [exact Hrun | split; [exact Hw' |]].
    now apply Z.ltb_ge in Hexit.
Qed.
End DataLoop.

(** *** [bufferToWav] as a whole *)

Lemma length_wavHeader (numOfChan rate length : Z) :
  List.length (wavHeader numOfChan rate length) = 44%nat.
Proof.
  unfold wavHeader. repeat rewrite length_app.
  repeat rewrite length_u32. repeat rewrite length_u16. reflexivity.
Qed.

(** For a buffer with a non-negative number of frames and of channels,
    [bufferToWav] returns (it does not throw, and its loop ends): the blob
    has [frames * channels * 2 + 44] bytes, of type [audio/wav], and its
    first 44 bytes are the header. *)
Lemma bufferToWav_run (buffer : AudioBuffer) :
  (0 <= buffer_length buffer)%Z -> (0 <= numberOfChannels buffer)%Z ->
  let size := (buffer_length buffer * numberOfChannels buffer * 2 + 44)%Z in
  exists bytes,
    bufferToWav buffer = Ok {| blob_bytes := bytes; blob_type := "audio/wav" |} /\
    Z.of_nat (List.length bytes) = size /\
    take 44 bytes = wavHeader (numberOfChannels buffer) (sampleRate buffer) size.
Proof.
  intros Hlen Hnc size. unfold bufferToWav. cbv zeta. fold size.
  assert (0 <= buffer_length buffer * numberOfChannels buffer)%Z as Hprod by nia.
  replace (size <? 0)%Z with false by (symmetry; apply Z.ltb_ge; unfold size; lia).
  set (header := wavHeader (numberOfChannels buffer) (sampleRate buffer) size).
  set (m := Z.to_nat (buffer_length buffer * numberOfChannels buffer * 2)).
  replace (Z.to_nat size) with (44 + m)%nat by (unfold size, m; lia).
  erewrite bind_Ok by (apply writeHeader_run; reflexivity).
  fold header. cbn [offset].
  set (w1 := {| view := header ++ replicate m 0%Z; offset := 0; pos := 44 |}).
  erewrite bind_Ok by reflexivity.
  destruct (dataLoop_run buffer header Hlen Hnc
              (length_wavHeader _ _ _) w1) as (w' & Hrun & Hw' & Hexit).
  { unfold w1. cbn [view offset pos]. split; [lia |].
    split; [| split; [| split; [reflexivity | lia]]].
    - rewrite length_app, length_replicate.
      unfold header. rewrite length_wavHeader. unfold m. lia.
    - apply take_app_length'. unfold header. now rewrite length_wavHeader. }
  change (pos w1) with 44%Z.
  change (pos w1) with 44%Z in Hrun.
  erewrite bind_Ok by exact Hrun.
  erewrite bind_Ok by reflexivity.
  destruct Hw' as (_ & Hsize & Hhead & _).
  exists (view w'). split; [reflexivity |]. split; [exact Hsize | exact Hhead].
Qed.

(** *** The fields of the header *)

Lemma getUint_u16 (v : Z) :
  fold_right (fun b acc => (b + 256 * acc)%Z) 0%Z (u16 v) = ToUint16 v.
Proof.
  unfold u16, littleEndian. cbn [seq map fold_right Z.of_nat].
  pose proof (Z.mod_pos_bound v (2 ^ 16) eq_refl) as Hx.
  unfold ToUint16. set (x := (v mod 2 ^ 16)%Z) in *.
  change (2 ^ 16)%Z with 65536%Z in Hx.
  change (256 ^ 0)%Z with 1%Z. change (256 ^ Z.of_nat 1)%Z with 256%Z.
  Z.div_mod_to_equations. lia.
Qed.

Lemma getUint_u32 (v : Z) :
  fold_right (fun b acc => (b + 256 * acc)%Z) 0%Z (u32 v) = ToUint32 v.
Proof.
  unfold u32, littleEndian. cbn [seq map fold_right Z.of_nat].
  pose proof (Z.mod_pos_bound v (2 ^ 32) eq_refl) as Hx.
  unfold ToUint32. set (x := (v mod 2 ^ 32)%Z) in *.
  change (2 ^ 32)%Z with 4294967296%Z in Hx.
  change (256 ^ 0)%Z with 1%Z. change (256 ^ Z.of_nat 1)%Z with 256%Z.
  change (256 ^ Z.of_nat 2)%Z with 65536%Z.
  change (256 ^ Z.of_nat 3)%Z with 16777216%Z.
  Z.div_mod_to_equations. lia.
Qed.

Lemma take_drop_prefix {A} (l : list A) (n off m : nat) :
  (off + n <= m)%nat ->
  take n (drop off l) = take n (drop off (take m l)).
Proof.
  intros H. rewrite !take_drop_commute, take_take.
  do 2 f_equal. lia.
Qed.

Lemma getUint_prefix (n : nat) (view : list Z) (off m : nat) :
  (off + n <= m)%nat ->
  getUint n view off = getUint n (take m view) off.
Proof.
  intros H. unfold getUint. now rewrite (take_drop_prefix view n off m H).
Qed.

(** What a reader finds in the 44 bytes of [wavHeader]. *)
Lemma wavHeader_fields (numOfChan rate length : Z) :
  let header := wavHeader numOfChan rate length in
  take 4 header = asciiBytes "RIFF" /\
  DataView_getUint32 header 4 = ToUint32 (length - 8) /\
  take 4 (drop 8 header) = asciiBytes "WAVE" /\
  take 4 (drop 12 header) = asciiBytes "fmt " /\
  DataView_getUint32 header 16 = 16%Z /\
  DataView_getUint16 header 20 = 1%Z /\
  DataView_getUint16 header 22 = ToUint16 numOfChan /\
  DataView_getUint32 header 24 = ToUint32 rate /\
  DataView_getUint32 header 28 = ToUint32 (rate * 2 * numOfChan) /\
  DataView_getUint16 header 32 = ToUint16 (numOfChan * 2) /\
  DataView_getUint16 header 34 = 16%Z /\
  take 4 (drop 36 header) = asciiBytes "data" /\
  DataView_getUint32 header 40 = ToUint32 (length - 44).
Proof.
  cbv zeta. unfold DataView_getUint32, DataView_getUint16, getUint, wavHeader.
  cbn [u32 u16 littleEndian map seq app drop take].
  repeat split; try reflexivity.
  - apply (getUint_u32 (length - 8)).
  - apply (getUint_u16 numOfChan).
  - apply (getUint_u32 rate).
  - apply (getUint_u32 (rate * 2 * numOfChan)).
  - apply (getUint_u16 (numOfChan * 2)).
  - replace (length - 44)%Z with (length - 40 - 4)%Z by lia.
    apply (getUint_u32 (length - 40 - 4)).
Qed.

(** The output of [bufferToWav], as a reader of its bytes finds it. *)
Lemma bufferToWav_fields (buffer : AudioBuffer) :
  (0 <= buffer_length buffer)%Z -> (0 <= numberOfChannels buffer)%Z ->
  let numOfChan := numberOfChannels buffer in
  let rate := sampleRate buffer in
  exists blob,
    bufferToWav buffer = Ok blob /\
    blob_type blob = "audio/wav"%string /\
    let bytes := blob_bytes blob in
    let byteLength := Z.of_nat (List.length bytes) in
    byteLength = (buffer_length buffer * numOfChan * 2 + 44)%Z /\
    take 4 bytes = asciiBytes "RIFF" /\
    DataView_getUint32 bytes 4 = ToUint32 (byteLength - 8) /\
    take 4 (drop 8 bytes) = asciiBytes "WAVE" /\
    take 4 (drop 12 bytes) = asciiBytes "fmt " /\
    DataView_getUint32 bytes 16 = 16%Z /\
    DataView_getUint16 bytes 20 = 1%Z /\
    DataView_getUint16 bytes 22 = ToUint16 numOfChan /\
    DataView_getUint32 bytes 24 = ToUint32 rate /\
    DataView_getUint32 bytes 28 = ToUint32 (rate * 2 * numOfChan) /\
    DataView_getUint16 bytes 32 = ToUint16 (numOfChan * 2) /\
    DataView_getUint16 bytes 34 = 16%Z /\
    take 4 (drop 36 bytes) = asciiBytes "data" /\
    DataView_getUint32 bytes 40 = ToUint32 (byteLength - 44).
Proof.
  intros Hlen Hnc numOfChan rate.
  destruct (bufferToWav_run buffer Hlen Hnc) as (bytes & Hrun & Hsize & Hhead).
  eexists. split; [exact Hrun |]. split; [reflexivity |].
  cbn [blob_bytes]. cbv zeta. split; [exact Hsize |].
  rewrite Hsize.
  pose proof (wavHeader_fields numOfChan rate
                (buffer_length buffer * numOfChan * 2 + 44)) as Hfields.
  cbv zeta in Hfields. fold numOfChan rate in Hhead. rewrite <- Hhead in Hfields.
  unfold DataView_getUint32, DataView_getUint16 in *.
  rewrite (getUint_prefix 4 bytes 4 44), (getUint_prefix 4 bytes 16 44),
    (getUint_prefix 2 bytes 20 44), (getUint_prefix 2 bytes 22 44),
    (getUint_prefix 4 bytes 24 44), (getUint_prefix 4 bytes 28 44),
    (getUint_prefix 2 bytes 32 44), (getUint_prefix 2 bytes 34 44),
    (getUint_prefix 4 bytes 40 44) by lia.
  rewrite (take_drop_prefix bytes 4 8 44), (take_drop_prefix bytes 4 12 44),
    (take_drop_prefix bytes 4 36 44) by lia.
  replace (take 4 bytes) with (take 4 (take 44 bytes))
    by (rewrite take_take; reflexivity).
  exact Hfields.
Qed.

(** *** Claim C3 *)

(** The header of an encoded output.  For a buffer of 2 channels at
    44,100 Hz, as the engine renders it, [bufferToWav] returns a byte buffer
    with "RIFF" at offsets 0 to 3 and "WAVE" at offsets 8 to 11, a "fmt "
    chunk of 16 bytes that declares PCM (format tag 1), 2 channels, a sample
    rate of 44,100, a byte rate of [sampleRate * 2 * channels], a block align
    of [channels * 2] and 16 bits per sample.  [setUint32] keeps the low 32
    bits of the RIFF length at offset 4: the field is the total byte length
    minus 8 as long as that is below [2^32]. *)
Lemma wav_header (buffer : AudioBuffer) :
  numberOfChannels buffer = 2%Z ->
  sampleRate buffer = 44100%Z ->
  (0 <= buffer_length buffer)%Z ->
  exists blob,
    bufferToWav buffer = Ok blob /\
    let bytes := blob_bytes blob in
    let byteLength := Z.of_nat (List.length bytes) in
    byteLength = (buffer_length buffer * 4 + 44)%Z /\
    take 4 bytes = asciiBytes "RIFF" /\
    take 4 (drop 8 bytes) = asciiBytes "WAVE" /\
    take 4 (drop 12 bytes) = asciiBytes "fmt " /\
    DataView_getUint32 bytes 16 = 16%Z /\
    DataView_getUint16 bytes 20 = 1%Z /\
    DataView_getUint16 bytes 22 = 2%Z /\
    DataView_getUint32 bytes 24 = 44100%Z /\
    DataView_getUint32 bytes 28 = (44100 * 2 * 2)%Z /\
    DataView_getUint16 bytes 32 = (2 * 2)%Z /\
    DataView_getUint16 bytes 34 = 16%Z /\
    DataView_getUint32 bytes 4 = ((byteLength - 8) mod 2 ^ 32)%Z /\
    ((byteLength - 8 < 2 ^ 32)%Z ->
     DataView_getUint32 bytes 4 = (byteLength - 8)%Z).
Proof.
  intros Hnc Hrate Hlen.
  destruct (bufferToWav_fields buffer Hlen ltac:(lia))
    as (blob & Hrun & _ & Hsize & Hriff & Hfield & Hwave & Hfmt & H16 & Hpcm
        & Hchan & Hrate' & Hbyte & Halign & Hbits & _).
  cbv zeta in *. rewrite Hnc in *. rewrite Hrate in *.
  exists blob. split; [exact Hrun |].
  repeat (split; [first [assumption | lia] |]).
  intros Hsmall. rewrite Hfield. unfold ToUint32.
  apply Z.mod_small. lia.
Qed.

(** On four stereo frames the field is the byte length minus 8. *)
Example wav_header_four_frames :
  exists blob,
    bufferToWav (silence 2 4) = Ok blob /\
    DataView_getUint32 (blob_bytes blob) 4 =
    (Z.of_nat (List.length (blob_bytes blob)) - 8)%Z.
Proof.
  destruct (wav_header (silence 2 4) eq_refl eq_refl ltac:(simpl; lia))
    as (blob & Hrun & Hsize & H).
  exists blob. split; [exact Hrun |].
  apply H. rewrite Hsize. reflexivity.
Qed.

(** C3 fails in the code on a long output.  The claim has the RIFF length
    field at offset 4 equal to the total byte length minus 8 for every
    encoded output, and the code writes it under the comment
    [file length - 8]; but the length is written with [setUint32] and
    without a check of its range.  For a rendered buffer of [2^30] stereo
    frames (about 6.8 hours at 44,100 Hz) [bufferToWav] returns [2^32 + 44]
    bytes and the field holds 36, not [2^32 + 36].  The other fields of the
    claim, and this one for outputs below [2^32 + 8] bytes, are as the claim
    has them ([wav_header]). *)
Theorem riff_length_field_wraps :
  exists blob,
    bufferToWav (silence 2 (2 ^ 30)) = Ok blob /\
    Z.of_nat (List.length (blob_bytes blob)) = 4294967340%Z /\
    DataView_getUint32 (blob_bytes blob) 4 = 36%Z /\
    DataView_getUint32 (blob_bytes blob) 4 <>
    (Z.of_nat (List.length (blob_bytes blob)) - 8)%Z.
Proof.
  destruct (bufferToWav_fields (silence 2 (2 ^ 30)))
    as (blob & Hrun & _ & Hsize & _ & Hfield & _).
  - discriminate.
  - discriminate.
  - cbv zeta in *. exists blob. split; [exact Hrun |].
    change (buffer_length (silence 2 (2 ^ 30)) *
            numberOfChannels (silence 2 (2 ^ 30)) * 2 + 44)%Z
      with 4294967340%Z in Hsize.
    rewrite Hsize in *. split; [reflexivity |].
    rewrite Hfield. split; [reflexivity | discriminate].
Qed.

(** *** The data chunk *)

(** The loop over the frames counts with [pos], which the header writers
    have left at 44: frames 0 to 43 of the buffer are not written, and the
    space of the last 44 frames of the data chunk stays zero.  Here on 46
    mono frames with the values [1/64, 2/64, ...]: the chunk starts with
    frames 44 and 45 and the remaining 88 bytes are zero. *)
Example bufferToWav_data_from_frame_44 :
  let samples := map (fun k => inject_Z (Z.of_nat k) / 64) (seq 1 46) in
  exists blob,
    bufferToWav (bufferOfChannels 44100 [samples]) = Ok blob /\
    drop 44 (blob_bytes blob) =
    littleEndian 2 (quantize (45 / 64)) ++ littleEndian 2 (quantize (46 / 64))
    ++ replicate 88 0%Z.
Proof. cbv zeta. eexists. split; vm_compute; reflexivity. Qed.

(** ** The quantization of a sample *)

Lemma clampSample_bounds (x : Q) : -1 <= clampSample x <= 1.
Proof. unfold clampSample. minmax_cases; lra. Qed.

Lemma truncate_bounds (y : Q) (a b : Z) :
  inject_Z a <= y -> y <= inject_Z b -> (a <= truncate y <= b)%Z.
Proof.
  destruct y as [n d]. unfold truncate, Qle. simpl. intros Ha Hb.
  rewrite Z.mul_1_r in Ha, Hb. split.
  - rewrite <- (Z.quot_mul a (Zpos d)) by lia.
    apply Z.quot_le_mono; lia.
  - rewrite <- (Z.quot_mul b (Zpos d)) by lia.
    apply Z.quot_le_mono; lia.
Qed.

Lemma wrap_signed_32_small (z : Z) :
  (- 2 ^ 31 <= z < 2 ^ 31)%Z -> wrap_signed 32 z = z.
Proof.
  intros H. unfold wrap_signed. change (32 - 1)%Z with 31%Z.
  rewrite Z.mod_small; lia.
Qed.

(** What [quantize] computes, for every sample: the clamped value is scaled
    by 32768 when it is below [-1/2] and by 32767 otherwise, and truncated
    toward zero; the result fits 16 bits. *)
Lemma quantize_eq (x : Q) :
  let sample := clampSample x in
  quantize x =
  truncate (if Qltb sample (- (1 # 2)) then sample * 32768 else sample * 32767)
  /\ (-32768 <= quantize x <= 32767)%Z.
Proof.
  cbv zeta. unfold quantize, scaleSample, ToInt32.
  pose proof (clampSample_bounds x) as [Hlo Hhi].
  set (sample := clampSample x) in *.
  assert (Qltb (0.5 + sample) 0 = Qltb sample (- (1 # 2))) as ->.
  { destruct (Qltb sample (- (1 # 2))) eqn:E.
    - apply Qltb_true in E. apply Qltb_true. lra.
    - apply Qltb_false in E. apply Qltb_false. lra. }
  assert (-32768 <= truncate (if Qltb sample (- (1 # 2))
                              then sample * 32768 else sample * 32767)
          <= 32767)%Z as Hfit.
  { destruct (Qltb sample (- (1 # 2))) eqn:E.
    - apply Qltb_true in E.
      pose proof (truncate_bounds (sample * 32768) (-32768) 0) as H.
      change (inject_Z (-32768)) with (-32768) in H.
      change (inject_Z 0) with 0 in H.
      destruct H; [lra | lra | lia].
    - apply Qltb_false in E.
      pose proof (truncate_bounds (sample * 32767) (-32767) 32767) as H.
      change (inject_Z (-32767)) with (-32767) in H.
      change (inject_Z 32767) with 32767 in H.
      destruct H; [lra | lra | lia]. }
  rewrite wrap_signed_32_small by lia. split; [reflexivity | exact Hfit].
Qed.

(** Outside [[-1/2, 0)] that is the quantization of the specification. *)
Lemma quantize_agrees (x : Q) :
  x < - (1 # 2) \/ 0 <= x -> quantize x = quantizeSpec x.
Proof.
  intros Hx. destruct (quantize_eq x) as [-> _]. cbv zeta.
  unfold quantizeSpec. fold (clampSample x). cbv zeta.
  assert (Qltb (clampSample x) (- (1 # 2)) = Qltb (clampSample x) 0) as ->;
    [| reflexivity].
  unfold clampSample.
  destruct Hx as [Hx | Hx].
  - rewrite (proj2 (Qltb_true _ (- (1 # 2)))) by (minmax_cases; lra).
    rewrite (proj2 (Qltb_true _ 0)) by (minmax_cases; lra). reflexivity.
  - rewrite (proj2 (Qltb_false _ (- (1 # 2)))) by (minmax_cases; lra).
    rewrite (proj2 (Qltb_false _ 0)) by (minmax_cases; lra). reflexivity.
Qed.

(** *** Claim C2 *)

(** C2, on the code: the scale factor is chosen by [0.5 + sample < 0], that
    is by [sample < -0.5], not by [sample < 0].  The sample [-0.25] is
    negative and is scaled by 32767: [quantize] gives
    [trunc (-8191.75) = -8191], where clamping, scaling negative values by
    32768 and truncating gives [-8192].  The clamp and the truncation toward
    zero are as the claim says. *)
Theorem quantize_minus_quarter :
  clampSample (-1 # 4) = -1 # 4 /\
  Qltb (0.5 + (-1 # 4)) 0 = false /\
  quantize (-1 # 4) = (-8191)%Z /\
  quantizeSpec (-1 # 4) = (-8192)%Z.
Proof. repeat split. Qed.

(** ** The entry point *)

Section EntryPoint.
Variable P : Platform.

(** The decode loop depends on the options only through the progress
    callback. *)
Lemma decodeTracks_opts (opts opts' : CreateDemoOptions) (totalTracks : Z)
    (rest : list AudioTrack) :
  onProgress opts = onProgress opts' ->
  forall i decodedBuffers log,
    decodeTracks P opts totalTracks i rest decodedBuffers log =
    decodeTracks P opts' totalTracks i rest decodedBuffers log.
Proof.
  intros Hp. induction rest as [| track rest IH]; intros i acc log; simpl.
  - reflexivity.
  - unfold bind, try_catch, progress. rewrite Hp.
    destruct (onProgress opts'); simpl;
      destruct (decodeAudio P (file track) _) as [[b | e] log1]; simpl;
      try apply IH; reflexivity.
Qed.

(** When every track decodes, step 2 returns the decoded buffers in the
    order of the tracks. *)
Lemma decodeTracks_success (opts : CreateDemoOptions) (totalTracks : Z)
    (rest : list AudioTrack) (buffers : list AudioBuffer) :
  Forall2 (fun track buffer => decodeAudioData P (file track) = Some buffer)
    rest buffers ->
  forall i decodedBuffers log,
    exists log',
      decodeTracks P opts totalTracks i rest decodedBuffers log =
      (Ok (decodedBuffers ++ buffers), log').
Proof.
  induction 1 as [| track buffer rest buffers Hd _ IH]; intros i acc log; simpl.
  - exists log. now rewrite app_nil_r.
  - unfold bind at 1. unfold try_catch, bind, progress, decodeAudio, emit, modify.
    rewrite Hd.
    destruct (onProgress opts); simpl;
      match goal with
      | |- context [decodeTracks _ _ _ _ _ _ ?l] =>
          destruct (IH (i + 1)%Z (acc ++ [buffer]) l) as (log' & ->)
      end;
      exists log'; now rewrite <- app_assoc.
Qed.

(** When a track does not decode, step 2 throws the error that names the
    first such track. *)
Lemma decodeTracks_failure (opts : CreateDemoOptions) (totalTracks : Z)
    (rest : list AudioTrack) :
  Exists (fun track => decodeAudioData P (file track) = None) rest ->
  forall i decodedBuffers log,
    exists track log',
      track ∈ rest /\
      decodeAudioData P (file track) = None /\
      decodeTracks P opts totalTracks i rest decodedBuffers log =
      (Throw (Error ("Could not decode audio file: " ++ name track)%string),
       log').
Proof.
  induction rest as [| track rest IH]; intros Hex i acc log.
  - inversion Hex.
  - destruct (decodeAudioData P (file track)) as [buffer |] eqn:Hd.
    + assert (Exists (fun t => decodeAudioData P (file t) = None) rest) as Hrest
        by (inversion Hex; subst; [congruence | assumption]).
      simpl. unfold bind at 1.
      unfold try_catch, bind, progress, decodeAudio, emit, modify.
      rewrite Hd.
      destruct (onProgress opts); simpl;
        (match goal with
         | |- context [decodeTracks _ _ _ _ _ _ ?l] =>
             destruct (IH Hrest (i + 1)%Z (acc ++ [buffer]) l)
               as (t & log' & Hin & Hnone & ->)
         end;
         exists t, log'; split; [now right | split; [exact Hnone | reflexivity]]).
    + exists track. simpl. unfold bind at 1.
      unfold try_catch, bind, progress, decodeAudio, emit, modify, throw.
      rewrite Hd.
      destruct (onProgress opts); simpl; eexists;
        (split; [now left | split; reflexivity]).
Qed.

Lemma decodeTag_run (opts : CreateDemoOptions) (log : Log) :
  exists log', decodeTag P opts log = (Ok (tagBufferOf P opts), log').
Proof.
  unfold decodeTag, tagBufferOf. destruct (tagFile opts) as [f |].
  - unfold try_catch, bind, decodeAudio, emit, modify, ret, throw.
    destruct (decodeAudioData P f); eexists; reflexivity.
  - eexists. reflexivity.
Qed.

(** What [mixdown] returns does not depend on the log. *)
Lemma mixdown_fst (opts : CreateDemoOptions)
    (decodedBuffers : list AudioBuffer) (tagBuffer : option AudioBuffer)
    (log1 log2 : Log) :
  fst (mixdown P opts decodedBuffers tagBuffer log1) =
  fst (mixdown P opts decodedBuffers tagBuffer log2).
Proof.
  unfold mixdown, bind, progress, render, lift, emit, modify, ret, throw.
  cbv zeta.
  destruct (onProgress opts); simpl;
    destruct (startRendering P _); simpl; try reflexivity;
    destruct (bufferToWav _); reflexivity.
Qed.

Lemma mixdown_opts (opts : CreateDemoOptions)
    (decodedBuffers : list AudioBuffer) (tagBuffer : option AudioBuffer)
    (log : Log) :
  mixdown P (withoutTag opts) decodedBuffers tagBuffer log =
  mixdown P opts decodedBuffers tagBuffer log.
Proof. destruct opts. reflexivity. Qed.

(** When [mixdown] returns, it returns the encoding of the rendered
    buffer under both names. *)
Lemma mixdown_Ok (opts : CreateDemoOptions)
    (decodedBuffers : list AudioBuffer) (tagBuffer : option AudioBuffer)
    (log log' : Log) (mix : DemoMix) :
  mixdown P opts decodedBuffers tagBuffer log = (Ok mix, log') ->
  exists samples,
    let ctx := offlineContext P opts decodedBuffers tagBuffer in
    startRendering P ctx = Some samples /\
    bufferToWav (renderedAudioBuffer ctx samples) = Ok (wav mix) /\
    mp3 mix = wav mix.
Proof.
  unfold mixdown, bind, progress, render, lift, emit, modify, ret, throw.
  cbv zeta.
  destruct (onProgress opts); simpl;
    (destruct (startRendering P _) as [samples |] eqn:Hs; simpl;
       [| discriminate];
     fold (renderedAudioBuffer (offlineContext P opts decodedBuffers tagBuffer) samples);
     destruct (bufferToWav _) as [blob | e] eqn:Hb; simpl; [| discriminate];
     intros H; injection H as <- _; exists samples; repeat split; exact Hb).
Qed.

(** When the renderer and the encoder succeed, so does [mixdown]. *)
Lemma mixdown_success (opts : CreateDemoOptions)
    (decodedBuffers : list AudioBuffer) (tagBuffer : option AudioBuffer)
    (log : Log) (samples : Z -> Z -> Q) (blob : Blob) :
  let ctx := offlineContext P opts decodedBuffers tagBuffer in
  startRendering P ctx = Some samples ->
  bufferToWav (renderedAudioBuffer ctx samples) = Ok blob ->
  fst (mixdown P opts decodedBuffers tagBuffer log) =
  Ok {| wav := blob; mp3 := blob |}.
Proof.
  intros ctx Hs Hb.
  unfold mixdown, bind, progress, render, lift, emit, modify, ret, throw.
  cbv zeta. fold ctx.
  destruct (onProgress opts); simpl; rewrite Hs; simpl;
    fold (renderedAudioBuffer ctx samples); rewrite Hb; reflexivity.
Qed.
End EntryPoint.

Lemma progress_run (opts : CreateDemoOptions) (percent : Z) (log : Log) :
  exists log', progress opts percent log = (Ok tt, log').
Proof.
  unfold progress. destruct (onProgress opts); eexists; reflexivity.
Qed.

(** When every track decodes and the renderer and the encoder succeed,
    [createDemoMix] returns the encoding of the rendered buffer. *)
Lemma createDemoMix_success (P : Platform) (opts : CreateDemoOptions)
    (log : Log) (decodedBuffers : list AudioBuffer)
    (samples : Z -> Z -> Q) (blob : Blob) :
  tracks opts <> [] ->
  Forall2 (fun track buffer => decodeAudioData P (file track) = Some buffer)
    (tracks opts) decodedBuffers ->
  let ctx := offlineContext P opts decodedBuffers (tagBufferOf P opts) in
  startRendering P ctx = Some samples ->
  bufferToWav (renderedAudioBuffer ctx samples) = Ok blob ->
  fst (createDemoMix P opts log) = Ok {| wav := blob; mp3 := blob |}.
Proof.
  intros Hne Hdec ctx Hs Hb. unfold createDemoMix.
  assert ((Z.of_nat (List.length (tracks opts)) =? 0)%Z = false) as ->
    by (apply Z.eqb_neq; destruct (tracks opts); [congruence | simpl; lia]).
  cbv zeta.
  destruct (progress_run opts 5 log) as (log0 & H0).
  rewrite (bind_Ok _ _ _ _ _ H0).
  erewrite bind_Ok by reflexivity.
  destruct (decodeTracks_success P opts (Z.of_nat (List.length (tracks opts)))
              (tracks opts) decodedBuffers Hdec 0 []
              (log0 ++ [NewAudioContext 44100])) as (log1 & H1).
  rewrite (bind_Ok _ _ _ _ _ H1). cbn [app].
  destruct (decodeTag_run P opts log1) as (log2 & H2).
  rewrite (bind_Ok _ _ _ _ _ H2).
  now apply (mixdown_success P opts decodedBuffers (tagBufferOf P opts) log2
               samples blob).
Qed.

(** *** Claim C7 *)

(** C7: for the empty track list, [createDemoMix] throws the input error
    "No tracks provided" and returns no result; the log of its calls is as
    it was, so nothing was decoded and no context or buffer was created
    before. *)
Theorem empty_track_list (P : Platform) (opts : CreateDemoOptions) (log : Log) :
  tracks opts = [] ->
  createDemoMix P opts log = (Throw (Error "No tracks provided"), log).
Proof.
  intros H. unfold createDemoMix. rewrite H. reflexivity.
Qed.

Lemma empty_track_list_witness :
  createDemoMix examplePlatform (defaultOptions []) [] =
  (Throw (Error "No tracks provided"), []).
Proof.
  apply (empty_track_list examplePlatform (defaultOptions []) []).
  reflexivity.
Defined.

(** *** Claim C10 *)

(** C10: when [createDemoMix] returns, the blob labelled [wav] and the blob
    labelled [mp3] are the same blob (the WAV encoding of the rendered
    buffer), so they hold the same bytes. *)
Theorem wav_and_mp3_identical (P : Platform) (opts : CreateDemoOptions)
    (log log' : Log) (mix : DemoMix) :
  createDemoMix P opts log = (Ok mix, log') ->
  mp3 mix = wav mix /\
  blob_bytes (mp3 mix) = blob_bytes (wav mix) /\
  exists renderedBuffer, bufferToWav renderedBuffer = Ok (wav mix).
Proof.
  unfold createDemoMix.
  destruct (Z.of_nat (List.length (tracks opts)) =? 0)%Z; [discriminate |].
  cbv zeta. intros H.
  apply bind_Ok_inv in H as (? & log0 & _ & H).
  apply bind_Ok_inv in H as (? & log1 & _ & H).
  apply bind_Ok_inv in H as (decodedBuffers & log2 & _ & H).
  apply bind_Ok_inv in H as (tagBuffer & log3 & _ & H).
  apply mixdown_Ok in H as (samples & _ & Hb & Hsame).
  split; [exact Hsame |]. split; [now rewrite Hsame |].
  eexists. exact Hb.
Qed.

Lemma wav_and_mp3_identical_witness :
  let result := createDemoMix examplePlatform
                  (defaultOptions [exampleTrack "a" [10; 20; 30; 40]%Z]) [] in
  exists mix log',
    result = (Ok mix, log') /\
    blob_bytes (mp3 mix) = blob_bytes (wav mix) /\
    List.length (blob_bytes (wav mix)) = 60%nat.
Proof.
  cbv zeta. eexists. eexists. split; [vm_compute; reflexivity |].
  split; [| reflexivity].
  refine (proj1 (proj2 (wav_and_mp3_identical examplePlatform
            (defaultOptions [exampleTrack "a" [10; 20; 30; 40]%Z]) [] _ _ _))).
  vm_compute. reflexivity.
Defined.

(** The encoder throws on a stereo buffer with a negative number of frames:
    the array buffer cannot be created, or it is too short for the header. *)
Lemma bufferToWav_negative_length (buffer : AudioBuffer) :
  numberOfChannels buffer = 2%Z -> (buffer_length buffer < 0)%Z ->
  bufferToWav buffer = Throw RangeError.
Proof.
  destruct buffer as [nc len rate data]. simpl. intros -> Hlen.
  destruct (Z_lt_le_dec len (-11)) as [Hfar | Hnear].
  - unfold bufferToWav. cbn [numberOfChannels buffer_length].
    replace (len * 2 * 2 + 44 <? 0)%Z with true
      by (symmetry; apply Z.ltb_lt; lia).
    reflexivity.
  - assert (len = -11 \/ len = -10 \/ len = -9 \/ len = -8 \/ len = -7 \/
            len = -6 \/ len = -5 \/ len = -4 \/ len = -3 \/ len = -2 \/
            len = -1)%Z as Hcases by lia.
    repeat (destruct Hcases as [-> | Hcases]; [vm_compute; reflexivity |]).
    subst len. vm_compute. reflexivity.
Qed.

(** What [createDemoMix] returns is the encoding of a buffer of 2 channels
    at 44,100 Hz: the buffer that the offline context renders. *)
Lemma createDemoMix_encodes_stereo (P : Platform) (opts : CreateDemoOptions)
    (log log' : Log) (mix : DemoMix) :
  createDemoMix P opts log = (Ok mix, log') ->
  exists buffer,
    numberOfChannels buffer = 2%Z /\
    sampleRate buffer = 44100%Z /\
    (0 <= buffer_length buffer)%Z /\
    bufferToWav buffer = Ok (wav mix).
Proof.
  unfold createDemoMix.
  destruct (Z.of_nat (List.length (tracks opts)) =? 0)%Z; [discriminate |].
  cbv zeta. intros H.
  apply bind_Ok_inv in H as (? & log0 & _ & H).
  apply bind_Ok_inv in H as (? & log1 & _ & H).
  apply bind_Ok_inv in H as (decodedBuffers & log2 & _ & H).
  apply bind_Ok_inv in H as (tagBuffer & log3 & _ & H).
  apply mixdown_Ok in H as (samples & _ & Hb & _). cbv zeta in Hb.
  eexists. split; [| split; [| split; [| exact Hb]]].
  - now rewrite offlineContext_eq.
  - now rewrite offlineContext_eq.
  - destruct (Z_lt_le_dec
                (buffer_length
                   (renderedAudioBuffer
                      (offlineContext P opts decodedBuffers tagBuffer) samples))
                0) as [Hneg | Hok]; [| exact Hok].
    rewrite bufferToWav_negative_length in Hb;
      [discriminate | now rewrite offlineContext_eq | exact Hneg].
Qed.

(** *** Claim C8 *)

(** A tag file that does not decode: step 2.5 catches the failure, logs a
    warning and goes on without a tag buffer. *)
Lemma decodeTag_failure (P : Platform) (opts : CreateDemoOptions) (f : File)
    (log : Log) :
  tagFile opts = Some f -> decodeAudioData P f = None ->
  decodeTag P opts log =
  (Ok None,
   log ++ [DecodeAudioData f;
           ConsoleWarn "Failed to decode tag file, proceeding without tags."]).
Proof.
  intros Htag Hdec. unfold decodeTag, decodeAudio. rewrite Htag, Hdec.
  unfold try_catch, bind, emit, modify, ret, throw.
  now rewrite <- app_assoc.
Qed.

(** C8: when the tag file does not decode, (1) the failure is caught: the
    tag decoding step returns no buffer and adds to the log the decode
    attempt and one warning; (2) [createDemoMix] returns what it returns
    for the same options without a tag file; (3) the context that is
    rendered holds the sources of the tracks and no watermark source;
    (4) so the render completes with the encoded output whenever the tracks
    decode and the renderer and the encoder succeed; whereas (5) a track
    that does not decode makes [createDemoMix] throw "Could not decode audio
    file", naming the first such track. *)
Theorem tag_decode_failure (P : Platform) (opts : CreateDemoOptions)
    (f : File) (log : Log) :
  tagFile opts = Some f ->
  decodeAudioData P f = None ->
  decodeTag P opts log =
    (Ok None,
     log ++ [DecodeAudioData f;
             ConsoleWarn "Failed to decode tag file, proceeding without tags."]) /\
  fst (createDemoMix P opts log) = fst (createDemoMix P (withoutTag opts) log) /\
  (forall decodedBuffers,
     ctx_sources (offlineContext P opts decodedBuffers (tagBufferOf P opts)) =
     trackSources P opts decodedBuffers) /\
  (forall decodedBuffers samples blob,
     tracks opts <> [] ->
     Forall2 (fun track buffer => decodeAudioData P (file track) = Some buffer)
       (tracks opts) decodedBuffers ->
     let ctx := offlineContext P opts decodedBuffers None in
     startRendering P ctx = Some samples ->
     bufferToWav (renderedAudioBuffer ctx samples) = Ok blob ->
     fst (createDemoMix P opts log) = Ok {| wav := blob; mp3 := blob |}) /\
  (Exists (fun track => decodeAudioData P (file track) = None) (tracks opts) ->
   exists track,
     track ∈ tracks opts /\
     decodeAudioData P (file track) = None /\
     fst (createDemoMix P opts log) =
     Throw (Error ("Could not decode audio file: " ++ name track)%string)).
Proof.
  intros Htag Hdec.
  assert (tagBufferOf P opts = None) as Hnone
    by (unfold tagBufferOf; now rewrite Htag).
  split; [now apply decodeTag_failure |]. split; [| split; [| split]].
  - unfold createDemoMix.
    change (tracks (withoutTag opts)) with (tracks opts).
    destruct (Z.of_nat (List.length (tracks opts)) =? 0)%Z; [reflexivity |].
    cbv zeta. change (progress (withoutTag opts) 5) with (progress opts 5).
    destruct (progress_run opts 5 log) as (log0 & H0).
    rewrite !(bind_Ok _ _ _ _ _ H0).
    rewrite !(bind_Ok (emit (NewAudioContext 44100)) _ log0
                (log0 ++ [NewAudioContext 44100]) tt eq_refl).
    pose proof (decodeTracks_opts P opts (withoutTag opts)
                  (Z.of_nat (List.length (tracks opts))) (tracks opts) eq_refl
                  0 [] (log0 ++ [NewAudioContext 44100])) as Hsame.
    destruct (decodeTracks P opts _ 0 (tracks opts) [] _)
      as [[decodedBuffers | e] log1] eqn:H1; symmetry in Hsame.
    + rewrite (bind_Ok _ _ _ _ _ H1), (bind_Ok _ _ _ _ _ Hsame).
      rewrite (bind_Ok _ _ _ _ _ (decodeTag_failure P opts f log1 Htag Hdec)).
      erewrite (bind_Ok (decodeTag P (withoutTag opts))) by reflexivity.
      rewrite mixdown_opts. apply mixdown_fst.
    + now rewrite (bind_Throw _ _ _ _ _ H1), (bind_Throw _ _ _ _ _ Hsame).
  - intros decodedBuffers. rewrite Hnone, offlineContext_eq. simpl.
    apply app_nil_r.
  - intros decodedBuffers samples blob Hne Hall ctx Hs Hb.
    apply (createDemoMix_success P opts log decodedBuffers samples blob);
      try assumption; now rewrite Hnone.
  - intros Hex. unfold createDemoMix.
    assert ((Z.of_nat (List.length (tracks opts)) =? 0)%Z = false) as ->
      by (apply Z.eqb_neq; destruct (tracks opts); [inversion Hex | simpl; lia]).
    cbv zeta.
    destruct (progress_run opts 5 log) as (log0 & H0).
    rewrite (bind_Ok _ _ _ _ _ H0).
    erewrite bind_Ok by reflexivity.
    destruct (decodeTracks_failure P opts (Z.of_nat (List.length (tracks opts)))
                (tracks opts) Hex 0 [] (log0 ++ [NewAudioContext 44100]))
      as (track & log1 & Hin & Hfail & H1).
    exists track. split; [exact Hin |]. split; [exact Hfail |].
    now rewrite (bind_Throw _ _ _ _ _ H1).
Qed.

(** An example: one track and a tag file that does not decode (it is
    empty); the render completes and the log shows the warning. *)
Lemma tag_decode_failure_witness :
  fst (createDemoMix examplePlatform exampleOptionsWithTag []) =
  fst (createDemoMix examplePlatform (withoutTag exampleOptionsWithTag) []).
Proof.
  exact (proj1 (proj2 (tag_decode_failure examplePlatform exampleOptionsWithTag
                         {| file_name := "tag"; file_bytes := [] |} []
                         eq_refl eq_refl))).
Defined.

Example tag_decode_failure_run :
  exists mix,
    createDemoMix examplePlatform exampleOptionsWithTag [] =
    (Ok mix,
     [OnProgress 5; NewAudioContext 44100; OnProgress 10;
      DecodeAudioData (file (exampleTrack "a" [10; 20; 30; 40]%Z));
      DecodeAudioData {| file_name := "tag"; file_bytes := [] |};
      ConsoleWarn "Failed to decode tag file, proceeding without tags.";
      AudioContextClose; OnProgress 45; NewOfflineAudioContext 2 4 44100;
      OnProgress 60; StartRendering; OnProgress 80; OnProgress 90;
      OnProgress 100]).
Proof. eexists. vm_compute. reflexivity. Qed.

(** An example: the second of two tracks does not decode. *)
Example track_decode_failure_run :
  createDemoMix examplePlatform
    (defaultOptions [exampleTrack "a" [10; 20]%Z; exampleTrack "b" []]) [] =
  (Throw (Error "Could not decode audio file: b"),
   [NewAudioContext 44100;
    DecodeAudioData (file (exampleTrack "a" [10; 20]%Z));
    DecodeAudioData (file (exampleTrack "b" []));
    ConsoleError "Failed to decode b"]).
Proof. vm_compute. reflexivity. Qed.

(* ===================================================================== *)
(** * Part III: further properties of the engine and of its callers      *)
(* ===================================================================== *)

(** ** The encoder, byte by byte *)

Lemma length_flat_map_const {A B} (f : A -> list B) (n : nat) (l : list A) :
  (forall x, List.length (f x) = n) ->
  List.length (flat_map f l) = (n * List.length l)%nat.
Proof.
  intros Hf. induction l as [| x l IH]; cbn [flat_map List.length].
  - lia.
  - rewrite length_app, Hf, IH. lia.
Qed.

Lemma length_frameBytes (buffer : AudioBuffer) (p : Z) :
  (0 <= numberOfChannels buffer)%Z ->
  Z.of_nat (List.length (frameBytes buffer p)) =
  (2 * numberOfChannels buffer)%Z.
Proof.
  intros Hnc. unfold frameBytes.
  rewrite (length_flat_map_const _ 2) by (intros; apply length_littleEndian).
  rewrite length_seqZ. lia.
Qed.

Lemma length_frames (buffer : AudioBuffer) (frames : list Z) :
  (0 <= numberOfChannels buffer)%Z ->
  Z.of_nat (List.length (flat_map (frameBytes buffer) frames)) =
  (2 * numberOfChannels buffer * Z.of_nat (List.length frames))%Z.
Proof.
  intros Hnc. induction frames as [| p l IH]; cbn [flat_map List.length].
  - lia.
  - rewrite length_app, Nat2Z.inj_add, IH, length_frameBytes by exact Hnc. lia.
Qed.

Section DataBytes.
Variable buffer : AudioBuffer.
Variable header : list Z.

Let numOfChan := numberOfChannels buffer.
Let len := buffer_length buffer.
Let channels := map (getChannelData buffer) (seqZ 0 numOfChan).
Let dataSize : nat := Z.to_nat (2 * numOfChan * len).

Hypothesis len_nonneg : (0 <= len)%Z.
Hypothesis numOfChan_nonneg : (0 <= numOfChan)%Z.
Hypothesis header_length : List.length header = 44%nat.

(** The writer when [written] is what follows the header so far. *)
Let Written (written : list Z) (p : Z) (w : WavWriter) : Prop :=
  view w = (header ++ written)
           ++ replicate (dataSize - List.length written) 0%Z /\
  offset w = Z.of_nat (List.length written) /\
  pos w = p.

Let sampleBytes (p i : Z) : list Z :=
  littleEndian 2 (wrap_signed 16 (quantize (getChannelData buffer i p))).

Lemma writeSample_bytes (p : Z) (k : nat) (i : Z) (before : list Z)
    (w : WavWriter) :
  (44 <= p < len)%Z ->
  seqZ 0 numOfChan !! k = Some i ->
  Z.of_nat (List.length before) = (2 * numOfChan * (p - 44))%Z ->
  Written (before ++ flat_map (sampleBytes p) (take k (seqZ 0 numOfChan))) p w ->
  exists w',
    writeSample channels i w = (Ok tt, w') /\
    Written (before
             ++ flat_map (sampleBytes p) (take (Datatypes.S k) (seqZ 0 numOfChan)))
      p w'.
Proof.
  intros Hp Hi Hbefore (Hview & Hoff & Hpos).
  pose proof Hi as Hi'. apply lookup_seqZ in Hi' as [-> Hk]. simpl in Hk.
  set (written := before ++ flat_map (sampleBytes p) (take k (seqZ 0 numOfChan)))
    in *.
  assert (Z.of_nat (List.length written) = (2 * numOfChan * (p - 44)
                                           + 2 * Z.of_nat k)%Z) as Hlen.
  { unfold written. rewrite length_app, Nat2Z.inj_add, Hbefore. f_equal.
    rewrite (length_flat_map_const _ 2) by (intros; apply length_littleEndian).
    rewrite length_take, length_seqZ. lia. }
  assert (Z.of_nat dataSize = 2 * numOfChan * len)%Z as Hsize
    by (unfold dataSize; nia).
  assert (Z.of_nat (List.length written) + 2 <= Z.of_nat dataSize)%Z as Hfit
    by (rewrite Hlen, Hsize; nia).
  unfold writeSample.
  assert (channels !! Z.to_nat (0 + Z.of_nat k)
          = Some (getChannelData buffer (Z.of_nat k))) as ->.
  { unfold channels. rewrite list_lookup_fmap.
    replace (Z.to_nat (0 + Z.of_nat k)) with k by lia.
    now rewrite Hi. }
  unfold DataView_setInt16. rewrite Hview, Hoff, Hpos.
  replace (dataSize - List.length written)%nat
    with (2 + (dataSize - List.length written - 2))%nat by lia.
  replace (44 + Z.of_nat (List.length written))%Z
    with (Z.of_nat (List.length (header ++ written)))
    by (rewrite length_app, header_length; lia).
  rewrite DataView_set_append.
  assert (before ++ flat_map (sampleBytes p)
                      (take (Datatypes.S k) (seqZ 0 numOfChan))
          = written ++ sampleBytes p (Z.of_nat k)) as ->.
  { rewrite (take_S_r _ _ _ Hi), flat_map_app. cbn [flat_map].
    rewrite app_nil_r. unfold written. now rewrite app_assoc. }
  eexists. split; [reflexivity |].
  unfold Written. cbn [view offset pos].
  rewrite length_app.
  assert (List.length (sampleBytes p (Z.of_nat k)) = 2%nat) as Hs
    by apply length_littleEndian.
  rewrite Hs. split; [| split; [lia | reflexivity]].
  rewrite <- (app_assoc header). f_equal. f_equal. lia.
Qed.

Lemma writeFrame_bytes (p : Z) (before : list Z) (w : WavWriter) :
  (44 <= p < len)%Z ->
  Z.of_nat (List.length before) = (2 * numOfChan * (p - 44))%Z ->
  Written before p w ->
  exists w',
    writeFrame channels numOfChan w = (Ok tt, w') /\
    Written (before ++ frameBytes buffer p) (p + 1) w'.
Proof.
  intros Hp Hbefore Hw. unfold writeFrame.
  destruct (forM_invariant (writeSample channels)
              (fun k w =>
                 Written (before ++ flat_map (sampleBytes p)
                                      (take k (seqZ 0 numOfChan))) p w)
              (seqZ 0 numOfChan) 0 w) as (w1 & Hrun & Hw1).
  - cbn [take flat_map]. now rewrite app_nil_r.
  - intros k i s Hk Hs. cbn [Nat.add] in *.
    now apply (writeSample_bytes p k i before s).
  - rewrite (bind_Ok _ _ _ _ _ Hrun).
    eexists. split; [reflexivity |].
    cbn [Nat.add] in Hw1. rewrite firstn_all in Hw1.
    destruct Hw1 as (Hview & Hoff & Hpos).
    unfold Written. cbn [view offset pos].
    split; [exact Hview | split; [exact Hoff | now rewrite Hpos]].
Qed.

(** The loop over the frames, from the end of the header on: it appends
    the bytes of the frames 44, 45, ... up to the last one, and stops. *)
Lemma dataLoop_bytes (w : WavWriter) :
  view w = header ++ replicate dataSize 0%Z ->
  offset w = 0%Z -> pos w = 44%Z ->
  exists w',
    whileM (Z.to_nat (len - pos w)) (fun w => (pos w <? len)%Z)
      (writeFrame channels numOfChan) w = (Ok tt, w') /\
    view w' = header ++ wavData buffer.
Proof.
  intros Hview Hoff Hpos.
  set (Inv := fun w : WavWriter =>
         (44 <= pos w <= Z.max 44 len)%Z /\
         Written (flat_map (frameBytes buffer) (seqZ 44 (pos w - 44))) (pos w) w).
  destruct (whileM_total (fun w => (pos w <? len)%Z)
              (writeFrame channels numOfChan) Inv
              (fun w => Z.to_nat (len - pos w)))
    with (fuel := Z.to_nat (len - pos w)) (s := w)
    as (w' & Hrun & [Hrange Hw'] & Hexit).
  - intros s [Hrange Hs] Hc. apply Z.ltb_lt in Hc.
    assert (Z.of_nat (List.length (flat_map (frameBytes buffer)
                                     (seqZ 44 (pos s - 44)))) =
            2 * numOfChan * (pos s - 44))%Z as Hlen.
    { rewrite length_frames, length_seqZ by exact numOfChan_nonneg.
      rewrite Z2Nat.id by lia. reflexivity. }
    destruct (writeFrame_bytes (pos s) _ s ltac:(lia) Hlen Hs)
      as (s' & Hs' & Hw).
    exists s'. split; [exact Hs' |].
    assert (pos s' = pos s + 1)%Z as Hp by (destruct Hw as (_ & _ & Hp); exact Hp).
    split; [| lia]. split; [lia |]. rewrite Hp.
    replace (pos s + 1 - 44)%Z with ((pos s - 44) + 1)%Z by lia.
    rewrite seqZ_app, flat_map_app by lia.
    replace (seqZ (44 + (pos s - 44)) 1) with [pos s]
      by (rewrite seqZ_cons, seqZ_nil by lia; f_equal; lia).
    cbn [flat_map]. rewrite app_nil_r. exact Hw.
  - split; [lia |]. unfold Written. rewrite Hpos.
    change (seqZ 44 (44 - 44)) with (@nil Z). cbn [flat_map List.length].
    rewrite app_nil_r, Nat.sub_0_r. auto.
  - lia.
  - exists w'. split; [exact Hrun |].
    apply Z.ltb_ge in Hexit.
    destruct Hw' as (Hv & _ & _). rewrite Hv, <- app_assoc. f_equal.
    unfold wavData. fold len numOfChan.
    assert (pos w' = Z.max 44 len) as Hp by lia.
    assert (seqZ 44 (pos w' - 44) = seqZ 44 (len - 44)) as ->.
    { destruct (Z_lt_le_dec len 44).
      - rewrite !seqZ_nil by lia. reflexivity.
      - f_equal. lia. }
    f_equal. f_equal.
    apply Nat2Z.inj. rewrite Nat2Z.inj_sub.
    + rewrite length_frames, length_seqZ by exact numOfChan_nonneg.
      fold numOfChan. unfold dataSize. nia.
    + apply Nat2Z.inj_le.
      rewrite length_frames, length_seqZ by exact numOfChan_nonneg.
      fold numOfChan. unfold dataSize. nia.
Qed.
End DataBytes.

(** [bufferToWav] in closed form: the header, then the data chunk. *)
Lemma bufferToWav_closed_form (buffer : AudioBuffer) :
  (0 <= buffer_length buffer)%Z -> (0 <= numberOfChannels buffer)%Z ->
  bufferToWav buffer =
  Ok {| blob_bytes :=
          wavHeader (numberOfChannels buffer) (sampleRate buffer)
            (buffer_length buffer * numberOfChannels buffer * 2 + 44)
          ++ wavData buffer;
        blob_type := "audio/wav" |}.
Proof.
  intros Hlen Hnc. unfold bufferToWav. cbv zeta.
  set (size := (buffer_length buffer * numberOfChannels buffer * 2 + 44)%Z).
  assert (0 <= buffer_length buffer * numberOfChannels buffer)%Z as Hprod by nia.
  replace (size <? 0)%Z with false by (symmetry; apply Z.ltb_ge; unfold size; lia).
  set (header := wavHeader (numberOfChannels buffer) (sampleRate buffer) size).
  set (m := Z.to_nat (2 * numberOfChannels buffer * buffer_length buffer)).
  replace (Z.to_nat size) with (44 + m)%nat by (unfold size, m; lia).
  erewrite bind_Ok by (apply writeHeader_run; reflexivity).
  fold header. cbn [offset].
  set (w1 := {| view := header ++ replicate m 0%Z; offset := 0; pos := 44 |}).
  erewrite bind_Ok by reflexivity.
  destruct (dataLoop_bytes buffer header Hlen Hnc (length_wavHeader _ _ _) w1
              eq_refl eq_refl eq_refl) as (w' & Hrun & Hview).
  erewrite bind_Ok by exact Hrun.
  erewrite bind_Ok by reflexivity.
  unfold ret. cbn [fst]. now rewrite Hview.
Qed.

(** A list of blocks of one length: the block at index [k]. *)
Lemma flat_map_block {A B} (g : A -> list B) (n : nat) (l : list A) :
  (forall y, List.length (g y) = n) ->
  forall k x, l !! k = Some x ->
    take n (drop (n * k) (flat_map g l)) = g x.
Proof.
  intros Hg. induction l as [| a l IH]; intros k x Hk; [discriminate |].
  cbn [flat_map]. destruct k as [| k].
  - injection Hk as ->. rewrite Nat.mul_0_r. cbn [drop].
    now apply take_app_length'.
  - replace (n * Datatypes.S k)%nat with (n + n * k)%nat by lia.
    rewrite drop_app_add' by (now rewrite Hg). now apply IH.
Qed.

Lemma length_flat_map_block {A B} (g : A -> list B) (n : nat) (l : list A) :
  (forall y, List.length (g y) = n) ->
  List.length (flat_map g l) = (n * List.length l)%nat.
Proof.
  intros Hg. induction l as [| a l IH]; cbn [flat_map List.length]; [lia |].
  rewrite length_app, Hg, IH. lia.
Qed.

Lemma getUint_littleEndian_2 (v : Z) :
  fold_right (fun b acc => (b + 256 * acc)%Z) 0%Z (littleEndian 2 v) =
  (v mod 2 ^ 16)%Z.
Proof.
  unfold littleEndian. cbn [seq map fold_right Z.of_nat].
  change (2 ^ 16)%Z with 65536%Z.
  change (256 ^ 0)%Z with 1%Z. change (256 ^ Z.of_nat 1)%Z with 256%Z.
  Z.div_mod_to_equations. lia.
Qed.

Lemma wrap_signed_16_small (z : Z) :
  (-32768 <= z <= 32767)%Z -> wrap_signed 16 z = z.
Proof.
  intros H. unfold wrap_signed. change (16 - 1)%Z with 15%Z.
  change (2 ^ 15)%Z with 32768%Z. change (2 ^ 16)%Z with 65536%Z.
  rewrite Z.mod_small; lia.
Qed.

(** What is stored for a sample reads back as the quantized sample. *)
Lemma getInt16_sample (x : Q) :
  wrap_signed 16
    (fold_right (fun b acc => (b + 256 * acc)%Z) 0%Z
       (littleEndian 2 (wrap_signed 16 (quantize x)))) = quantize x.
Proof.
  destruct (quantize_eq x) as [_ Hfit].
  rewrite getUint_littleEndian_2, (wrap_signed_16_small _ Hfit).
  unfold wrap_signed. change (16 - 1)%Z with 15%Z.
  change (2 ^ 15)%Z with 32768%Z. change (2 ^ 16)%Z with 65536%Z.
  Z.div_mod_to_equations. lia.
Qed.

(** The two bytes of the data chunk at the place of [frame] and
    [channel]. *)
Lemma wavData_sample (buffer : AudioBuffer) (frame channel : nat) :
  (Z.of_nat frame < buffer_length buffer)%Z ->
  (Z.of_nat channel < numberOfChannels buffer)%Z ->
  take 2 (drop (2 * (Z.to_nat (numberOfChannels buffer) * frame + channel))
            (wavData buffer)) =
  if (Z.of_nat frame + 44 <? buffer_length buffer)%Z
  then littleEndian 2
         (wrap_signed 16
            (quantize (getChannelData buffer (Z.of_nat channel)
                         (Z.of_nat frame + 44))))
  else [0; 0]%Z.
Proof.
  intros Hframe Hchannel. unfold wavData.
  set (nc := Z.to_nat (numberOfChannels buffer)).
  set (frames := seqZ 44 (buffer_length buffer - 44)).
  assert (forall p, List.length (frameBytes buffer p) = (2 * nc)%nat) as Hblock.
  { intros p. unfold frameBytes.
    rewrite (length_flat_map_block _ 2) by reflexivity.
    now rewrite length_seqZ. }
  assert (List.length (flat_map (frameBytes buffer) frames)
          = (2 * nc * Z.to_nat (buffer_length buffer - 44))%nat) as Hlen.
  { rewrite (length_flat_map_block _ (2 * nc)) by exact Hblock.
    unfold frames. now rewrite length_seqZ. }
  assert (channel < nc)%nat as Hc by (unfold nc; lia).
  destruct (Z.ltb_spec (Z.of_nat frame + 44) (buffer_length buffer)) as [Hin | Hout].
  - assert (frames !! frame = Some (Z.of_nat frame + 44)%Z) as Hf.
    { unfold frames. rewrite lookup_seqZ. split; lia. }
    replace (2 * (nc * frame + channel))%nat
      with (2 * nc * frame + 2 * channel)%nat by lia.
    rewrite <- drop_drop.
    rewrite (take_drop_prefix _ 2 (2 * channel) (2 * nc)) by lia.
    rewrite drop_app_le, take_app_le.
    + rewrite (flat_map_block _ (2 * nc) frames Hblock frame _ Hf).
      unfold frameBytes.
      apply (flat_map_block
               (fun i => littleEndian 2
                           (wrap_signed 16
                              (quantize (getChannelData buffer i
                                           (Z.of_nat frame + 44)))))
               2 (seqZ 0 (numberOfChannels buffer)) (fun _ => eq_refl)
               channel (Z.of_nat channel)).
      rewrite lookup_seqZ. split; lia.
    + rewrite length_drop, Hlen. nia.
    + rewrite Hlen. nia.
  - rewrite drop_app_ge by (rewrite Hlen; nia).
    rewrite drop_replicate, take_replicate, Hlen.
    replace (2 `min` _)%nat with 2%nat; [reflexivity |].
    apply eq_sym, Nat.min_l. nia.
Qed.

(** X1: for a buffer with a non-negative number of frames and of channels,
    [bufferToWav] returns a blob of type [audio/wav] whose bytes are the 44
    bytes of the header, then the interleaved 16-bit samples of the frames
    44, 45, ... up to the last one, then zeros for the space of 44 frames
    (of all the frames, when there are fewer than 44).  The loop over the
    frames counts with [pos], which the header writers have left at 44: the
    first 44 frames of the buffer are never written. *)
Theorem bufferToWav_bytes (buffer : AudioBuffer) :
  (0 <= buffer_length buffer)%Z -> (0 <= numberOfChannels buffer)%Z ->
  exists blob,
    bufferToWav buffer = Ok blob /\
    blob_type blob = "audio/wav"%string /\
    blob_bytes blob =
      wavHeader (numberOfChannels buffer) (sampleRate buffer)
        (buffer_length buffer * numberOfChannels buffer * 2 + 44)
      ++ flat_map (frameBytes buffer) (seqZ 44 (buffer_length buffer - 44))
      ++ replicate
           (Z.to_nat (2 * numberOfChannels buffer
                      * Z.min 44 (buffer_length buffer))) 0%Z.
Proof.
  intros Hlen Hnc. eexists. split; [now apply bufferToWav_closed_form |].
  split; reflexivity.
Qed.

(** On 46 mono frames with the values [1/64, 2/64, ...]: the header, the
    frames 44 and 45, and 88 bytes that stay zero. *)
Lemma bufferToWav_bytes_witness :
  let buffer :=
    bufferOfChannels 44100
      [map (fun k => inject_Z (Z.of_nat k) / 64) (seq 1 46)] in
  exists blob,
    bufferToWav buffer = Ok blob /\
    blob_bytes blob =
      wavHeader 1 44100 136
      ++ littleEndian 2 (quantize (45 / 64))
      ++ littleEndian 2 (quantize (46 / 64))
      ++ replicate 88 0%Z.
Proof.
  cbv zeta.
  destruct (bufferToWav_bytes
              (bufferOfChannels 44100
                 [map (fun k => inject_Z (Z.of_nat k) / 64) (seq 1 46)])
              ltac:(vm_compute; discriminate) ltac:(vm_compute; discriminate))
    as (blob & Hrun & _ & Hbytes).
  exists blob. split; [exact Hrun |]. rewrite Hbytes. vm_compute. reflexivity.
Defined.

(** X2: reading the output back.  The 16-bit sample of the data chunk at
    the place of frame [frame] and channel [channel] (byte offset
    [44 + 2 * (channels * frame + channel)]) is the quantized sample of
    frame [frame + 44] of that channel when the buffer has such a frame, and
    0 otherwise: the audio is shifted by 44 frames and ends with 44 frames
    of silence. *)
Theorem bufferToWav_sample_readback (buffer : AudioBuffer)
    (frame channel : nat) :
  (Z.of_nat frame < buffer_length buffer)%Z ->
  (Z.of_nat channel < numberOfChannels buffer)%Z ->
  exists blob,
    bufferToWav buffer = Ok blob /\
    DataView_getInt16 (blob_bytes blob)
      (44 + 2 * (Z.to_nat (numberOfChannels buffer) * frame + channel)) =
    if (Z.of_nat frame + 44 <? buffer_length buffer)%Z
    then quantize (getChannelData buffer (Z.of_nat channel)
                     (Z.of_nat frame + 44))
    else 0%Z.
Proof.
  intros Hframe Hchannel.
  eexists. split; [apply bufferToWav_closed_form; lia |].
  cbn [blob_bytes]. unfold DataView_getInt16, DataView_getUint16, getUint.
  rewrite drop_app_add' by (now rewrite length_wavHeader).
  rewrite (wavData_sample buffer frame channel Hframe Hchannel).
  destruct (Z.of_nat frame + 44 <? buffer_length buffer)%Z.
  - apply getInt16_sample.
  - reflexivity.
Qed.

(** On the 46 mono frames of above: the first sample of the file is frame
    44 of the buffer, and the third is silence. *)
Lemma bufferToWav_sample_readback_witness :
  let buffer :=
    bufferOfChannels 44100
      [map (fun k => inject_Z (Z.of_nat k) / 64) (seq 1 46)] in
  exists blob,
    bufferToWav buffer = Ok blob /\
    DataView_getInt16 (blob_bytes blob) 44 = quantize (45 / 64) /\
    DataView_getInt16 (blob_bytes blob) 48 = 0%Z.
Proof.
  cbv zeta.
  set (buffer := bufferOfChannels 44100
                   [map (fun k => inject_Z (Z.of_nat k) / 64) (seq 1 46)]).
  destruct (bufferToWav_sample_readback buffer 0 0
              ltac:(vm_compute; reflexivity) ltac:(vm_compute; reflexivity))
    as (blob & Hrun & H0).
  destruct (bufferToWav_sample_readback buffer 2 0
              ltac:(vm_compute; reflexivity) ltac:(vm_compute; reflexivity))
    as (blob' & Hrun' & H2).
  assert (blob' = blob) as -> by congruence.
  exists blob. split; [exact Hrun |]. split.
  - exact H0.
  - exact H2.
Defined.

(** X3: the header that [bufferToWav] writes for a buffer of any number of
    channels and any sample rate: the fields of the "fmt " chunk hold the
    number of channels, the rate, [rate * 2 * channels] bytes per second and
    a block of [channels * 2] bytes (each reduced to the width of its
    field); "data" stands at offsets 36 to 39 and the length field that
    follows holds the number of bytes after the header, modulo [2^32]: that
    is [frames * channels * 2], the true size of the data chunk, whenever it
    is below [2^32]. *)
Theorem wav_data_chunk_fields (buffer : AudioBuffer) :
  (0 <= buffer_length buffer)%Z -> (0 <= numberOfChannels buffer)%Z ->
  let numOfChan := numberOfChannels buffer in
  let rate := sampleRate buffer in
  let dataLength := (buffer_length buffer * numOfChan * 2)%Z in
  exists blob,
    bufferToWav buffer = Ok blob /\
    let bytes := blob_bytes blob in
    Z.of_nat (List.length (drop 44 bytes)) = dataLength /\
    DataView_getUint16 bytes 22 = ToUint16 numOfChan /\
    DataView_getUint32 bytes 24 = ToUint32 rate /\
    DataView_getUint32 bytes 28 = ToUint32 (rate * 2 * numOfChan) /\
    DataView_getUint16 bytes 32 = ToUint16 (numOfChan * 2) /\
    take 4 (drop 36 bytes) = asciiBytes "data" /\
    DataView_getUint32 bytes 40 = ToUint32 dataLength /\
    ((dataLength < 2 ^ 32)%Z -> DataView_getUint32 bytes 40 = dataLength).
Proof.
  intros Hlen Hnc numOfChan rate dataLength.
  destruct (bufferToWav_fields buffer Hlen Hnc)
    as (blob & Hrun & _ & Hsize & _ & _ & _ & _ & _ & _
        & Hchan & Hrate & Hbyte & Halign & _ & Hdata & Hfield).
  cbv zeta in *. fold numOfChan rate in Hsize, Hchan, Hrate, Hbyte, Halign.
  fold dataLength in Hsize.
  exists blob. split; [exact Hrun |].
  assert (0 <= dataLength)%Z as Hpos by (unfold dataLength, numOfChan; nia).
  replace (Z.of_nat (List.length (blob_bytes blob)) - 44)%Z
    with dataLength in Hfield by lia.
  split; [rewrite length_drop; lia |].
  repeat (split; [assumption |]).
  intros Hsmall. rewrite Hfield. apply Z.mod_small. lia.
Qed.

(** On three mono frames at 8,000 Hz. *)
Lemma wav_data_chunk_fields_witness :
  exists blob,
    bufferToWav (bufferOfChannels 8000 [[0; 1; -1]]) = Ok blob /\
    DataView_getUint16 (blob_bytes blob) 22 = 1%Z /\
    DataView_getUint32 (blob_bytes blob) 24 = 8000%Z /\
    DataView_getUint32 (blob_bytes blob) 40 = 6%Z.
Proof.
  destruct (wav_data_chunk_fields (bufferOfChannels 8000 [[0; 1; -1]])
              ltac:(vm_compute; discriminate) ltac:(vm_compute; discriminate))
    as (blob & Hrun & _ & Hchan & Hrate & _ & _ & _ & _ & Hfield).
  exists blob. split; [exact Hrun |].
  split; [exact Hchan |]. split; [exact Hrate |].
  apply Hfield. reflexivity.
Defined.

(** ** The quantization, for every sample *)

Lemma truncate_nonneg (q : Q) : 0 <= q -> truncate q = Qfloor q.
Proof.
  destruct q as [n d]. unfold Qle, truncate, Qfloor. simpl.
  rewrite Z.mul_1_r. intros H. apply Z.quot_div_nonneg; lia.
Qed.

Lemma truncate_nonpos (q : Q) : q <= 0 -> truncate q = Qceiling q.
Proof.
  destruct q as [n d]. unfold Qle, truncate, Qceiling, Qfloor. simpl.
  rewrite Z.mul_1_r. intros H.
  rewrite <- (Z.opp_involutive n) at 1. rewrite Z.quot_opp_l by lia.
  f_equal. apply Z.quot_div_nonneg; lia.
Qed.

(** Truncation toward zero keeps the order. *)
Lemma truncate_le (x y : Q) : x <= y -> (truncate x <= truncate y)%Z.
Proof.
  intros Hxy. destruct (Qlt_le_dec x 0) as [Hx | Hx].
  - rewrite (truncate_nonpos x) by lra.
    destruct (Qlt_le_dec y 0) as [Hy | Hy].
    + rewrite (truncate_nonpos y) by lra. now apply Qceiling_resp_le.
    + rewrite (truncate_nonneg y) by exact Hy.
      apply Z.le_trans with 0%Z.
      * change 0%Z with (Qceiling 0). apply Qceiling_resp_le. lra.
      * change 0%Z with (Qfloor 0). now apply Qfloor_resp_le.
  - rewrite (truncate_nonneg x), (truncate_nonneg y) by lra.
    now apply Qfloor_resp_le.
Qed.

Lemma truncate_inject_Z (z : Z) : truncate (inject_Z z) = z.
Proof. unfold truncate. simpl. apply Z.quot_1_r. Qed.

Lemma truncate_proper (x y : Q) : x == y -> truncate x = truncate y.
Proof.
  intros H. apply Z.le_antisymm; apply truncate_le; rewrite H; apply Qle_refl.
Qed.

Lemma clampSample_le (x y : Q) : x <= y -> clampSample x <= clampSample y.
Proof. intros H. unfold clampSample. minmax_cases; lra. Qed.

(** The number that line 66 truncates. *)
Lemma quantize_le (x y : Q) : x <= y -> (quantize x <= quantize y)%Z.
Proof.
  intros Hxy.
  destruct (quantize_eq x) as [-> _]. destruct (quantize_eq y) as [-> _].
  cbv zeta. pose proof (clampSample_le x y Hxy) as Hs.
  apply truncate_le.
  destruct (Qltb (clampSample x) (- (1 # 2))) eqn:Ex;
    destruct (Qltb (clampSample y) (- (1 # 2))) eqn:Ey;
    try apply Qltb_true in Ex; try apply Qltb_false in Ex;
    try apply Qltb_true in Ey; try apply Qltb_false in Ey; lra.
Qed.

(** X4: the quantization of line 66 always gives a 16-bit signed value, so
    that [setInt16] stores it unchanged; it saturates (32767 from 1 upwards,
    -32768 from -1 downwards), maps 0 to 0 and keeps the sign. *)
Theorem quantize_range (x : Q) :
  (-32768 <= quantize x <= 32767)%Z /\
  wrap_signed 16 (quantize x) = quantize x /\
  (1 <= x -> quantize x = 32767%Z) /\
  (x <= -1 -> quantize x = (-32768)%Z) /\
  (x == 0 -> quantize x = 0%Z) /\
  (0 <= x -> (0 <= quantize x)%Z) /\
  (x <= 0 -> (quantize x <= 0)%Z).
Proof.
  destruct (quantize_eq x) as [Heq Hfit]. cbv zeta in Heq.
  split; [exact Hfit |]. split; [exact (wrap_signed_16_small _ Hfit) |].
  assert (quantize 0 = 0%Z) as Hzero by reflexivity.
  split; [| split; [| split; [| split]]].
  - intros Hx. apply Z.le_antisymm; [lia |].
    change 32767%Z with (quantize 1). now apply quantize_le.
  - intros Hx. apply Z.le_antisymm; [| lia].
    change (-32768)%Z with (quantize (-1)). now apply quantize_le.
  - intros Hx. rewrite <- Hzero.
    apply Z.le_antisymm; apply quantize_le; lra.
  - intros Hx. rewrite <- Hzero. now apply quantize_le.
  - intros Hx. rewrite <- Hzero. now apply quantize_le.
Qed.

(** X5: the quantization keeps the order of the samples: a larger sample
    never gets a smaller 16-bit value (also across [-1/2], where the scale
    changes from 32768 to 32767). *)
Theorem quantize_monotone (x y : Q) :
  x <= y -> (quantize x <= quantize y)%Z.
Proof. exact (quantize_le x y). Qed.

Lemma quantize_monotone_witness :
  (quantize (- (1 # 2) - (1 # 32768)) <= quantize (- (1 # 2)))%Z.
Proof.
  apply (quantize_monotone (- (1 # 2) - (1 # 32768)) (- (1 # 2))).
  vm_compute. discriminate.
Defined.

(** ** The loudness analyzer and the gain planner, for every track *)

(** X6: [calculateRMS] reads one frame in four of the first channel and
    nothing else: two buffers of one length that agree on the frames 0, 4,
    8, ... of channel 0 get the same value, whatever the other three
    quarters of the channel and the other channels hold. *)
Theorem calculateRMS_sampled_frames_only (P : Platform)
    (buffer1 buffer2 : AudioBuffer) :
  buffer_length buffer1 = buffer_length buffer2 ->
  (forall k : Z, (0 <= k)%Z -> (4 * k < buffer_length buffer1)%Z ->
     getChannelData buffer1 0 (4 * k) = getChannelData buffer2 0 (4 * k)) ->
  calculateRMS P buffer1 = calculateRMS P buffer2.
Proof.
  intros Hlen Hsame. rewrite !calculateRMS_eq.
  assert (sampledFrames buffer1 = sampledFrames buffer2) as ->;
    [| now rewrite Hlen].
  unfold sampledFrames. rewrite <- Hlen.
  apply map_ext_in. intros k Hk. apply in_seq in Hk.
  apply Hsame; [lia |].
  pose proof (Z.div_mod (buffer_length buffer1 + 3) 4 ltac:(lia)).
  pose proof (Z.mod_pos_bound (buffer_length buffer1 + 3) 4 ltac:(lia)).
  lia.
Qed.

(** Two stereo buffers of five frames that differ on the frames 1 to 3 and
    on the whole second channel. *)
Lemma calculateRMS_sampled_frames_only_witness :
  calculateRMS examplePlatform
    (bufferOfChannels 44100 [[1; 0; 0; 0; 1]; [0; 0; 0; 0; 0]]) =
  calculateRMS examplePlatform
    (bufferOfChannels 44100 [[1; 1; -1; 1 # 2; 1]; [1; 1; 1; 1; 1]]).
Proof.
  apply (calculateRMS_sampled_frames_only examplePlatform
           (bufferOfChannels 44100 [[1; 0; 0; 0; 1]; [0; 0; 0; 0; 0]])
           (bufferOfChannels 44100 [[1; 1; -1; 1 # 2; 1]; [1; 1; 1; 1; 1]])).
  - reflexivity.
  - intros k Hk Hlt. cbn [buffer_length bufferOfChannels nth List.length] in Hlt.
    assert (k = 0 \/ k = 1)%Z as [-> | ->] by lia; reflexivity.
Defined.

(** X7: for a buffer whose length is a positive multiple of 4, [4 * m]
    frames, [calculateRMS] samples [m] frames and returns the root of the
    mean of their squares. *)
Theorem calculateRMS_mean_square (P : Platform) (buffer : AudioBuffer) (m : Z) :
  (0 < m)%Z -> buffer_length buffer = (4 * m)%Z ->
  List.length (sampledFrames buffer) = Z.to_nat m /\
  exists meanSquare,
    calculateRMS P buffer = Math_sqrt P meanSquare /\
    meanSquare == sumOfSquares (sampledFrames buffer) / inject_Z m.
Proof.
  intros Hm Hlen.
  assert (List.length (sampledFrames buffer) = Z.to_nat m) as Hcount.
  { unfold sampledFrames. rewrite length_map, length_seq, Hlen. f_equal.
    symmetry. apply Z.div_unique with (r := 3%Z); lia. }
  split; [exact Hcount |].
  eexists. split; [apply calculateRMS_eq |].
  rewrite (calculateRMS_multiple_of_4 buffer m Hm Hlen), Hcount.
  rewrite Z2Nat.id by lia. reflexivity.
Qed.

(** Eight frames: the frames 0 and 4 are sampled, the mean of their squares
    is [(1 + 1/4) / 2]. *)
Lemma calculateRMS_mean_square_witness :
  exists meanSquare,
    calculateRMS examplePlatform
      (bufferOfChannels 44100 [[1; 0; 0; 0; 1 # 2; 0; 0; 0]])
    = fixedPointSqrt meanSquare /\
    meanSquare == 5 # 8.
Proof.
  destruct (calculateRMS_mean_square examplePlatform
              (bufferOfChannels 44100 [[1; 0; 0; 0; 1 # 2; 0; 0; 0]]) 2
              ltac:(lia) eq_refl) as (_ & meanSquare & Hrms & Hmean).
  exists meanSquare. split; [exact Hrms |]. rewrite Hmean. reflexivity.
Defined.

(** X8: what the gain of step 3 achieves.  With normalization on, a track
    whose measured rms lies between 0.05 and 0.3 gets the gain that brings
    it to the target: [gain * rms = 0.15]; a quieter track (but not silent)
    gets the largest gain, 3, and stays below the target; a louder one gets
    the smallest, 0.5, and stays above. *)
Theorem gain_reaches_target (P : Platform) (opts : CreateDemoOptions)
    (decodedBuffers : list AudioBuffer) (k : nat) (buffer : AudioBuffer) :
  normalize opts = true ->
  decodedBuffers !! k = Some buffer ->
  let rms := calculateRMS P buffer in
  let gain := item (gainAdjustments P opts decodedBuffers) k in
  (0.05 <= rms /\ rms <= 0.3 -> gain * rms == 0.15) /\
  (0 < rms /\ rms <= 0.05 -> gain == 3 /\ gain * rms <= 0.15) /\
  (0.3 <= rms -> gain == 0.5 /\ 0.15 <= gain * rms).
Proof.
  intros Hn Hk rms gain. unfold gain.
  rewrite (item_gainAdjustments P opts decodedBuffers k buffer Hk).
  unfold trackGain. rewrite Hn. cbv zeta. fold rms.
  assert (forall r, 0 < r -> TARGET_RMS / r * r == 0.15) as Hratio.
  { intros r Hr. rewrite Qmult_comm. apply Qmult_div_r. lra. }
  split; [| split].
  - intros [Hlo Hhi]. rewrite (proj2 (Qltb_true 0 rms)) by lra.
    pose proof (Hratio rms ltac:(lra)) as H.
    assert (0.5 <= TARGET_RMS / rms)
      by (apply Qle_shift_div_l; unfold TARGET_RMS; lra).
    assert (TARGET_RMS / rms <= 3)
      by (apply Qle_shift_div_r; unfold TARGET_RMS; lra).
    destruct (Math_max_spec (TARGET_RMS / rms) 0.5) as [[? ->] | [? ->]];
      minmax_cases; first [lra | nra].
  - intros [Hlo Hhi]. rewrite (proj2 (Qltb_true 0 rms)) by lra.
    assert (3 <= TARGET_RMS / rms)
      by (apply Qle_shift_div_l; unfold TARGET_RMS; lra).
    destruct (Math_max_spec (TARGET_RMS / rms) 0.5) as [[? ->] | [? ->]];
      minmax_cases; split; first [lra | nra].
  - intros Hlo. rewrite (proj2 (Qltb_true 0 rms)) by lra.
    assert (TARGET_RMS / rms <= 0.5)
      by (apply Qle_shift_div_r; unfold TARGET_RMS; lra).
    pose proof (Hratio rms ltac:(lra)) as H'.
    destruct (Math_max_spec (TARGET_RMS / rms) 0.5) as [[? ->] | [? ->]];
      minmax_cases; split; first [lra | nra].
Qed.

(** A track of four frames with the rms 1/8 gets the gain 1.2. *)
Lemma gain_reaches_target_witness :
  let opts :=
    {| tracks := []; normalize := true; onProgress := false;
       segmentDuration := 25; fadeDuration := 0.5; silenceGap := 0.3;
       tagFile := None; tagInterval := 30 |} in
  let buffer := bufferOfChannels 44100 [[1 # 8; 0; 0; 0]] in
  item (gainAdjustments examplePlatform opts [buffer]) 0
  * calculateRMS examplePlatform buffer == 0.15.
Proof.
  cbv zeta.
  apply (gain_reaches_target examplePlatform
           {| tracks := []; normalize := true; onProgress := false;
              segmentDuration := 25; fadeDuration := 0.5; silenceGap := 0.3;
              tagFile := None; tagInterval := 30 |}
           [bufferOfChannels 44100 [[1 # 8; 0; 0; 0]]] 0
           (bufferOfChannels 44100 [[1 # 8; 0; 0; 0]]) eq_refl eq_refl).
  split; vm_compute; discriminate.
Defined.

(** ** The windows of the tracks on the timeline *)

Section Windows.
Variable P : Platform.
Variable opts : CreateDemoOptions.
Variable decodedBuffers : list AudioBuffer.

Let durations := trackDurations opts decodedBuffers.

(** The cursor of step 6 when it reaches track [k]: the play durations of
    the tracks before, and one gap after each of them, up to [1 / 300000] s
    for at most 1000 tracks and options of at most one hour. *)
Lemma cursorAt_close (k : nat) :
  (k <= List.length decodedBuffers)%nat ->
  (List.length decodedBuffers <= 1000)%nat ->
  0 <= segmentDuration opts <= 3600 ->
  0 <= silenceGap opts <= 3600 ->
  Forall (fun buffer => 0 <= duration buffer) decodedBuffers ->
  let exact :=
    sumOfPlayDurations opts (take k decodedBuffers)
    + silenceGap opts * inject_Z (Z.of_nat k) in
  0 <= cursorAt opts durations k <= 7210000 /\
  - (1 # 300000) <= cursorAt opts durations k - exact <= 1 # 300000.
Proof.
  intros Hk Hn [Hseg HsegB] [Hgap HgapB] Hdur exact.
  set (play := fun buffer : AudioBuffer =>
                 Math_min (duration buffer) (binary64 (segmentDuration opts))).
  assert (durations = map play decodedBuffers) as Hdurs
    by apply trackDurations_eq.
  assert (Forall (fun p => 0 <= p) durations) as Hplays.
  { rewrite Hdurs.
    eapply Forall_impl;
      [exact (playDurations_bounds opts decodedBuffers Hseg Hdur) |].
    intros p Hp. apply Hp. }
  assert (k <= List.length durations)%nat as Hk'
    by (rewrite Hdurs, length_map; exact Hk).
  pose proof (cursorAt_within opts durations k Hk' ltac:(lia) Hgap Hplays)
    as Hwithin.
  assert (take k durations = map play (take k decodedBuffers)) as Htake
    by (rewrite Hdurs; apply firstn_map).
  rewrite Htake in Hwithin.
  assert (Forall (fun buffer => 0 <= duration buffer) (take k decodedBuffers))
    as Hdur' by (apply Forall_take, Hdur).
  pose proof (sumOfPlayDurations_close opts (take k decodedBuffers) Hseg)
    as Hclose.
  pose proof (sumOfDurations_bounds _ _
                (playDurations_bounds opts (take k decodedBuffers) Hseg Hdur'))
    as Hsum.
  rewrite length_map in Hsum. cbv zeta in Hclose.
  rewrite length_take, Nat.min_l in Hclose, Hsum by exact Hk.
  pose proof (binary64_close (silenceGap opts) 3600 (conj Hgap HgapB)) as Hg.
  pose proof (binary64_close (segmentDuration opts) 3600 (conj Hseg HsegB))
    as Hs.
  pose proof (binary64_nonneg _ Hgap) as Hg0.
  pose proof (binary64_nonneg _ Hseg) as Hs0.
  assert (0 <= inject_Z (Z.of_nat k) <= 1000) as HK.
  { change 0 with (inject_Z 0). change 1000 with (inject_Z 1000).
    rewrite <- !Zle_Qle. lia. }
  assert (inject_Z (2 * Z.of_nat k + 1) == 2 * inject_Z (Z.of_nat k) + 1)
    as Hinj by (rewrite inject_Z_plus, inject_Z_mult; reflexivity).
  rewrite Hinj in Hwithin.
  unfold exact. fold play in Hclose, Hsum.
  set (K := inject_Z (Z.of_nat k)) in *.
  set (c := cursorAt opts durations k) in *.
  set (S64 := sumOfDurations _) in *.
  set (Sx := sumOfPlayDurations opts _) in *.
  set (g' := binary64 (silenceGap opts)) in *.
  set (s' := binary64 (segmentDuration opts)) in *.
  set (g := silenceGap opts) in *. set (s := segmentDuration opts) in *.
  unfold unitRoundoff in *.
  assert (0 <= g' <= 3601) as Hg' by lra.
  assert (0 <= s' <= 3601) as Hs' by lra.
  assert (K * s' <= 3601000) as HKs by nra.
  assert (0 <= K * g' <= 3601000) as HKg by nra.
  assert (K * ((1 # 9007199254740992) * s) <= 1 # 2000000000) as HKus by nra.
  assert (- (1 # 2000000000) <= K * g' - g * K <= 1 # 2000000000) as HKg'
    by nra.
  assert (0 <= S64 + K * g' <= 7202000) as HC by lra.
  assert (0 <= (2 * K + 1) * (1 # 9007199254740992)) as Heps0 by lra.
  pose proof (within_close _ _ _ _ Heps0 HC Hwithin) as Hclose'.
  assert ((2 * K + 1) * (1 # 9007199254740992) * 7202000 <= 1 # 310000)
    as Heps by lra.
  assert (0 <= c) as Hc.
  { eapply within_nonneg; [| exact (proj1 HC) | exact Hwithin]. lra. }
  split; split; lra.
Qed.

Lemma sumOfPlayDurations_nonneg (l : list AudioBuffer) :
  0 <= segmentDuration opts ->
  Forall (fun buffer => 0 <= duration buffer) l ->
  0 <= sumOfPlayDurations opts l.
Proof.
  intros Hseg Hall. induction Hall as [| b l Hb _ IH].
  - unfold sumOfPlayDurations. simpl. lra.
  - unfold sumOfPlayDurations in *. simpl. minmax_cases; lra.
Qed.

(** The play duration that the code holds for a track, against
    [min (duration, segmentDuration)]. *)
Lemma playDuration_close (buffer : AudioBuffer) :
  0 <= segmentDuration opts <= 3600 -> 0 <= duration buffer ->
  let play :=
    Math_min (duration buffer) (binary64 (segmentDuration opts)) in
  0 <= play <= 3601 /\
  - (1 # 1000000000)
  <= play - Math_min (duration buffer) (segmentDuration opts)
  <= 1 # 1000000000.
Proof.
  intros [Hseg HsegB] Hd play.
  pose proof (binary64_close (segmentDuration opts) 3600 (conj Hseg HsegB))
    as Hs.
  pose proof (binary64_nonneg _ Hseg) as Hs0.
  unfold unitRoundoff in Hs. unfold play.
  destruct (Math_min_spec (duration buffer) (binary64 (segmentDuration opts)))
    as [[H1 ->] | [H1 ->]];
    destruct (Math_min_spec (duration buffer) (segmentDuration opts))
      as [[H2 ->] | [H2 ->]]; split; split; lra.
Qed.

(** The source scheduled for track [k]. *)
Lemma trackSources_window (k : nat) (source : BufferSource) :
  trackSources P opts decodedBuffers !! k = Some source ->
  exists buffer,
    decodedBuffers !! k = Some buffer /\
    source_buffer source = buffer /\
    source_start source = cursorAt opts durations k /\
    source_stop source =
      Some (cursorAt opts durations k
            + Math_min (duration buffer) (binary64 (segmentDuration opts))).
Proof.
  intros Hsource. rewrite trackSources_lookup in Hsource.
  destruct (decodedBuffers !! k) as [buffer |] eqn:Hk; [| discriminate].
  simpl in Hsource. injection Hsource as <-.
  exists buffer. split; [reflexivity |]. split; [reflexivity |].
  split; [reflexivity |]. unfold scheduleTrack. cbn [source_stop].
  fold durations.
  unfold durations at 2.
  now rewrite (item_trackDurations opts decodedBuffers k buffer Hk).
Qed.

(** The step of the cursor from a track to the next, against
    [stop + silenceGap]. *)
Lemma cursorAt_step (k : nat) (buffer : AudioBuffer) :
  decodedBuffers !! k = Some buffer ->
  0 <= cursorAt opts durations k <= 7210000 ->
  0 <= segmentDuration opts <= 3600 ->
  0 <= silenceGap opts <= 3600 ->
  0 <= duration buffer ->
  let stop :=
    cursorAt opts durations k
    + Math_min (duration buffer) (binary64 (segmentDuration opts)) in
  - (1 # 1000000000)
  <= cursorAt opts durations (Datatypes.S k) - (stop + silenceGap opts)
  <= 1 # 1000000000.
Proof.
  intros Hk Hc Hseg [Hgap HgapB] Hd stop.
  destruct (playDuration_close buffer Hseg Hd) as [Hp _]. cbv zeta in Hp.
  assert (item durations k
          = Math_min (duration buffer) (binary64 (segmentDuration opts)))
    as Hitem by (apply item_trackDurations; exact Hk).
  rewrite cursorAt_S, Hitem. unfold stop.
  set (c := cursorAt opts durations k) in *.
  set (p := Math_min (duration buffer) (binary64 (segmentDuration opts))) in *.
  pose proof (binary64_close (silenceGap opts) 3600 (conj Hgap HgapB)) as Hg.
  pose proof (binary64_nonneg _ Hgap) as Hg0.
  set (g' := binary64 (silenceGap opts)) in *.
  unfold unitRoundoff in Hg.
  assert (0 <= p + g' <= 7202) as Hy by lra.
  pose proof (binary64_close (p + g') 7202 Hy) as Hy'.
  pose proof (binary64_nonneg _ (proj1 Hy)) as Hy0.
  set (y := binary64 (p + g')) in *.
  unfold unitRoundoff in Hy'.
  assert (0 <= c + y <= 7220000) as Hz by lra.
  pose proof (binary64_close (c + y) 7220000 Hz) as Hz'.
  unfold unitRoundoff in Hz'. lra.
Qed.
End Windows.

(** X9: the tracks play one after the other, in the order of the list.  The
    source of track [k] plays the buffer of track [k]; within one frame
    ([1 / 44100] s) it starts when the tracks before it have played, with one
    gap after each of them (the first track starts at 0 exactly), it stops
    [min (duration, segmentDuration)] later, and the next track starts
    [silenceGap] after that stop; with a gap of one frame or more the next
    track starts after that stop.  The times are sums of binary64 numbers;
    the bounds are proved for at most 1000 tracks and for a segment duration
    and a gap between 0 and one hour. *)
Theorem track_windows_sequential (P : Platform) (opts : CreateDemoOptions)
    (decodedBuffers : list AudioBuffer) (k : nat) (source : BufferSource) :
  (List.length decodedBuffers <= 1000)%nat ->
  0 <= segmentDuration opts <= 3600 ->
  0 <= silenceGap opts <= 3600 ->
  Forall (fun buffer => 0 <= duration buffer) decodedBuffers ->
  trackSources P opts decodedBuffers !! k = Some source ->
  exists buffer stop,
    decodedBuffers !! k = Some buffer /\
    source_buffer source = buffer /\
    source_stop source = Some stop /\
    Qabs (source_start source
          - (sumOfPlayDurations opts (take k decodedBuffers)
             + silenceGap opts * inject_Z (Z.of_nat k))) <= oneFrame /\
    (k = 0%nat -> source_start source == 0) /\
    Qabs (stop
          - (source_start source
             + Math_min (duration buffer) (segmentDuration opts)))
    <= oneFrame /\
    (forall next,
       trackSources P opts decodedBuffers !! Datatypes.S k = Some next ->
       Qabs (source_start next - (stop + silenceGap opts)) <= oneFrame /\
       (oneFrame <= silenceGap opts -> stop < source_start next)).
Proof.
  intros Hn Hseg Hgap Hdur Hsource.
  destruct (trackSources_window P opts decodedBuffers k source Hsource)
    as (buffer & Hk & Hbuf & Hstart & Hstop).
  exists buffer. eexists. split; [exact Hk |]. split; [exact Hbuf |].
  split; [exact Hstop |].
  assert (k < List.length decodedBuffers)%nat as Hlt
    by (now apply lookup_lt_Some in Hk).
  assert (0 <= duration buffer) as Hd
    by exact (Forall_lookup_1 _ _ _ _ Hdur Hk).
  destruct (cursorAt_close opts decodedBuffers k ltac:(lia) Hn Hseg Hgap Hdur)
    as [Hc Hclose].
  destruct (playDuration_close opts buffer Hseg Hd) as [_ Hplay].
  cbv zeta in Hplay.
  split; [| split; [| split]].
  - rewrite Hstart. apply Qabs_Qle_condition. unfold oneFrame. split; lra.
  - intros ->. rewrite Hstart. reflexivity.
  - rewrite Hstart. apply Qabs_Qle_condition. unfold oneFrame. split; lra.
  - intros next Hnext.
    destruct (trackSources_window P opts decodedBuffers _ next Hnext)
      as (_ & _ & _ & -> & _).
    pose proof (cursorAt_step opts decodedBuffers k buffer Hk Hc Hseg Hgap Hd)
      as Hstep.
    cbv zeta in Hstep. split.
    + apply Qabs_Qle_condition. unfold oneFrame. split; lra.
    + unfold oneFrame. intros Hframe. lra.
Qed.

(** Three tracks of 0.5 s, 1.5 s and 0.5 s with the defaults: the second
    stops at 2.3 s, and the third starts a gap later, up to one frame (the
    code holds 2.6 for that start). *)
Lemma track_windows_sequential_witness :
  let sources :=
    trackSources examplePlatform (defaultOptions [])
      [silence 2 22050; silence 2 66150; silence 2 22050] in
  exists second third stop,
    sources !! 1%nat = Some second /\ sources !! 2%nat = Some third /\
    source_stop second = Some stop /\
    Qabs (source_start third - (stop + 0.3)) <= oneFrame /\
    stop < source_start third.
Proof.
  cbv zeta.
  set (buffers := [silence 2 22050; silence 2 66150; silence 2 22050]).
  destruct (trackSources examplePlatform (defaultOptions []) buffers !! 1%nat)
    as [second |] eqn:H1; [| discriminate H1].
  destruct (trackSources examplePlatform (defaultOptions []) buffers !! 2%nat)
    as [third |] eqn:H2; [| discriminate H2].
  destruct (track_windows_sequential examplePlatform (defaultOptions [])
              buffers 1 second
              ltac:(simpl; lia)
              ltac:(split; vm_compute; discriminate)
              ltac:(split; vm_compute; discriminate)
              ltac:(repeat constructor; vm_compute; discriminate) H1)
    as (buffer & stop & _ & _ & Hstop & _ & _ & _ & Hnext).
  exists second, third, stop. split; [reflexivity |]. split; [reflexivity |].
  split; [exact Hstop |].
  destruct (Hnext third H2) as [Hclose Hlt].
  split; [exact Hclose |]. apply Hlt. vm_compute. discriminate.
Defined.

(** X10: nothing is scheduled outside the rendered duration, up to one
    frame ([1 / 44100] s).  With a gap, a segment cap and track durations
    that are not negative, every track starts at 0 or later and stops at
    most one frame after the total duration, and the last track stops within
    one frame of the total duration: the rendering ends with the last track,
    with no gap after it.  The times are sums of binary64 numbers; the
    bounds are proved for at most 1000 tracks and for a segment duration and
    a gap of at most one hour. *)
Theorem track_windows_within_total (P : Platform) (opts : CreateDemoOptions)
    (decodedBuffers : list AudioBuffer) (k : nat) (source : BufferSource) :
  (List.length decodedBuffers <= 1000)%nat ->
  0 <= silenceGap opts <= 3600 ->
  0 <= segmentDuration opts <= 3600 ->
  Forall (fun buffer => 0 <= duration buffer) decodedBuffers ->
  trackSources P opts decodedBuffers !! k = Some source ->
  exists stop,
    source_stop source = Some stop /\
    0 <= source_start source /\
    source_start source <= stop /\
    stop <= totalOutputDuration opts decodedBuffers + oneFrame /\
    (Datatypes.S k = List.length decodedBuffers ->
     Qabs (stop - totalOutputDuration opts decodedBuffers) <= oneFrame).
Proof.
  intros Hn Hgap Hseg Hdur Hsource.
  destruct (trackSources_window P opts decodedBuffers k source Hsource)
    as (buffer & Hk & _ & Hstart & Hstop).
  eexists. split; [exact Hstop |]. rewrite Hstart.
  assert (k < List.length decodedBuffers)%nat as Hlt
    by (now apply lookup_lt_Some in Hk).
  assert (0 <= duration buffer) as Hd
    by exact (Forall_lookup_1 _ _ _ _ Hdur Hk).
  destruct (cursorAt_close opts decodedBuffers k ltac:(lia) Hn Hseg Hgap Hdur)
    as [Hc Hcursor].
  destruct (playDuration_close opts buffer Hseg Hd) as [Hp Hplay].
  destruct (totalOutputDuration_close opts decodedBuffers Hn Hseg Hgap Hdur)
    as [_ Htotal].
  cbv zeta in Hplay, Hp, Htotal.
  assert (sumOfPlayDurations opts decodedBuffers
          == sumOfPlayDurations opts (take k decodedBuffers)
             + (Math_min (duration buffer) (segmentDuration opts)
                + sumOfPlayDurations opts (drop (Datatypes.S k) decodedBuffers)))
    as Hsplit.
  { rewrite <- (take_drop_middle decodedBuffers k buffer Hk) at 1.
    rewrite sumOfPlayDurations_app.
    unfold sumOfPlayDurations at 2. cbn [fold_right].
    fold (sumOfPlayDurations opts (drop (Datatypes.S k) decodedBuffers)).
    reflexivity. }
  rewrite Hsplit in Htotal.
  assert (0 <= sumOfPlayDurations opts (drop (Datatypes.S k) decodedBuffers))
    as Hafter
    by (apply sumOfPlayDurations_nonneg; [apply Hseg | now apply Forall_drop]).
  assert (0 <= inject_Z (Z.of_nat k)) as Hk0
    by (change 0 with (inject_Z 0); rewrite <- Zle_Qle; lia).
  assert (inject_Z (Z.of_nat k)
          <= inject_Z (Z.max 0 (Z.of_nat (List.length decodedBuffers) - 1)))
    as Hk1 by (rewrite <- Zle_Qle; lia).
  destruct Hgap as [Hgap HgapB].
  unfold oneFrame.
  split; [lra |]. split; [lra |]. split; [nra |].
  intros Hlast. apply Qabs_Qle_condition.
  assert (drop (Datatypes.S k) decodedBuffers = []) as Hnil
    by (apply drop_ge; lia).
  rewrite Hnil in Htotal.
  replace (Z.max 0 (Z.of_nat (List.length decodedBuffers) - 1))
    with (Z.of_nat k) in Htotal by lia.
  change (sumOfPlayDurations opts []) with 0 in Htotal. split; lra.
Qed.

(** Three tracks of 1 s with the defaults: the last one stops within one
    frame of the total duration (the code holds 3.6 for that stop and
    3.5999999999999996 for the total). *)
Lemma track_windows_within_total_witness :
  let buffers := [silence 2 44100; silence 2 44100; silence 2 44100] in
  exists source stop,
    trackSources examplePlatform (defaultOptions []) buffers !! 2%nat
    = Some source /\
    source_stop source = Some stop /\
    Qabs (stop - totalOutputDuration (defaultOptions []) buffers) <= oneFrame.
Proof.
  cbv zeta.
  set (buffers := [silence 2 44100; silence 2 44100; silence 2 44100]).
  destruct (trackSources examplePlatform (defaultOptions []) buffers !! 2%nat)
    as [source |] eqn:H2; [| discriminate H2].
  destruct (track_windows_within_total examplePlatform (defaultOptions [])
              buffers 2 source
              ltac:(simpl; lia)
              ltac:(split; vm_compute; discriminate)
              ltac:(split; vm_compute; discriminate)
              ltac:(repeat constructor; vm_compute; discriminate) H2)
    as (stop & Hstop & _ & _ & _ & Hlast).
  exists source, stop. split; [reflexivity |]. split; [exact Hstop |].
  apply Hlast. reflexivity.
Defined.

(** The values on those examples: the third start is 2.6, which is not
    the stop of the second track plus the gap; and the last stop is 3.6,
    above the total 3.5999999999999996. *)
Example track_windows_values :
  (exists second third stop,
     trackSources examplePlatform (defaultOptions [])
       [silence 2 22050; silence 2 66150; silence 2 22050] !! 1%nat
     = Some second /\
     trackSources examplePlatform (defaultOptions [])
       [silence 2 22050; silence 2 66150; silence 2 22050] !! 2%nat
     = Some third /\
     source_stop second = Some stop /\
     source_start third == binary64 2.6 /\
     ~ source_start third == stop + 0.3) /\
  (exists last stop,
     trackSources examplePlatform (defaultOptions [])
       [silence 2 44100; silence 2 44100; silence 2 44100] !! 2%nat
     = Some last /\
     source_stop last = Some stop /\
     stop == binary64 3.6 /\
     totalOutputDuration (defaultOptions [])
       [silence 2 44100; silence 2 44100; silence 2 44100]
     < stop).
Proof.
  split.
  - do 3 eexists. split; [reflexivity |]. split; [reflexivity |].
    split; [reflexivity |]. split; vm_compute; congruence.
  - do 2 eexists. split; [reflexivity |]. split; [reflexivity |].
    split; vm_compute; congruence.
Qed.

(** ** The envelope of a track, at every time *)

Lemma ramp_fraction (fadeStart endTime t : Q) :
  fadeStart <= t -> t < endTime ->
  0 <= (t - fadeStart) / (endTime - fadeStart) /\
  (t - fadeStart) / (endTime - fadeStart) < 1.
Proof.
  intros Hlo Hhi. split.
  - apply Qle_shift_div_l; lra.
  - apply Qlt_shift_div_r; lra.
Qed.

Lemma ramp_fraction_le (fadeStart endTime t1 t2 : Q) :
  fadeStart < endTime -> t1 <= t2 ->
  (t1 - fadeStart) / (endTime - fadeStart)
  <= (t2 - fadeStart) / (endTime - fadeStart).
Proof.
  intros Hd Ht. unfold Qdiv. apply Qmult_le_compat_r; [lra |].
  apply Qinv_le_0_compat. lra.
Qed.

(** X11: the fade never boosts.  With a fade duration, a segment cap and
    track durations that are not negative, the two automation events of a
    track's gain are called in the order of their times (the hold at
    [fadeStart], then the ramp to 0 at the end of the window), so that the
    gain is the one of the Web Audio rules; at every time it lies between 0
    and the gain planned for the track, which is at most 3, and it never
    rises again: a later time never has a larger gain. *)
Theorem fade_never_boosts (P : Platform) (opts : CreateDemoOptions)
    (decodedBuffers : list AudioBuffer) (k : nat) (source : BufferSource) :
  0 <= fadeDuration opts ->
  0 <= segmentDuration opts ->
  Forall (fun buffer => 0 <= duration buffer) decodedBuffers ->
  trackSources P opts decodedBuffers !! k = Some source ->
  let gain := gain_value (source_gain source) in
  (exists held fadeStart windowEnd,
     gain_events (source_gain source) =
       [SetValueAtTime held fadeStart; LinearRampToValueAtTime 0 windowEnd] /\
     fadeStart <= windowEnd) /\
  gain <= 3 /\
  (forall t, 0 <= gainAt (source_gain source) t /\
             gainAt (source_gain source) t <= gain) /\
  (forall t1 t2, t1 <= t2 ->
     gainAt (source_gain source) t2 <= gainAt (source_gain source) t1).
Proof.
  intros Hfade Hseg Hdur Hsource gain.
  rewrite trackSources_lookup in Hsource.
  destruct (decodedBuffers !! k) as [buffer |] eqn:Hk; [| discriminate].
  simpl in Hsource. injection Hsource as <-.
  split.
  { assert (0 <= item (trackDurations opts decodedBuffers) k) as Hplay.
    { rewrite (item_trackDurations opts decodedBuffers k buffer Hk).
      assert (0 <= duration buffer)
        by exact (Forall_lookup_1 _ _ _ _ Hdur Hk).
      pose proof (binary64_nonneg _ Hseg). minmax_cases; lra. }
    do 3 eexists. split; [reflexivity |]. minmax_cases; lra. }
  set (durations := trackDurations opts decodedBuffers) in *.
  set (gains := gainAdjustments P opts decodedBuffers) in *.
  set (cursor := cursorAt opts durations k) in *.
  pose proof (gainAt_scheduleTrack opts gains durations buffer k cursor) as Hgain.
  cbv zeta in Hgain. fold gain in Hgain.
  set (endTime := cursor + item durations k) in *.
  set (fadeStart := Math_max cursor (endTime - fadeDuration opts)) in *.
  assert (0 <= gain /\ gain <= 3) as [Hpos Hmax].
  { unfold gain, scheduleTrack. cbn [source_gain gain_value].
    destruct (normalize opts) eqn:Hn; [| lra].
    unfold gains. rewrite (item_gainAdjustments P opts decodedBuffers k buffer Hk).
    pose proof (trackGain_bounds P opts buffer Hn). lra. }
  assert (forall t, 0 <= gainAt (source_gain
                                   (scheduleTrack opts gains durations buffer k cursor)) t
                    /\ gainAt (source_gain
                                 (scheduleTrack opts gains durations buffer k cursor)) t
                       <= gain) as Hbounds.
  { intros t. rewrite Hgain.
    destruct (Qltb t fadeStart) eqn:E1; [lra |].
    destruct (Qltb t endTime) eqn:E2; [| lra].
    apply Qltb_false in E1. apply Qltb_true in E2.
    pose proof (ramp_fraction fadeStart endTime t E1 E2) as [H0 H1].
    set (r := (t - fadeStart) / (endTime - fadeStart)) in *.
    split; nra. }
  split; [exact Hmax |]. split; [exact Hbounds |].
  intros t1 t2 Ht.
  pose proof (Hbounds t1) as [Hlo1 Hhi1]. pose proof (Hbounds t2) as [Hlo2 Hhi2].
  rewrite Hgain in Hlo1, Hhi1, Hlo2, Hhi2 |- *. rewrite (Hgain t1).
  destruct (Qltb t1 fadeStart) eqn:E1; [exact Hhi2 |].
  apply Qltb_false in E1.
  rewrite (proj2 (Qltb_false t2 fadeStart)) in * by lra.
  destruct (Qltb t2 endTime) eqn:E2; [| exact Hlo1].
  apply Qltb_true in E2.
  rewrite (proj2 (Qltb_true t1 endTime)) in * by lra.
  pose proof (ramp_fraction_le fadeStart endTime t1 t2 ltac:(lra) Ht) as Hle.
  set (r1 := (t1 - fadeStart) / (endTime - fadeStart)) in *.
  set (r2 := (t2 - fadeStart) / (endTime - fadeStart)) in *.
  nra.
Qed.

(** On a single 10 s track with the defaults: the gain at 9.9 s is not
    above the gain at 9.6 s, which is not above 1. *)
Lemma fade_never_boosts_witness :
  exists source,
    trackSources examplePlatform (defaultOptions []) [silence 2 441000] !! 0%nat
    = Some source /\
    gainAt (source_gain source) 9.9 <= gainAt (source_gain source) 9.6 /\
    gainAt (source_gain source) 9.6 <= 1.
Proof.
  set (source := scheduleTrack (defaultOptions [])
                   (gainAdjustments examplePlatform (defaultOptions [])
                      [silence 2 441000])
                   (trackDurations (defaultOptions []) [silence 2 441000])
                   (silence 2 441000) 0 0).
  exists source.
  destruct (fade_never_boosts examplePlatform (defaultOptions [])
              [silence 2 441000] 0 source
              ltac:(vm_compute; discriminate) ltac:(vm_compute; discriminate)
              ltac:(repeat constructor; vm_compute; discriminate) eq_refl)
    as (_ & _ & Hbounds & Hmono).
  split; [reflexivity |]. split.
  - apply Hmono. vm_compute. discriminate.
  - apply (Hbounds 9.6).
Defined.

(** ** The number of watermarks *)



(** ** The calls of [createDemoMix], in order *)

Section Calls.
Variable P : Platform.
Variable opts : CreateDemoOptions.

Lemma progress_log (percent : Z) (log : Log) :
  progress opts percent log = (Ok tt, log ++ progressLog opts percent).
Proof.
  unfold progress, progressLog. destruct (onProgress opts).
  - reflexivity.
  - unfold ret. now rewrite app_nil_r.
Qed.

(** One pass of the decode loop, on a track that decodes and on one that
    does not. *)
Lemma decodeTracks_step_Ok (totalTracks i : Z) (track : AudioTrack)
    (rest : list AudioTrack) (buffer : AudioBuffer)
    (decodedBuffers : list AudioBuffer) (log : Log) :
  decodeAudioData P (file track) = Some buffer ->
  decodeTracks P opts totalTracks i (track :: rest) decodedBuffers log =
  decodeTracks P opts totalTracks (i + 1) rest (decodedBuffers ++ [buffer])
    (log ++ progressLog opts
              (10 + Math_floor (inject_Z i / inject_Z totalTracks * 30))%Z
         ++ [DecodeAudioData (file track)]).
Proof.
  intros Hd. cbn [decodeTracks]. unfold bind at 1.
  unfold try_catch. rewrite (bind_Ok _ _ _ _ _ (progress_log _ log)).
  unfold decodeAudio, bind, emit, modify, ret. rewrite Hd.
  now rewrite <- app_assoc.
Qed.

Lemma decodeTracks_step_Throw (totalTracks i : Z) (track : AudioTrack)
    (rest : list AudioTrack) (decodedBuffers : list AudioBuffer) (log : Log) :
  decodeAudioData P (file track) = None ->
  decodeTracks P opts totalTracks i (track :: rest) decodedBuffers log =
  (Throw (Error ("Could not decode audio file: " ++ name track)%string),
   log ++ progressLog opts
             (10 + Math_floor (inject_Z i / inject_Z totalTracks * 30))%Z
       ++ [DecodeAudioData (file track);
           ConsoleError ("Failed to decode " ++ name track)%string]).
Proof.
  intros Hd. cbn [decodeTracks]. unfold bind at 1.
  unfold try_catch. rewrite (bind_Ok _ _ _ _ _ (progress_log _ log)).
  unfold decodeAudio, bind, emit, modify, throw. rewrite Hd.
  now rewrite <- !app_assoc.
Qed.

Lemma decodeLog_app (totalTracks i : Z) (l1 l2 : list AudioTrack) :
  decodeLog opts totalTracks i (l1 ++ l2) =
  decodeLog opts totalTracks i l1
  ++ decodeLog opts totalTracks (i + Z.of_nat (List.length l1)) l2.
Proof.
  revert i. induction l1 as [| track l1 IH]; intros i.
  - cbn [app decodeLog List.length Z.of_nat]. now rewrite Z.add_0_r.
  - cbn [app decodeLog List.length]. rewrite IH, <- app_assoc. cbn [app].
    replace (i + Z.of_nat (Datatypes.S (List.length l1)))%Z
      with (i + 1 + Z.of_nat (List.length l1))%Z by lia.
    reflexivity.
Qed.

(** The decode loop when every track decodes. *)
Lemma decodeTracks_log_success (totalTracks : Z) (rest : list AudioTrack)
    (buffers : list AudioBuffer) :
  Forall2 (fun track buffer => decodeAudioData P (file track) = Some buffer)
    rest buffers ->
  forall i decodedBuffers log,
    decodeTracks P opts totalTracks i rest decodedBuffers log =
    (Ok (decodedBuffers ++ buffers), log ++ decodeLog opts totalTracks i rest).
Proof.
  induction 1 as [| track buffer rest buffers Hd _ IH]; intros i acc log.
  - cbn [decodeTracks decodeLog]. unfold ret. now rewrite !app_nil_r.
  - rewrite (decodeTracks_step_Ok _ _ _ _ _ _ _ Hd), IH.
    cbn [decodeLog]. now rewrite <- !app_assoc.
Qed.

(** The decode loop when the track after [before] is the first that does
    not decode. *)
Lemma decodeTracks_log_failure (totalTracks : Z)
    (before : list AudioTrack) (track : AudioTrack) (after : list AudioTrack)
    (buffers : list AudioBuffer) :
  Forall2 (fun track buffer => decodeAudioData P (file track) = Some buffer)
    before buffers ->
  decodeAudioData P (file track) = None ->
  forall i decodedBuffers log,
    decodeTracks P opts totalTracks i (before ++ track :: after)
      decodedBuffers log =
    (Throw (Error ("Could not decode audio file: " ++ name track)%string),
     log ++ decodeLog opts totalTracks i (before ++ [track])
     ++ [ConsoleError ("Failed to decode " ++ name track)%string]).
Proof.
  intros Hbefore Hfail.
  induction Hbefore as [| t buffer before buffers Hd _ IH]; intros i acc log.
  - cbn [app]. rewrite (decodeTracks_step_Throw _ _ _ _ _ _ Hfail).
    cbn [decodeLog]. now rewrite <- !app_assoc.
  - cbn [app]. rewrite (decodeTracks_step_Ok _ _ _ _ _ _ _ Hd), IH.
    cbn [decodeLog]. now rewrite <- !app_assoc.
Qed.

(** Every track decodes, or there is a first one that does not. *)
Lemma decode_all_or_first_failure (rest : list AudioTrack) :
  (exists buffers,
     Forall2 (fun track buffer => decodeAudioData P (file track) = Some buffer)
       rest buffers) \/
  (exists before track after buffers,
     rest = before ++ track :: after /\
     Forall2 (fun track buffer => decodeAudioData P (file track) = Some buffer)
       before buffers /\
     decodeAudioData P (file track) = None).
Proof.
  induction rest as [| t rest IH].
  - left. exists []. constructor.
  - destruct (decodeAudioData P (file t)) as [buffer |] eqn:Hd.
    + destruct IH as [(buffers & Hall) | (before & track & after & buffers
                                          & -> & Hall & Hfail)].
      * left. exists (buffer :: buffers). now constructor.
      * right. exists (t :: before), track, after, (buffer :: buffers).
        split; [reflexivity |]. split; [now constructor | exact Hfail].
    + right. exists [], t, rest, []. split; [reflexivity |].
      split; [constructor | exact Hd].
Qed.

Lemma decodeTag_log (log : Log) :
  decodeTag P opts log = (Ok (tagBufferOf P opts), log ++ tagLog P opts).
Proof.
  unfold decodeTag, tagBufferOf, tagLog. destruct (tagFile opts) as [f |].
  - unfold decodeAudio, try_catch, bind, emit, modify, ret, throw.
    destruct (decodeAudioData P f); now rewrite <- ?app_assoc.
  - unfold ret. now rewrite app_nil_r.
Qed.

(** Steps 3 to 9, in the three ways they can end: the renderer rejects, the
    encoder throws, or the mix is returned. *)
Lemma mixdown_log (decodedBuffers : list AudioBuffer)
    (tagBuffer : option AudioBuffer) (log : Log) :
  let ctx := offlineContext P opts decodedBuffers tagBuffer in
  let scheduled := log ++ scheduleLog opts (ctx_length ctx) in
  mixdown P opts decodedBuffers tagBuffer log =
  match startRendering P ctx with
  | None => (Throw PlatformError, scheduled)
  | Some samples =>
      match bufferToWav (renderedAudioBuffer ctx samples) with
      | Throw e =>
          (Throw e, scheduled ++ progressLog opts 80 ++ progressLog opts 90)
      | Ok blob =>
          (Ok {| wav := blob; mp3 := blob |},
           scheduled ++ progressLog opts 80 ++ progressLog opts 90
           ++ progressLog opts 100)
      end
  end.
Proof.
  cbv zeta. unfold mixdown, scheduleLog. cbv zeta.
  set (ctx := offlineContext P opts decodedBuffers tagBuffer).
  unfold render, lift, progress, progressLog, bind, emit, modify, ret, throw.
  destruct (onProgress opts); cbn [fst snd];
    (destruct (startRendering P ctx) as [samples |]; cbn [fst snd];
     [destruct (bufferToWav (renderedAudioBuffer ctx samples)); cbn [fst snd] |];
     repeat rewrite <- app_assoc; cbn [app]; rewrite ?app_nil_r; reflexivity).
Qed.

(** The three ways [createDemoMix] goes up to the end of the decoding:
    no track; a first track that does not decode; every track decodes, and
    the rest is [mixdown]. *)
Lemma createDemoMix_outcomes (log : Log) :
  let totalTracks := Z.of_nat (List.length (tracks opts)) in
  let started := log ++ progressLog opts 5 ++ [NewAudioContext 44100] in
  (tracks opts = [] /\
   createDemoMix P opts log = (Throw (Error "No tracks provided"), log)) \/
  (exists before track after buffers,
     tracks opts = before ++ track :: after /\
     Forall2 (fun track buffer => decodeAudioData P (file track) = Some buffer)
       before buffers /\
     decodeAudioData P (file track) = None /\
     createDemoMix P opts log =
     (Throw (Error ("Could not decode audio file: " ++ name track)%string),
      started ++ decodeLog opts totalTracks 0 (before ++ [track])
      ++ [ConsoleError ("Failed to decode " ++ name track)%string])) \/
  (exists decodedBuffers,
     tracks opts <> [] /\
     Forall2 (fun track buffer => decodeAudioData P (file track) = Some buffer)
       (tracks opts) decodedBuffers /\
     createDemoMix P opts log =
     mixdown P opts decodedBuffers (tagBufferOf P opts)
       (started ++ decodeLog opts totalTracks 0 (tracks opts)
        ++ tagLog P opts)).
Proof.
  cbv zeta. unfold createDemoMix.
  destruct (tracks opts) as [| t l] eqn:Htracks; [left; split; reflexivity |].
  right. rewrite <- Htracks.
  assert ((Z.of_nat (List.length (tracks opts)) =? 0)%Z = false) as ->
    by (apply Z.eqb_neq; rewrite Htracks; simpl; lia).
  cbv zeta. rewrite (bind_Ok _ _ _ _ _ (progress_log 5 log)).
  erewrite bind_Ok by reflexivity.
  destruct (decode_all_or_first_failure (tracks opts))
    as [(buffers & Hall) | (before & track & after & buffers & Hsplit & Hall
                            & Hfail)].
  - right. exists buffers. split; [congruence |]. split; [exact Hall |].
    rewrite (bind_Ok _ _ _ _ _
               (decodeTracks_log_success _ _ _ Hall 0 [] _)).
    rewrite (bind_Ok _ _ _ _ _ (decodeTag_log _)). cbn [app].
    now rewrite <- !app_assoc.
  - left. exists before, track, after, buffers.
    split; [exact Hsplit |]. split; [exact Hall |]. split; [exact Hfail |].
    rewrite Hsplit at 2.
    rewrite (bind_Throw _ _ _ _ _
               (decodeTracks_log_failure _ _ _ _ _ Hall Hfail 0 [] _)).
    now rewrite <- !app_assoc.
Qed.
End Calls.

Lemma decodes_all (P : Platform) (l : list AudioTrack) :
  Forall (fun track => decodeAudioData P (file track) <> None) l ->
  exists buffers,
    Forall2 (fun track buffer => decodeAudioData P (file track) = Some buffer)
      l buffers.
Proof.
  induction 1 as [| t l Ht _ (buffers & IH)].
  - exists []. constructor.
  - destruct (decodeAudioData P (file t)) as [buffer |] eqn:Hd; [| congruence].
    exists (buffer :: buffers). now constructor.
Qed.

(** The decode loop logs progress reports and decode calls only. *)
Lemma decodeLog_events (opts : CreateDemoOptions) (totalTracks : Z)
    (rest : list AudioTrack) (i : Z) :
  Forall (fun e => match e with
                   | OnProgress _ | DecodeAudioData _ => True
                   | _ => False
                   end)
    (decodeLog opts totalTracks i rest).
Proof.
  revert i. induction rest as [| track rest IH]; intros i; cbn [decodeLog].
  - constructor.
  - apply Forall_app. split.
    + unfold progressLog. destruct (onProgress opts); repeat constructor.
    + constructor; [exact I | apply IH].
Qed.

(** X13: a run that succeeds, call by call.  When the list is not empty,
    every track decodes, the gap, the segment cap and the durations are not
    negative, the length to render is at least one frame and the renderer
    resolves, [createDemoMix] returns, under both names, the encoding of the
    rendered buffer: 44 bytes of header and 4 bytes for each of the
    [ceil (44100 * total)] frames, the product being the binary64 one.  On
    the way it creates one audio context, decodes the tracks once each in
    the order of the list, then the tag file if there is one, closes the
    context, creates one offline context of 2 channels at 44,100 Hz and
    starts one rendering; it reports 5, one value per track, then 45, 60,
    80, 90 and 100.  No track is started at a negative time. *)
Theorem createDemoMix_calls (P : Platform) (opts : CreateDemoOptions)
    (log : Log) (decodedBuffers : list AudioBuffer) (samples : Z -> Z -> Q) :
  tracks opts <> [] ->
  Forall2 (fun track buffer => decodeAudioData P (file track) = Some buffer)
    (tracks opts) decodedBuffers ->
  0 <= silenceGap opts ->
  0 <= segmentDuration opts ->
  Forall (fun buffer => 0 <= duration buffer) decodedBuffers ->
  let total := totalOutputDuration opts decodedBuffers in
  let ctx := offlineContext P opts decodedBuffers (tagBufferOf P opts) in
  let frames := Math_ceil (binary64 (inject_Z 44100 * total)) in
  (0 < frames)%Z ->
  startRendering P ctx = Some samples ->
  exists blob,
    createDemoMix P opts log =
    (Ok {| wav := blob; mp3 := blob |},
     log ++ progressLog opts 5 ++ [NewAudioContext 44100]
     ++ decodeLog opts (Z.of_nat (List.length (tracks opts))) 0 (tracks opts)
     ++ tagLog P opts
     ++ scheduleLog opts frames
     ++ progressLog opts 80 ++ progressLog opts 90 ++ progressLog opts 100) /\
    blob_type blob = "audio/wav"%string /\
    blob_bytes blob =
      wavHeader 2 44100 (frames * 2 * 2 + 44)
      ++ wavData (renderedAudioBuffer ctx samples) /\
    Z.of_nat (List.length (blob_bytes blob)) = (4 * frames + 44)%Z /\
    Forall (fun source => 0 <= source_start source)
      (trackSources P opts decodedBuffers).
Proof.
  intros Hne Hdec Hgap Hseg Hdur total ctx frames Hpos' Hs.
  assert (Forall (fun source => 0 <= source_start source)
            (trackSources P opts decodedBuffers)) as Hstarts.
  { apply Forall_lookup_2. intros k source Hsource.
    rewrite trackSources_lookup in Hsource.
    destruct (decodedBuffers !! k) as [buffer |]; [| discriminate].
    simpl in Hsource. injection Hsource as <-.
    unfold scheduleTrack. cbn [source_start].
    apply cursorAt_nonneg; [exact Hgap |].
    rewrite trackDurations_eq.
    eapply Forall_impl;
      [exact (playDurations_bounds opts decodedBuffers Hseg Hdur) |].
    intros p Hp. apply Hp. }
  assert (ctx_length ctx = frames) as Hframes
    by (unfold ctx; now rewrite offlineContext_eq).
  assert (0 <= frames)%Z as Hpos by lia.
  set (rendered := renderedAudioBuffer ctx samples).
  assert (buffer_length rendered = frames) as Hlen by exact Hframes.
  assert (numberOfChannels rendered = 2%Z) as Hnc
    by (unfold rendered, ctx; now rewrite offlineContext_eq).
  assert (sampleRate rendered = 44100%Z) as Hrate
    by (unfold rendered, ctx; now rewrite offlineContext_eq).
  pose proof (bufferToWav_closed_form rendered ltac:(lia) ltac:(lia)) as Hwav.
  rewrite Hlen, Hnc, Hrate in Hwav.
  destruct (bufferToWav_run rendered ltac:(lia) ltac:(lia))
    as (bytes & Hrun & Hsize & _).
  cbv zeta in Hsize. rewrite Hlen, Hnc in Hsize.
  exists {| blob_bytes := wavHeader 2 44100 (frames * 2 * 2 + 44)
                          ++ wavData rendered;
            blob_type := "audio/wav" |}.
  split; [| split; [reflexivity | split; [reflexivity | split]]].
  - unfold createDemoMix.
    assert ((Z.of_nat (List.length (tracks opts)) =? 0)%Z = false) as ->
      by (apply Z.eqb_neq; destruct (tracks opts); [congruence | simpl; lia]).
    cbv zeta. rewrite (bind_Ok _ _ _ _ _ (progress_log opts 5 log)).
    erewrite bind_Ok by reflexivity.
    rewrite (bind_Ok _ _ _ _ _
               (decodeTracks_log_success P opts _ _ _ Hdec 0 [] _)).
    rewrite (bind_Ok _ _ _ _ _ (decodeTag_log P opts _)). cbn [app].
    rewrite mixdown_log. cbv zeta. fold ctx. rewrite Hs. fold rendered.
    rewrite Hwav, Hframes. apply (f_equal (pair _)).
    repeat rewrite <- app_assoc. reflexivity.
  - cbn [blob_bytes]. rewrite Hrun in Hwav.
    apply (f_equal (fun r => match r with
                             | Ok blob => blob_bytes blob
                             | Throw _ => []
                             end)) in Hwav.
    cbn [blob_bytes] in Hwav. rewrite <- Hwav. lia.
  - exact Hstarts.
Qed.

(** One track of thirteen frames: the offline context has 14 frames, the
    output 100 bytes, and the calls are in order. *)
Lemma createDemoMix_calls_witness :
  let track :=
    exampleTrack "a" [10; 20; 30; 40; 50; 60; 70; 80; 90; 10; 20; 30; 40]%Z in
  let opts :=
    {| tracks := [track]; normalize := true; onProgress := true;
       segmentDuration := 25; fadeDuration := 0.5; silenceGap := 0.3;
       tagFile := None; tagInterval := 30 |} in
  exists blob,
    createDemoMix examplePlatform opts [] =
    (Ok {| wav := blob; mp3 := blob |},
     [OnProgress 5; NewAudioContext 44100; OnProgress 10;
      DecodeAudioData (file track);
      AudioContextClose; OnProgress 45; NewOfflineAudioContext 2 14 44100;
      OnProgress 60; StartRendering; OnProgress 80; OnProgress 90;
      OnProgress 100]) /\
    List.length (blob_bytes blob) = 100%nat.
Proof.
  cbv zeta.
  destruct (createDemoMix_calls examplePlatform
              {| tracks :=
                   [exampleTrack "a"
                      [10; 20; 30; 40; 50; 60; 70; 80; 90; 10; 20; 30; 40]%Z];
                 normalize := true; onProgress := true;
                 segmentDuration := 25; fadeDuration := 0.5; silenceGap := 0.3;
                 tagFile := None; tagInterval := 30 |}
              []
              [bufferOfChannels 44100
                 [map (fun b => inject_Z b / 100)
                    [10; 20; 30; 40; 50; 60; 70; 80; 90; 10; 20; 30; 40]%Z]]
              (fun _ _ => 0)
              ltac:(discriminate) ltac:(repeat constructor)
              ltac:(vm_compute; discriminate) ltac:(vm_compute; discriminate)
              ltac:(repeat constructor; vm_compute; discriminate)
              ltac:(vm_compute; reflexivity) eq_refl)
    as (blob & Hrun & _ & _ & Hsize & _).
  exists blob. split; [exact Hrun |].
  apply Nat2Z.inj. rewrite Hsize. reflexivity.
Defined.

(** X14: a track that does not decode stops everything.  When the tracks
    before it decode, [createDemoMix] throws the error that names it, after
    logging one console error; the tracks after it and the tag file are not
    decoded, nothing is scheduled or rendered, and the audio context that
    was created for the decoding is not closed. *)
Theorem decode_failure_stops (P : Platform) (opts : CreateDemoOptions)
    (log : Log) (before : list AudioTrack) (track : AudioTrack)
    (after : list AudioTrack) :
  tracks opts = before ++ track :: after ->
  Forall (fun track => decodeAudioData P (file track) <> None) before ->
  decodeAudioData P (file track) = None ->
  let added :=
    progressLog opts 5 ++ [NewAudioContext 44100]
    ++ decodeLog opts (Z.of_nat (List.length (tracks opts))) 0
         (before ++ [track])
    ++ [ConsoleError ("Failed to decode " ++ name track)%string] in
  createDemoMix P opts log =
  (Throw (Error ("Could not decode audio file: " ++ name track)%string),
   log ++ added) /\
  Forall (fun e => match e with
                   | OnProgress _ | NewAudioContext _ | DecodeAudioData _
                   | ConsoleError _ => True
                   | ConsoleWarn _ | AudioContextClose
                   | NewOfflineAudioContext _ _ _ | StartRendering => False
                   end) added.
Proof.
  intros Hsplit Hbefore Hfail added.
  destruct (decodes_all P before Hbefore) as (buffers & Hall).
  split.
  - unfold createDemoMix.
    assert ((Z.of_nat (List.length (tracks opts)) =? 0)%Z = false) as ->
      by (apply Z.eqb_neq; rewrite Hsplit, length_app; simpl; lia).
    cbv zeta. rewrite (bind_Ok _ _ _ _ _ (progress_log opts 5 log)).
    erewrite bind_Ok by reflexivity.
    rewrite Hsplit at 2.
    rewrite (bind_Throw _ _ _ _ _
               (decodeTracks_log_failure P opts _ _ _ _ _ Hall Hfail 0 [] _)).
    unfold added. now rewrite <- !app_assoc.
  - unfold added. apply Forall_app. split.
    + unfold progressLog. destruct (onProgress opts); repeat constructor.
    + constructor; [exact I |]. apply Forall_app. split.
      * eapply Forall_impl; [apply decodeLog_events |].
        intros [] H; simpl in *; tauto.
      * repeat constructor.
Qed.

(** The second of three tracks does not decode. *)
Lemma decode_failure_stops_witness :
  createDemoMix examplePlatform
    (defaultOptions
       [exampleTrack "a" [10; 20]%Z; exampleTrack "b" []; exampleTrack "c" [30]%Z])
    [] =
  (Throw (Error "Could not decode audio file: b"),
   [NewAudioContext 44100;
    DecodeAudioData (file (exampleTrack "a" [10; 20]%Z));
    DecodeAudioData (file (exampleTrack "b" []));
    ConsoleError "Failed to decode b"]).
Proof.
  exact (proj1 (decode_failure_stops examplePlatform
                  (defaultOptions
                     [exampleTrack "a" [10; 20]%Z; exampleTrack "b" [];
                      exampleTrack "c" [30]%Z])
                  [] [exampleTrack "a" [10; 20]%Z] (exampleTrack "b" [])
                  [exampleTrack "c" [30]%Z] eq_refl
                  ltac:(repeat constructor; discriminate) eq_refl)).
Defined.

(** X15: when the renderer rejects, [createDemoMix] throws that rejection
    and returns no blob; the tracks were decoded and scheduled, the last
    progress report is 60 and the encoder is not reached. *)
Theorem render_failure (P : Platform) (opts : CreateDemoOptions)
    (log : Log) (decodedBuffers : list AudioBuffer) :
  tracks opts <> [] ->
  Forall2 (fun track buffer => decodeAudioData P (file track) = Some buffer)
    (tracks opts) decodedBuffers ->
  let ctx := offlineContext P opts decodedBuffers (tagBufferOf P opts) in
  startRendering P ctx = None ->
  createDemoMix P opts log =
  (Throw PlatformError,
   log ++ progressLog opts 5 ++ [NewAudioContext 44100]
   ++ decodeLog opts (Z.of_nat (List.length (tracks opts))) 0 (tracks opts)
   ++ tagLog P opts
   ++ scheduleLog opts
        (Math_ceil
           (binary64
              (inject_Z 44100 * totalOutputDuration opts decodedBuffers)))).
Proof.
  intros Hne Hdec ctx Hs. unfold createDemoMix.
  assert ((Z.of_nat (List.length (tracks opts)) =? 0)%Z = false) as ->
    by (apply Z.eqb_neq; destruct (tracks opts); [congruence | simpl; lia]).
  cbv zeta. rewrite (bind_Ok _ _ _ _ _ (progress_log opts 5 log)).
  erewrite bind_Ok by reflexivity.
  rewrite (bind_Ok _ _ _ _ _
             (decodeTracks_log_success P opts _ _ _ Hdec 0 [] _)).
  rewrite (bind_Ok _ _ _ _ _ (decodeTag_log P opts _)). cbn [app].
  rewrite mixdown_log. cbv zeta. fold ctx. rewrite Hs.
  assert (ctx_length ctx
          = Math_ceil
              (binary64
                 (inject_Z 44100 * totalOutputDuration opts decodedBuffers)))
    as -> by (unfold ctx; now rewrite offlineContext_eq).
  apply (f_equal (pair _)). repeat rewrite <- app_assoc. reflexivity.
Qed.

(** The example platform with a renderer that rejects. *)
Lemma render_failure_witness :
  let P := {| Math_sqrt := fixedPointSqrt;
              decodeAudioData := decodeAudioData examplePlatform;
              startRendering := fun _ => None |} in
  createDemoMix P (withoutTag exampleOptionsWithTag) [] =
  (Throw PlatformError,
   [OnProgress 5; NewAudioContext 44100; OnProgress 10;
    DecodeAudioData (file (exampleTrack "a" [10; 20; 30; 40]%Z));
    AudioContextClose; OnProgress 45; NewOfflineAudioContext 2 4 44100;
    OnProgress 60; StartRendering]).
Proof.
  cbv zeta.
  exact (render_failure
           {| Math_sqrt := fixedPointSqrt;
              decodeAudioData := decodeAudioData examplePlatform;
              startRendering := fun _ => None |}
           (withoutTag exampleOptionsWithTag) []
           [bufferOfChannels 44100
              [map (fun b => inject_Z b / 100) [10; 20; 30; 40]%Z]]
           ltac:(discriminate) ltac:(repeat constructor) eq_refl).
Defined.

(** What the encoder can throw on a rendered buffer. *)
Lemma bufferToWav_rendered_Throw (ctx : OfflineAudioContext)
    (samples : Z -> Z -> Q) (e : Exn) :
  ctx_numberOfChannels ctx = 2%Z ->
  bufferToWav (renderedAudioBuffer ctx samples) = Throw e ->
  e = RangeError /\ (ctx_length ctx < 0)%Z.
Proof.
  intros Hnc Hthrow.
  destruct (Z_lt_le_dec (ctx_length ctx) 0) as [Hneg | Hpos].
  - rewrite bufferToWav_negative_length in Hthrow by assumption.
    split; [congruence | exact Hneg].
  - destruct (bufferToWav_run (renderedAudioBuffer ctx samples))
      as (bytes & Hrun & _); [exact Hpos | simpl; lia |]. congruence.
Qed.

(** X16: the errors of [createDemoMix], where the platform accepts what
    the engine schedules: the gap and the segment cap are not negative, and
    when the tracks decode their durations are not negative and the length
    to render is at least one frame.  When the engine throws there, then
    either the list of tracks is empty and the error is "No tracks
    provided"; or a track of the list does not decode and the error is
    "Could not decode audio file: " with the name of the first such track;
    or every track decodes and the renderer rejects.  The encoder does not
    throw there, and a tag file that does not decode is not among the
    causes. *)
Theorem createDemoMix_errors (P : Platform) (opts : CreateDemoOptions)
    (log log' : Log) (e : Exn) :
  0 <= silenceGap opts ->
  0 <= segmentDuration opts ->
  (forall decodedBuffers,
     Forall2 (fun track buffer => decodeAudioData P (file track) = Some buffer)
       (tracks opts) decodedBuffers ->
     Forall (fun buffer => 0 <= duration buffer) decodedBuffers /\
     (0 < ctx_length
            (offlineContext P opts decodedBuffers (tagBufferOf P opts)))%Z) ->
  createDemoMix P opts log = (Throw e, log') ->
  (tracks opts = [] /\ e = Error "No tracks provided") \/
  (exists before track after,
     tracks opts = before ++ track :: after /\
     Forall (fun track => decodeAudioData P (file track) <> None) before /\
     decodeAudioData P (file track) = None /\
     e = Error ("Could not decode audio file: " ++ name track)%string) \/
  (exists decodedBuffers,
     Forall2 (fun track buffer => decodeAudioData P (file track) = Some buffer)
       (tracks opts) decodedBuffers /\
     let ctx := offlineContext P opts decodedBuffers (tagBufferOf P opts) in
     startRendering P ctx = None /\ e = PlatformError).
Proof.
  intros _ _ Haccepted Hrun.
  destruct (createDemoMix_outcomes P opts log)
    as [[Hnil H] | [(before & track & after & buffers & Hsplit & Hall & Hfail & H)
                   | (decodedBuffers & Hne & Hall & H)]];
    rewrite H in Hrun.
  - left. split; [exact Hnil | congruence].
  - right. left. exists before, track, after.
    split; [exact Hsplit |]. split; [| split; [exact Hfail | congruence]].
    clear -Hall. induction Hall; constructor; [congruence | assumption].
  - right. right. exists decodedBuffers. split; [exact Hall |]. cbv zeta.
    destruct (Haccepted decodedBuffers Hall) as [_ Hframes].
    rewrite mixdown_log in Hrun. cbv zeta in Hrun.
    destruct (startRendering P _) as [samples |] eqn:Hs.
    + destruct (bufferToWav _) as [blob | e'] eqn:Hb; [discriminate |].
      apply bufferToWav_rendered_Throw in Hb as [_ Hneg];
        [lia | now rewrite offlineContext_eq].
    + split; [reflexivity | congruence].
Qed.

(** One track of four frames on the example platform with a renderer that
    rejects: the cause found is the third one. *)
Lemma createDemoMix_errors_witness :
  let P := {| Math_sqrt := fixedPointSqrt;
              decodeAudioData := decodeAudioData examplePlatform;
              startRendering := fun _ => None |} in
  let opts := defaultOptions [exampleTrack "a" [10; 20; 30; 40]%Z] in
  exists decodedBuffers,
    Forall2 (fun track buffer => decodeAudioData P (file track) = Some buffer)
      (tracks opts) decodedBuffers /\
    startRendering P (offlineContext P opts decodedBuffers (tagBufferOf P opts))
    = None.
Proof.
  cbv zeta.
  set (P := {| Math_sqrt := fixedPointSqrt;
               decodeAudioData := decodeAudioData examplePlatform;
               startRendering := fun _ => None |}).
  set (opts := defaultOptions [exampleTrack "a" [10; 20; 30; 40]%Z]).
  assert (exists e log', createDemoMix P opts [] = (Throw e, log'))
    as (e & log' & Hrun) by (do 2 eexists; vm_compute; reflexivity).
  assert (forall decodedBuffers,
            Forall2 (fun track buffer =>
                       decodeAudioData P (file track) = Some buffer)
              (tracks opts) decodedBuffers ->
            Forall (fun buffer => 0 <= duration buffer) decodedBuffers /\
            (0 < ctx_length
                   (offlineContext P opts decodedBuffers (tagBufferOf P opts)))%Z)
    as Haccepted.
  { intros decodedBuffers Hall.
    inversion Hall as [| ? buffer ? ? Hb Hrest]; subst.
    inversion Hrest; subst. injection Hb as <-.
    split; [repeat constructor; vm_compute; discriminate |].
    vm_compute. reflexivity. }
  destruct (createDemoMix_errors P opts [] log' e
              ltac:(vm_compute; discriminate) ltac:(vm_compute; discriminate)
              Haccepted Hrun)
    as [[Hnil _] | [(before & track & after & Hsplit & _ & Hfail & _)
                   | (decodedBuffers & Hall & Hs & _)]].
  - discriminate Hnil.
  - exfalso. destruct before as [| first before].
    + injection Hsplit as <- _. discriminate Hfail.
    + destruct before; discriminate Hsplit.
  - exists decodedBuffers. split; [exact Hall | exact Hs].
Defined.

(** X17: whenever [createDemoMix] returns, every track of the list was
    decoded, in order, the renderer resolved, and the output holds 44 bytes
    of header and 4 bytes (2 channels of 16 bits) for each of the frames of
    the offline context, which are [ceil (44100 * total)] for the binary64
    product and the binary64 total that the code holds. *)
Theorem createDemoMix_output_length (P : Platform) (opts : CreateDemoOptions)
    (log log' : Log) (mix : DemoMix) :
  createDemoMix P opts log = (Ok mix, log') ->
  exists decodedBuffers samples,
    tracks opts <> [] /\
    Forall2 (fun track buffer => decodeAudioData P (file track) = Some buffer)
      (tracks opts) decodedBuffers /\
    let ctx := offlineContext P opts decodedBuffers (tagBufferOf P opts) in
    let frames :=
      Math_ceil
        (binary64 (inject_Z 44100 * totalOutputDuration opts decodedBuffers)) in
    startRendering P ctx = Some samples /\
    (0 <= frames)%Z /\
    Z.of_nat (List.length (blob_bytes (wav mix))) = (4 * frames + 44)%Z /\
    drop 44 (blob_bytes (wav mix)) = wavData (renderedAudioBuffer ctx samples).
Proof.
  intros Hrun.
  destruct (createDemoMix_outcomes P opts log)
    as [[Hnil H] | [(before & track & after & buffers & Hsplit & Hall & Hfail & H)
                   | (decodedBuffers & Hne & Hall & H)]];
    rewrite H in Hrun; try discriminate Hrun.
  rewrite mixdown_log in Hrun. cbv zeta in Hrun.
  destruct (startRendering P _) as [samples |] eqn:Hs; [| discriminate].
  destruct (bufferToWav _) as [blob | e'] eqn:Hb; [| discriminate].
  exists decodedBuffers, samples. split; [exact Hne |]. split; [exact Hall |].
  cbv zeta. split; [exact Hs |].
  set (ctx := offlineContext P opts decodedBuffers (tagBufferOf P opts)) in *.
  assert (wav mix = blob) as -> by (injection Hrun as <- _; reflexivity).
  assert (ctx_length ctx
          = Math_ceil
              (binary64
                 (inject_Z 44100 * totalOutputDuration opts decodedBuffers)))
    as Hframes by (unfold ctx; now rewrite offlineContext_eq).
  assert (ctx_numberOfChannels ctx = 2%Z) as Hnc
    by (unfold ctx; now rewrite offlineContext_eq).
  rewrite <- Hframes.
  assert (0 <= ctx_length ctx)%Z as Hpos.
  { destruct (Z_lt_le_dec (ctx_length ctx) 0) as [Hneg | Hpos]; [| exact Hpos].
    rewrite bufferToWav_negative_length in Hb by assumption. discriminate. }
  split; [exact Hpos |].
  set (rendered := renderedAudioBuffer ctx samples) in *.
  assert (blob_bytes blob
          = wavHeader 2 44100 (ctx_length ctx * 2 * 2 + 44) ++ wavData rendered)
    as Hbytes.
  { pose proof (bufferToWav_closed_form rendered ltac:(exact Hpos)
                  ltac:(simpl; lia)) as Hwav.
    rewrite Hb in Hwav.
    apply (f_equal (fun r => match r with
                             | Ok blob => blob_bytes blob
                             | Throw _ => []
                             end)) in Hwav.
    cbn [blob_bytes] in Hwav. rewrite Hwav.
    cbn [numberOfChannels buffer_length sampleRate rendered renderedAudioBuffer].
    rewrite Hnc. unfold ctx. now rewrite offlineContext_eq. }
  destruct (bufferToWav_run rendered ltac:(exact Hpos) ltac:(simpl; lia))
    as (bytes & Hrun' & Hsize & _).
  rewrite Hb in Hrun'.
  apply (f_equal (fun r => match r with
                           | Ok blob => blob_bytes blob
                           | Throw _ => []
                           end)) in Hrun'.
  cbn [blob_bytes] in Hrun'. subst bytes.
  cbv zeta in Hsize.
  cbn [numberOfChannels buffer_length rendered renderedAudioBuffer] in Hsize.
  rewrite Hnc in Hsize.
  split; [lia |].
  rewrite Hbytes. now rewrite drop_app_length' by (now rewrite length_wavHeader).
Qed.

(** A track of thirteen frames: 14 frames are rendered, 100 bytes. *)
Lemma createDemoMix_output_length_witness :
  let track :=
    exampleTrack "a" [10; 20; 30; 40; 50; 60; 70; 80; 90; 10; 20; 30; 40]%Z in
  exists mix log',
    createDemoMix examplePlatform (defaultOptions [track]) [] = (Ok mix, log') /\
    Z.of_nat (List.length (blob_bytes (wav mix))) = 100%Z.
Proof.
  cbv zeta.
  set (track :=
         exampleTrack "a"
           [10; 20; 30; 40; 50; 60; 70; 80; 90; 10; 20; 30; 40]%Z).
  set (result := createDemoMix examplePlatform (defaultOptions [track]) []).
  assert (exists mix log', result = (Ok mix, log')) as (mix & log' & Hrun)
    by (eexists; eexists; vm_compute; reflexivity).
  exists mix, log'. split; [exact Hrun |].
  destruct (createDemoMix_output_length examplePlatform
              (defaultOptions [track]) [] log' mix Hrun)
    as (decodedBuffers & samples & _ & Hall & _ & _ & Hsize & _).
  rewrite Hsize.
  inversion Hall as [| ? buffer ? ? Hb Hrest]; subst.
  inversion Hrest; subst. injection Hb as <-. reflexivity.
Defined.

(** ** The progress reports *)

Section Progress.
Variable opts : CreateDemoOptions.

(** A list of percentages that does not decrease and stays in
    [[lo, hi]]. *)
Let ranged (lo hi : Z) (l : list Z) : Prop :=
  StronglySorted Z.le l /\ Forall (fun p => (lo <= p <= hi)%Z) l.

Lemma ranged_nil (lo hi : Z) : ranged lo hi [].
Proof. split; constructor. Qed.

Lemma ranged_app (lo mid hi : Z) (l1 l2 : list Z) :
  ranged lo mid l1 -> ranged mid hi l2 -> (lo <= mid <= hi)%Z ->
  ranged lo hi (l1 ++ l2).
Proof.
  intros [Hs1 Hr1] [Hs2 Hr2] Hm. split.
  - induction Hs1 as [| a l1 Hs1 IH Ha]; cbn [app]; [exact Hs2 |].
    inversion Hr1 as [| ? ? Har Hr1']; subst.
    constructor; [now apply IH |].
    apply Forall_app. split; [exact Ha |].
    eapply Forall_impl; [exact Hr2 |]. intros b Hb. simpl in *. lia.
  - apply Forall_app. split; eapply Forall_impl; eauto; intros b Hb;
      simpl in *; lia.
Qed.

Lemma ranged_prefix (lo hi : Z) (l1 l2 : list Z) :
  ranged lo hi (l1 ++ l2) -> ranged lo hi l1.
Proof.
  intros [Hs Hr]. apply Forall_app in Hr as [Hr _]. split; [| exact Hr].
  clear Hr. induction l1 as [| a l1 IH]; [constructor |].
  cbn [app] in Hs. inversion Hs as [| ? ? Hs' Ha]; subst.
  constructor; [now apply IH |]. now apply Forall_app in Ha as [Ha _].
Qed.

Lemma percents_app (l1 l2 : Log) :
  percents (l1 ++ l2) = percents l1 ++ percents l2.
Proof. apply flat_map_app. Qed.

Lemma ranged_progressLog (percent : Z) :
  ranged percent percent (percents (progressLog opts percent)).
Proof.
  unfold progressLog. destruct (onProgress opts); cbn; [| apply ranged_nil].
  split; repeat constructor; lia.
Qed.

Lemma ranged_weaken (lo hi lo' hi' : Z) (l : list Z) :
  ranged lo hi l -> (lo' <= lo)%Z -> (hi <= hi')%Z -> ranged lo' hi' l.
Proof.
  intros [Hs Hr] Hlo Hhi. split; [exact Hs |].
  eapply Forall_impl; [exact Hr |]. intros b Hb. simpl in *. lia.
Qed.

(** The percentage that the decode loop reports for track [i] of
    [totalTracks]. *)
Lemma decode_percent_le (totalTracks i j : Z) :
  (0 < totalTracks)%Z -> (i <= j)%Z ->
  (Math_floor (inject_Z i / inject_Z totalTracks * 30)
   <= Math_floor (inject_Z j / inject_Z totalTracks * 30))%Z.
Proof.
  intros Hn Hij. apply Qfloor_resp_le.
  apply Qmult_le_compat_r; [| lra].
  unfold Qdiv. apply Qmult_le_compat_r; [now rewrite <- Zle_Qle |].
  apply Qinv_le_0_compat. change 0 with (inject_Z 0).
  rewrite <- Zle_Qle. lia.
Qed.

Lemma decode_percent_range (totalTracks i : Z) :
  (0 <= i < totalTracks)%Z ->
  (0 <= Math_floor (inject_Z i / inject_Z totalTracks * 30) <= 29)%Z.
Proof.
  intros Hi.
  assert (0 < inject_Z totalTracks) as Hn
    by (change 0 with (inject_Z 0); rewrite <- Zlt_Qlt; lia).
  assert (0 <= inject_Z i / inject_Z totalTracks) as Hlo.
  { apply Qle_shift_div_l; [exact Hn |].
    rewrite Qmult_0_l. change 0 with (inject_Z 0). rewrite <- Zle_Qle. lia. }
  assert (inject_Z i / inject_Z totalTracks < 1) as Hhi.
  { apply Qlt_shift_div_r; [exact Hn |].
    rewrite Qmult_1_l. rewrite <- Zlt_Qlt. lia. }
  unfold Math_floor. split.
  - change 0%Z with (Qfloor 0). apply Qfloor_resp_le. lra.
  - assert (Qfloor (inject_Z i / inject_Z totalTracks * 30) < 30)%Z; [| lia].
    rewrite Zlt_Qlt. change (inject_Z 30) with 30.
    eapply Qle_lt_trans; [apply Qfloor_le |]. lra.
Qed.

(** The reports of the decode loop from track [i] on lie between the
    report for track [i] and 39, and do not decrease. *)
Lemma ranged_decodeLog (totalTracks : Z) (rest : list AudioTrack) :
  forall i : Z,
    (0 <= i)%Z -> (i + Z.of_nat (List.length rest) <= totalTracks)%Z ->
    ranged (10 + Math_floor (inject_Z i / inject_Z totalTracks * 30)) 39
      (percents (decodeLog opts totalTracks i rest)).
Proof.
  induction rest as [| track rest IH]; intros i Hi Hn; cbn [decodeLog].
  - apply ranged_nil.
  - cbn [List.length] in Hn.
    pose proof (decode_percent_range totalTracks i ltac:(lia)) as Hr.
    pose proof (decode_percent_le totalTracks i (i + 1) ltac:(lia) ltac:(lia))
      as Hle.
    rewrite percents_app.
    change (percents (DecodeAudioData (file track)
                      :: decodeLog opts totalTracks (i + 1) rest))
      with (percents (decodeLog opts totalTracks (i + 1) rest)).
    apply (ranged_app _
             (10 + Math_floor (inject_Z i / inject_Z totalTracks * 30)) _).
    + apply ranged_progressLog.
    + eapply ranged_weaken; [apply (IH (i + 1)%Z); lia | lia | lia].
    + lia.
Qed.

Lemma percents_tagLog (P : Platform) : percents (tagLog P opts) = [].
Proof.
  unfold tagLog. destruct (tagFile opts) as [f |]; [| reflexivity].
  destruct (decodeAudioData P f); reflexivity.
Qed.

Lemma percents_scheduleLog (frames : Z) :
  percents (scheduleLog opts frames)
  = percents (progressLog opts 45) ++ percents (progressLog opts 60).
Proof.
  unfold scheduleLog. rewrite !percents_app. cbn [percents flat_map app].
  now rewrite !app_nil_r.
Qed.

(** The reports of a whole run, when the list has [totalTracks] tracks. *)
Lemma ranged_run (l : list AudioTrack) :
  ranged 5 100
    (percents (progressLog opts 5)
     ++ percents (decodeLog opts (Z.of_nat (List.length l)) 0 l)
     ++ percents (progressLog opts 45) ++ percents (progressLog opts 60)
     ++ percents (progressLog opts 80) ++ percents (progressLog opts 90)
     ++ percents (progressLog opts 100)).
Proof.
  apply (ranged_app 5 5 100); [apply ranged_progressLog | | lia].
  apply (ranged_app 5 39 100); [| | lia].
  { eapply ranged_weaken;
      [apply (ranged_decodeLog (Z.of_nat (List.length l)) l 0); lia | | lia].
    destruct l as [| t l]; [vm_compute; discriminate |].
    pose proof (decode_percent_range (Z.of_nat (List.length (t :: l))) 0
                  ltac:(cbn [List.length]; lia)). lia. }
  apply (ranged_app 39 45 100); [| | lia].
  { eapply ranged_weaken; [apply ranged_progressLog | lia | lia]. }
  apply (ranged_app 45 60 100); [| | lia].
  { eapply ranged_weaken; [apply ranged_progressLog | lia | lia]. }
  apply (ranged_app 60 80 100); [| | lia].
  { eapply ranged_weaken; [apply ranged_progressLog | lia | lia]. }
  apply (ranged_app 80 90 100); [| | lia].
  { eapply ranged_weaken; [apply ranged_progressLog | lia | lia]. }
  eapply ranged_weaken; [apply ranged_progressLog | lia | lia].
Qed.

(** Whatever the outcome, the reports of [createDemoMix] are the first
    reports of a whole run. *)
Lemma createDemoMix_percents (P : Platform) (log : Log) :
  exists added rest,
    snd (createDemoMix P opts log) = log ++ added /\
    percents added ++ rest =
    percents (progressLog opts 5)
    ++ percents (decodeLog opts (Z.of_nat (List.length (tracks opts))) 0
                   (tracks opts))
    ++ percents (progressLog opts 45) ++ percents (progressLog opts 60)
    ++ percents (progressLog opts 80) ++ percents (progressLog opts 90)
    ++ percents (progressLog opts 100) /\
    (forall mix, fst (createDemoMix P opts log) = Ok mix -> rest = []).
Proof.
  destruct (createDemoMix_outcomes P opts log)
    as [[Hnil H] | [(before & track & after & buffers & Hsplit & Hall & Hfail & H)
                   | (decodedBuffers & Hne & Hall & H)]];
    rewrite H.
  - exists []. eexists. split; [now rewrite app_nil_r |].
    split; [reflexivity | discriminate].
  - set (n := Z.of_nat (List.length (tracks opts))) in *.
    rewrite Hsplit.
    change (track :: after) with ([track] ++ after).
    rewrite (app_assoc before [track] after).
    rewrite (decodeLog_app opts n 0 (before ++ [track]) after), percents_app.
    eexists. eexists. cbn [fst snd].
    split; [rewrite <- !app_assoc; reflexivity |].
    split; [| discriminate].
    rewrite !percents_app. cbn [percents flat_map app].
    rewrite (app_nil_r (percents (decodeLog opts n 0 (before ++ [track])))).
    rewrite <- !app_assoc. reflexivity.
  - rewrite mixdown_log. cbv zeta.
    set (n := Z.of_nat (List.length (tracks opts))).
    set (frames := ctx_length _).
    set (decoded := progressLog opts 5 ++ [NewAudioContext 44100]
                    ++ decodeLog opts n 0 (tracks opts) ++ tagLog P opts
                    ++ scheduleLog opts frames).
    assert (percents decoded
            = percents (progressLog opts 5)
              ++ percents (decodeLog opts n 0 (tracks opts))
              ++ percents (progressLog opts 45)
              ++ percents (progressLog opts 60)) as Hdecoded.
    { unfold decoded.
      rewrite !percents_app, percents_scheduleLog, percents_tagLog.
      change (percents [NewAudioContext 44100]) with (@nil Z).
      cbn [app]. reflexivity. }
    destruct (startRendering P _) as [samples |];
      [destruct (bufferToWav _) as [blob | e] |]; cbn [fst snd].
    + exists (decoded ++ progressLog opts 80 ++ progressLog opts 90
              ++ progressLog opts 100), [].
      split; [unfold decoded; rewrite <- !app_assoc; reflexivity |].
      split; [| reflexivity].
      rewrite app_nil_r, !percents_app, Hdecoded, <- !app_assoc. reflexivity.
    + exists (decoded ++ progressLog opts 80 ++ progressLog opts 90),
             (percents (progressLog opts 100)).
      split; [unfold decoded; rewrite <- !app_assoc; reflexivity |].
      split; [| discriminate].
      rewrite !percents_app, Hdecoded, <- !app_assoc. reflexivity.
    + exists decoded,
             (percents (progressLog opts 80) ++ percents (progressLog opts 90)
              ++ percents (progressLog opts 100)).
      split; [unfold decoded; rewrite <- !app_assoc; reflexivity |].
      split; [| discriminate].
      rewrite Hdecoded, <- !app_assoc. reflexivity.
Qed.
End Progress.

(** X18: the progress reports never go back.  Whatever the outcome of
    [createDemoMix], the percentages it has reported form a list that does
    not decrease, with every value between 5 and 100; when it returns with
    a callback supplied, the first report is 5 and the last is 100. *)
Theorem progress_monotone (P : Platform) (opts : CreateDemoOptions)
    (log : Log) :
  exists added,
    snd (createDemoMix P opts log) = log ++ added /\
    StronglySorted Z.le (percents added) /\
    Forall (fun p => (5 <= p <= 100)%Z) (percents added) /\
    (forall mix,
       fst (createDemoMix P opts log) = Ok mix -> onProgress opts = true ->
       head (percents added) = Some 5%Z /\
       last (percents added) = Some 100%Z).
Proof.
  destruct (createDemoMix_percents opts P log)
    as (added & rest & Hlog & Hfull & Hdone).
  exists added. split; [exact Hlog |].
  pose proof (ranged_run opts (tracks opts)) as Hrun.
  rewrite <- Hfull in Hrun.
  destruct (ranged_prefix _ _ _ _ Hrun) as [Hsorted Hrange].
  split; [exact Hsorted |]. split; [exact Hrange |].
  intros mix Hmix Hcallback.
  rewrite (Hdone mix Hmix), app_nil_r in Hfull. rewrite Hfull.
  assert (forall p, percents (progressLog opts p) = [p]) as Hp
    by (intros p; unfold progressLog; now rewrite Hcallback).
  rewrite !Hp. split; [reflexivity |].
  rewrite !app_assoc. apply last_snoc.
Qed.

(** ** The callers: the track list of the application *)

Lemma array_get_middle {A} (l1 l2 : list (option A)) (x : option A) (n : nat) :
  n = List.length l1 -> array_get (l1 ++ x :: l2) n = x.
Proof.
  intros Hn. unfold array_get. now rewrite (list_lookup_middle l1 l2 x n Hn).
Qed.

Lemma array_set_middle {A} (l1 l2 : list (option A)) (x v : option A)
    (n : nat) :
  n = List.length l1 -> array_set (l1 ++ x :: l2) n v = l1 ++ v :: l2.
Proof.
  intros ->. unfold array_set.
  replace (List.length l1 <? List.length (l1 ++ x :: l2))%nat with true
    by (symmetry; apply Nat.ltb_lt; rewrite length_app; simpl; lia).
  rewrite insert_app_r_alt by lia. now rewrite Nat.sub_diag.
Qed.

(** The exchange of [moveTrack] on two neighbours, from either side. *)
Lemma swapTracks_neighbours (l1 l2 : list AudioTrack) (a b : AudioTrack) :
  swapTracks (l1 ++ a :: b :: l2) (List.length l1) (Datatypes.S (List.length l1))
  = map Some (l1 ++ b :: a :: l2) /\
  swapTracks (l1 ++ a :: b :: l2) (Datatypes.S (List.length l1)) (List.length l1)
  = map Some (l1 ++ b :: a :: l2).
Proof.
  unfold swapTracks. rewrite !map_app. cbn [map].
  set (m1 := map Some l1). set (m2 := map Some l2).
  assert (List.length l1 = List.length m1) as Hn
    by (unfold m1; now rewrite length_map).
  assert (forall x y : option AudioTrack,
            array_get (m1 ++ x :: y :: m2) (List.length l1) = x) as G0
    by (intros; now apply array_get_middle).
  assert (forall x y : option AudioTrack,
            array_get (m1 ++ x :: y :: m2) (Datatypes.S (List.length l1)) = y)
    as G1.
  { intros x y. replace (m1 ++ x :: y :: m2) with ((m1 ++ [x]) ++ y :: m2)
      by (now rewrite <- app_assoc).
    apply array_get_middle. rewrite length_app. simpl. lia. }
  assert (forall x y v : option AudioTrack,
            array_set (m1 ++ x :: y :: m2) (List.length l1) v
            = m1 ++ v :: y :: m2) as S0
    by (intros; now apply array_set_middle).
  assert (forall x y v : option AudioTrack,
            array_set (m1 ++ x :: y :: m2) (Datatypes.S (List.length l1)) v
            = m1 ++ x :: v :: m2) as S1.
  { intros x y v. replace (m1 ++ x :: y :: m2) with ((m1 ++ [x]) ++ y :: m2)
      by (now rewrite <- app_assoc).
    rewrite array_set_middle by (rewrite length_app; simpl; lia).
    now rewrite <- app_assoc. }
  split.
  - now rewrite G0, G1, S0, S1.
  - now rewrite G0, G1, S1, S0.
Qed.

Lemma mapM_defined (l : list AudioTrack) :
  mapM (fun x : option AudioTrack => x) (map Some l) = Some l.
Proof. now apply (mapM_fmap_Some (fun x => x) Some). Qed.

(** X19: [moveTrack] exchanges two neighbours and nothing else.  On a list
    [l1 ++ a :: b :: l2], moving [a] down and moving [b] up both give
    [l1 ++ b :: a :: l2], a permutation of the list, and clear the rendered
    demo; moving the first track up or the last track down changes
    nothing; and moving back restores the order of the tracks. *)
Theorem moveTrack_exchanges_neighbours (w : World)
    (l1 l2 : list AudioTrack) (a b : AudioTrack) :
  state_tracks (state w) = l1 ++ a :: b :: l2 ->
  let moved :=
    update (fun st => clearDemo (setTracks (fun _ => l1 ++ b :: a :: l2) st))
      w in
  moveTrack (List.length l1) down w = Some moved /\
  moveTrack (Datatypes.S (List.length l1)) up w = Some moved /\
  moveTrack 0 up w = Some w /\
  moveTrack (List.length (state_tracks (state w)) - 1) down w = Some w /\
  state_tracks (state moved) ≡ₚ state_tracks (state w) /\
  (exists restored,
     moveTrack (List.length l1) down moved = Some restored /\
     state_tracks (state restored) = state_tracks (state w)).
Proof.
  intros Htracks moved.
  destruct (swapTracks_neighbours l1 l2 a b) as [Hdown Hup].
  assert (List.length (l1 ++ a :: b :: l2)
          = Datatypes.S (Datatypes.S (List.length l1 + List.length l2)))
    as Hlen by (rewrite length_app; simpl; lia).
  split; [| split; [| split; [| split; [| split]]]].
  - unfold moveTrack. rewrite Htracks, Hlen. cbn [orb].
    replace (Z.of_nat (List.length l1) =?
             Z.of_nat (Datatypes.S (Datatypes.S
                                      (List.length l1 + List.length l2))) - 1)%Z
      with false by (symmetry; apply Z.eqb_neq; lia).
    replace (List.length l1 + 1)%nat with (Datatypes.S (List.length l1)) by lia.
    now rewrite Hdown, mapM_defined.
  - unfold moveTrack. rewrite Htracks. cbn [orb Nat.eqb].
    replace (Datatypes.S (List.length l1) - 1)%nat with (List.length l1) by lia.
    now rewrite Hup, mapM_defined.
  - reflexivity.
  - unfold moveTrack. rewrite Htracks, Hlen. cbn [orb].
    replace (Z.of_nat (Datatypes.S (Datatypes.S
                                      (List.length l1 + List.length l2)) - 1) =?
             Z.of_nat (Datatypes.S (Datatypes.S
                                      (List.length l1 + List.length l2))) - 1)%Z
      with true by (symmetry; apply Z.eqb_eq; lia).
    reflexivity.
  - unfold moved. cbn [state update clearDemo setBlobs setDemoMp3 setDemoWav
                         setTracks state_tracks].
    rewrite Htracks. apply Permutation_app_head, perm_swap.
  - destruct (swapTracks_neighbours l1 l2 b a) as [Hback _].
    eexists. split.
    + unfold moveTrack, moved.
      cbn [state update clearDemo setBlobs setDemoMp3 setDemoWav
             setTracks state_tracks].
      replace (List.length (l1 ++ b :: a :: l2))
        with (Datatypes.S (Datatypes.S (List.length l1 + List.length l2)))
        by (rewrite length_app; simpl; lia).
      cbn [orb].
      replace (Z.of_nat (List.length l1) =?
               Z.of_nat (Datatypes.S (Datatypes.S
                                        (List.length l1 + List.length l2))) - 1)%Z
        with false by (symmetry; apply Z.eqb_neq; lia).
      replace (List.length l1 + 1)%nat with (Datatypes.S (List.length l1)) by lia.
      rewrite Hback, mapM_defined. reflexivity.
    + cbn [state update clearDemo setBlobs setDemoMp3 setDemoWav
             setTracks state_tracks].
      now rewrite Htracks.
Qed.

(** Three tracks: moving the second one down puts it last. *)
Lemma moveTrack_exchanges_neighbours_witness :
  let w := {| state := setTracks (fun _ => [exampleTrack "a" []; exampleTrack "b" [];
                                            exampleTrack "c" []]) initialState;
              uuids := 3; urls := 3; effects := [] |} in
  exists moved,
    moveTrack 1 down w = Some moved /\
    map name (state_tracks (state moved)) = ["a"; "c"; "b"]%string.
Proof.
  cbv zeta. eexists. split.
  - exact (proj1 (moveTrack_exchanges_neighbours
                    {| state := setTracks
                                  (fun _ => [exampleTrack "a" []; exampleTrack "b" [];
                                             exampleTrack "c" []]) initialState;
                       uuids := 3; urls := 3; effects := [] |}
                    [exampleTrack "a" []] [] (exampleTrack "b" [])
                    (exampleTrack "c" []) eq_refl)).
  - reflexivity.
Defined.

(** X20: [handleRemoveTrack] takes out the tracks with the given id, keeps
    the others in their order and clears the rendered demo.  With an id
    that no track has, the list stays as it is and no URL is revoked; with
    an id that exactly one track has, that track is taken out and its URL
    is revoked. *)
Theorem handleRemoveTrack_removes (w : World) (id' : string) :
  let w' := handleRemoveTrack id' w in
  let prev := state_tracks (state w) in
  (forall t, In t (state_tracks (state w')) <-> In t prev /\ id t <> id') /\
  state_demoWav (state w') = None /\
  state_demoMp3 (state w') = None /\
  state_blobs (state w') = None /\
  ((forall t, In t prev -> id t <> id') ->
   state_tracks (state w') = prev /\ effects w' = effects w) /\
  (forall l1 t l2,
     prev = l1 ++ t :: l2 -> id t = id' ->
     (forall t', In t' (l1 ++ l2) -> id t' <> id') ->
     state_tracks (state w') = l1 ++ l2 /\
     effects w' = effects w ++ [RevokeObjectURL (url t)]).
Proof.
  cbv zeta. unfold handleRemoveTrack.
  cbn [state effects perform update clearDemo setBlobs setDemoMp3 setDemoWav
         setTracks state_tracks state_demoWav state_demoMp3 state_blobs].
  set (prev := state_tracks (state w)).
  set (keep := fun t : AudioTrack => negb (id t =? id')%string).
  assert (forall l, (forall t, In t l -> id t <> id') ->
                    List.filter keep l = l
                    /\ List.find (fun t => (id t =? id')%string) l = None)
    as Hnone.
  { induction l as [| x l IH]; intros Hl; [split; reflexivity |].
    assert (id x <> id') as Hx by (apply Hl; now left).
    destruct IH as [IH1 IH2]; [intros t Ht; apply Hl; now right |].
    unfold keep in *. cbn [List.filter List.find].
    rewrite (proj2 (String.eqb_neq _ _) Hx). cbn [negb].
    now rewrite IH1, IH2. }
  split; [| split; [reflexivity | split; [reflexivity | split; [reflexivity |]]]].
  - intros t. rewrite filter_In. unfold keep.
    rewrite negb_true_iff, String.eqb_neq. reflexivity.
  - split.
    + intros Hall. destruct (Hnone prev Hall) as [-> ->].
      split; [reflexivity | apply app_nil_r].
    + intros l1 t l2 Hsplit Hid Hothers.
      destruct (Hnone l1) as [Hf1 Hn1];
        [intros t' Ht'; apply Hothers, in_or_app; now left |].
      destruct (Hnone l2) as [Hf2 Hn2];
        [intros t' Ht'; apply Hothers, in_or_app; now right |].
      rewrite Hsplit, List.filter_app. cbn [List.filter].
      unfold keep at 2. rewrite (proj2 (String.eqb_eq _ _) Hid). cbn [negb].
      rewrite Hf1, Hf2. split; [reflexivity |].
      assert (List.find (fun t0 => (id t0 =? id')%string) (l1 ++ t :: l2)
              = Some t) as ->; [| reflexivity].
      clear -Hn1 Hid. induction l1 as [| x l1 IH]; cbn [app List.find] in *.
      * now rewrite (proj2 (String.eqb_eq _ _) Hid).
      * destruct (id x =? id')%string; [discriminate | now apply IH].
Qed.

(** ** The callers: adding files *)

Lemma handleFilesAdded_tracks (B : Browser) (files : list File) (w : World) :
  map file (state_tracks (state (handleFilesAdded B files w)))
  = map file (state_tracks (state w)) ++ files /\
  map name (state_tracks (state (handleFilesAdded B files w)))
  = map name (state_tracks (state w)) ++ map file_name files.
Proof.
  unfold handleFilesAdded.
  cbn [state clearDemo setBlobs setDemoMp3 setDemoWav setTracks state_tracks].
  rewrite !map_app. split; f_equal.
  - generalize (uuids w) (urls w). induction files as [| f files IH];
      intros n m; [reflexivity |].
    cbn [imap map file]. f_equal.
    pose proof (IH (Datatypes.S n) (Datatypes.S m)) as IH'.
    rewrite <- IH' at 2. f_equal. apply imap_ext. intros k x _. cbn.
    now rewrite !Nat.add_succ_r.
  - generalize (uuids w) (urls w). induction files as [| f files IH];
      intros n m; [reflexivity |].
    cbn [imap map name]. f_equal.
    pose proof (IH (Datatypes.S n) (Datatypes.S m)) as IH'.
    rewrite <- IH'. f_equal. apply imap_ext. intros k x _. cbn.
    now rewrite !Nat.add_succ_r.
Qed.

(** X21: what the drop zone adds to the track list.  Dropped or selected
    files become tracks at the end of the list, one track per file whose
    MIME type starts with "audio/", in the order of the files and named
    after them; the other files are left out, and the tracks that were
    there stay as they are.  A drop on a disabled zone adds nothing; the
    file picker does not look at [disabled]. *)
Theorem dropzone_adds_audio_files (B : Browser) (disabled : bool)
    (files : list File) (w : World) :
  let audio := List.filter (isAudio B) files in
  let dropped := handleDrop B disabled (handleFilesAdded B) files w in
  let selected := handleFileSelect B (handleFilesAdded B) files w in
  map file (state_tracks (state dropped))
  = map file (state_tracks (state w)) ++ (if disabled then [] else audio) /\
  map file (state_tracks (state selected))
  = map file (state_tracks (state w)) ++ audio /\
  map name (state_tracks (state selected))
  = map name (state_tracks (state w)) ++ map file_name audio /\
  (forall f, In f audio <->
             In f files /\ String.prefix "audio/" (file_type B f) = true) /\
  (disabled = true \/ audio = [] -> dropped = w).
Proof.
  cbv zeta. unfold handleDrop, handleFileSelect.
  set (audio := List.filter (isAudio B) files).
  assert (files = [] -> audio = []) as Hempty by (intros ->; reflexivity).
  split; [| split; [| split; [| split]]].
  - destruct disabled; [now rewrite app_nil_r |].
    destruct files as [| f files]; [now rewrite app_nil_r |].
    cbn [List.length Nat.ltb Nat.leb].
    destruct audio as [| a audio'] eqn:Ha; [now rewrite app_nil_r |].
    cbn [List.length Nat.ltb Nat.leb].
    apply handleFilesAdded_tracks.
  - destruct files as [| f files]; [now rewrite app_nil_r |].
    cbn [List.length Nat.ltb Nat.leb]. apply handleFilesAdded_tracks.
  - destruct files as [| f files]; [now rewrite app_nil_r |].
    cbn [List.length Nat.ltb Nat.leb]. apply handleFilesAdded_tracks.
  - intros f. unfold audio. now rewrite filter_In.
  - intros [-> | Hnone]; [reflexivity |].
    destruct disabled; [reflexivity |].
    destruct (0 <? List.length files)%nat; [| reflexivity].
    now rewrite Hnone.
Qed.

(** X22: a selection without any audio file leaves the track list as it
    is but discards the rendered demo, where the same files dropped on the
    zone change nothing: [handleFileSelect] calls [onFilesAdded] with an
    empty list, and [handleFilesAdded] clears the demo whatever it adds. *)
Theorem selection_without_audio_clears_demo (B : Browser)
    (files : list File) (w : World) :
  files <> [] ->
  List.filter (isAudio B) files = [] ->
  let selected := handleFileSelect B (handleFilesAdded B) files w in
  state_tracks (state selected) = state_tracks (state w) /\
  state_demoWav (state selected) = None /\
  state_demoMp3 (state selected) = None /\
  state_blobs (state selected) = None /\
  handleDrop B false (handleFilesAdded B) files w = w.
Proof.
  intros Hne Hnone. cbv zeta. unfold handleFileSelect, handleDrop.
  destruct files as [| f files]; [congruence |].
  cbn [List.length Nat.ltb Nat.leb]. rewrite Hnone.
  cbn [List.length Nat.ltb Nat.leb]. unfold handleFilesAdded.
  cbn [imap state clearDemo setBlobs setDemoMp3 setDemoWav setTracks
         state_tracks state_demoWav state_demoMp3 state_blobs].
  rewrite app_nil_r. repeat split.
Qed.

(** A text file selected while a demo is there. *)
Lemma selection_without_audio_clears_demo_witness :
  let B := {| platform := examplePlatform;
              file_type := fun f => "text/plain"%string;
              randomUUID := fun _ => ""%string;
              createObjectURL := fun _ => ""%string |} in
  let w := {| state := setDemoWav (Some "blob:1"%string) initialState;
              uuids := 0; urls := 1; effects := [] |} in
  let notes := {| file_name := "notes.txt"; file_bytes := [1]%Z |} in
  state_demoWav (state w) = Some "blob:1"%string /\
  state_demoWav (state (handleFileSelect B (handleFilesAdded B) [notes] w))
  = None.
Proof.
  cbv zeta. split; [reflexivity |].
  exact (proj1 (proj2 (selection_without_audio_clears_demo
           {| platform := examplePlatform;
              file_type := fun f => "text/plain"%string;
              randomUUID := fun _ => ""%string;
              createObjectURL := fun _ => ""%string |}
           [{| file_name := "notes.txt"; file_bytes := [1]%Z |}]
           {| state := setDemoWav (Some "blob:1"%string) initialState;
              uuids := 0; urls := 1; effects := [] |}
           ltac:(discriminate) eq_refl))).
Defined.

(** ** The callers: rendering the demo *)

Lemma fold_setProgress (l : list Z) (st : AppState) :
  let st' := fold_left (fun st p => setProgress p st) l st in
  state_tracks st' = state_tracks st /\
  state_isProcessing st' = state_isProcessing st /\
  state_normalize st' = state_normalize st /\
  state_demoWav st' = state_demoWav st /\
  state_demoMp3 st' = state_demoMp3 st /\
  state_blobs st' = state_blobs st /\
  state_tagFile st' = state_tagFile st /\
  state_tagInterval st' = state_tagInterval st.
Proof.
  revert st. induction l as [| p l IH]; intros st; cbn [fold_left].
  - repeat split.
  - destruct (IH (setProgress p st)) as (H1 & H2 & H3 & H4 & H5 & H6 & H7 & H8).
    cbv zeta. now rewrite H1, H2, H3, H4, H5, H6, H7, H8.
Qed.

(** X23: what [handleCreateDemo] leaves behind.  Without tracks it does
    nothing at all, so the engine's "No tracks provided" cannot come from
    it.  With tracks it runs [createDemoMix] once, on the tracks and the
    settings of the state, with a segment cap of 25 s, a fade of 0.5 s and
    a gap of 0.3 s, and ends with [isProcessing] off and the progress back
    at 0; the tracks and the settings are as before.  When the engine
    returns, the state holds its two blobs and two fresh URLs and a toast
    is shown; when it throws, the error is logged, one alert is shown and
    no demo is left in the state. *)
Theorem handleCreateDemo_outcome (B : Browser) (w : World) :
  let st := state w in
  let w' := handleCreateDemo B w in
  let outcome := createDemoMix (platform B) (demoOptions st) [] in
  (state_tracks st = [] -> w' = w) /\
  (state_tracks st <> [] ->
   state_isProcessing (state w') = false /\
   state_progress (state w') = 0%Z /\
   state_tracks (state w') = state_tracks st /\
   state_normalize (state w') = state_normalize st /\
   state_tagFile (state w') = state_tagFile st /\
   state_tagInterval (state w') = state_tagInterval st /\
   segmentDuration (demoOptions st) == 25 /\
   fadeDuration (demoOptions st) == 0.5 /\
   silenceGap (demoOptions st) == 0.3 /\
   match fst outcome with
   | Ok mix =>
       state_blobs (state w') = Some mix /\
       state_demoWav (state w') = Some (createObjectURL B (urls w)) /\
       state_demoMp3 (state w') = Some (createObjectURL B (urls w + 1)) /\
       urls w' = (urls w + 2)%nat /\
       effects w' = effects w ++ map Engine (snd outcome)
                    ++ [ShowToast "Demo Render Complete"]
   | Throw e =>
       state_blobs (state w') = None /\
       state_demoWav (state w') = None /\
       state_demoMp3 (state w') = None /\
       urls w' = urls w /\
       effects w' = effects w ++ map Engine (snd outcome)
                    ++ [ConsoleErrorExn e; Alert "Error creating demo."] /\
       e <> Error "No tracks provided"
   end).
Proof.
  cbv zeta. unfold handleCreateDemo. split.
  - intros ->. reflexivity.
  - intros Hne.
    assert ((List.length (state_tracks (state w)) =? 0)%nat = false) as ->
      by (apply Nat.eqb_neq; destruct (state_tracks (state w));
          [congruence | simpl; lia]).
    pose proof (createDemoMix_outcomes (platform B) (demoOptions (state w)) [])
      as Hout.
    destruct (createDemoMix (platform B) (demoOptions (state w)) [])
      as [result log] eqn:Hrun.
    cbn [fst snd].
    set (cleared := clearDemo (setProgress 0 (setIsProcessing true (state w)))).
    pose proof (fold_setProgress (percents log) cleared)
      as (H1 & H2 & H3 & H4 & H5 & H6 & H7 & H8).
    cbv zeta in H1, H2, H3, H4, H5, H6, H7, H8.
    destruct result as [mix | e];
      cbn [state urls effects perform update clearDemo setBlobs setDemoMp3
             setDemoWav setTracks setProgress setIsProcessing
             state_tracks state_isProcessing state_progress state_normalize
             state_demoWav state_demoMp3 state_blobs state_tagFile
             state_tagInterval];
      fold cleared; rewrite ?H1, ?H3, ?H4, ?H5, ?H6, ?H7, ?H8;
      (split; [reflexivity |]); (split; [reflexivity |]);
      (split; [reflexivity |]); (split; [reflexivity |]);
      (split; [reflexivity |]); (split; [reflexivity |]);
      (split; [reflexivity |]); (split; [reflexivity |]);
      (split; [reflexivity |]).
    + split; [now destruct mix |]. split; [reflexivity |].
      split; [reflexivity |]. split; [reflexivity |].
      now rewrite <- app_assoc.
    + split; [reflexivity |]. split; [reflexivity |]. split; [reflexivity |].
      split; [reflexivity |]. split; [now rewrite <- app_assoc |].
      destruct Hout
        as [[Hnil _] | [(before & track & after & buffers & _ & _ & _ & H)
                       | (decodedBuffers & _ & _ & H)]].
      * now cbn [tracks demoOptions] in Hnil.
      * injection H as -> _. discriminate.
      * rewrite mixdown_log in H. cbv zeta in H.
        destruct (startRendering _ _) as [samples |] eqn:Hs.
        -- destruct (bufferToWav _) as [blob | e'] eqn:Hb; [discriminate |].
           apply bufferToWav_rendered_Throw in Hb as [-> _];
             [| now rewrite offlineContext_eq].
           injection H as ->. discriminate.
        -- injection H as -> _. discriminate.
Qed.
